(** * go-poe: the event-stream codec and the request orchestrator

    A shallow embedding of the packages [sse] (reader and writer of
    Server-Sent Events) and [client] (request loop, retry policy, final
    response collection and tool-call aggregation), and of the functions
    of [server] that answer a query and send a cost request, with the
    properties of the protocol engine proved over it.

    Go strings are byte sequences: they are [string] here (a list of
    8-bit [ascii]).  Go [int] values that are only used as keys or
    carried around are [Z]. *)

From Stdlib Require Import ZArith List String Ascii Bool Lia.
From Stdlib Require Import Floats.SpecFloat.
From stdpp Require Import base option list gmap strings.
From stdpp Require Import pretty.

Local Open Scope string_scope.
Local Open Scope Z_scope.
Local Open Scope list_scope.

(** ** Helpers of the Go standard library used by the code *)

Module strings.

(** [strings.HasPrefix(s, prefix)]. *)
Definition HasPrefix (s prefix : string) : bool := String.prefix prefix s.

(** [strings.Cut(s, sep)] for a one-byte separator: the text before and
    after the first separator, and whether it was found. *)
Fixpoint Cut (s : string) (sep : ascii) : string * string * bool :=
  match s with
  | EmptyString => (EmptyString, EmptyString, false)
  | String c rest =>
      if Ascii.eqb c sep then (EmptyString, rest, true)
      else let '(before, after, found) := Cut rest sep in
           (String c before, after, found)
  end.

(** [strings.TrimPrefix(s, prefix)] for a one-byte prefix. *)
Definition TrimPrefix (s : string) (prefix : ascii) : string :=
  match s with
  | String c rest => if Ascii.eqb c prefix then rest else s
  | EmptyString => s
  end.

(** [strings.Join(elems, sep)]. *)
Definition Join (elems : list string) (sep : string) : string :=
  String.concat sep elems.

End strings.

Module bufio.

(** The two ways a [bufio.Scanner] stops before the end of its input. *)
Inductive ScanError :=
| ErrTooLong
| ErrRead (msg : string).

(** [bufio.MaxScanTokenSize]: a line needing a buffer of this many bytes
    without a newline in it makes [Scan] fail with [ErrTooLong]. *)
Definition MaxScanTokenSize : Z := 65536.

Definition tooLong (line : string) : bool :=
  MaxScanTokenSize <=? Z.of_nat (String.length line).

Definition LF : ascii := "010"%char.
Definition CR : ascii := "013"%char.

(** [dropCR]: a terminal carriage return is dropped from a line. *)
Fixpoint dropCR (data : string) : string :=
  match data with
  | EmptyString => EmptyString
  | String c EmptyString => if Ascii.eqb c CR then EmptyString else data
  | String c rest => String c (dropCR rest)
  end.

(** The tokens that successive [Scan] calls return with the split
    function [ScanLines], computed at once: [line] is the part of the
    current line already read.  A last line with no newline is a token
    when it is not empty. *)
Fixpoint scanLines (data : string) (line : string)
  : list string * option ScanError :=
  match data with
  | EmptyString =>
      if (line =? "")%string then ([], None)
      else if tooLong line then ([], Some ErrTooLong)
      else ([dropCR line], None)
  | String c rest =>
      if Ascii.eqb c LF then
        if tooLong line then ([], Some ErrTooLong)
        else let '(toks, err) := scanLines rest EmptyString in
             (dropCR line :: toks, err)
      else scanLines rest (line +:+ String c EmptyString)
  end.

(** What an [io.Reader] delivers: bytes, then the end of the input or a
    read failure. *)
Record Source := mkSource {
  src_data : string;
  src_err : option string
}.

(** The state of a scanner: the tokens still to come and the error
    [Err] reports once they are used up. *)
Record Scanner := mkScanner {
  tokens : list string;
  scan_err : option ScanError
}.

Definition NewScanner (r : Source) : Scanner :=
  let '(toks, err) := scanLines (src_data r) EmptyString in
  {| tokens := toks;
     scan_err := match err with
                 | Some e => Some e
                 | None => ErrRead <$> src_err r
                 end |}.

End bufio.

(** ** Package sse *)

Module sse.
Import bufio.

(** [type Event struct { Event, Data, ID string }]. *)
Record Event := mkEvent {
  ev_Event : string;
  ev_Data : string;
  ev_ID : string
}.

Definition zeroEvent : Event := mkEvent "" "" "".

(** [type Reader struct { scanner *bufio.Scanner }]. *)
Definition Reader := Scanner.

Definition NewReader (r : Source) : Reader := NewScanner r.

(** The result of [ReadEvent]: an event, [io.EOF], or the scanner's
    error. *)
Inductive ReadResult :=
| ReadOk (e : Event)
| ReadEOF
| ReadErr (err : ScanError).

(** The test [hasData || event.Event != "" || event.ID != ""]. *)
Definition pending (hasData : bool) (event : Event) : bool :=
  hasData || negb (ev_Event event =? "")%string
          || negb (ev_ID event =? "")%string.

Definition withData (event : Event) (dataLines : list string) : Event :=
  mkEvent (ev_Event event) (strings.Join dataLines (String LF "")) (ev_ID event).

(** How the [for r.scanner.Scan()] loop of [ReadEvent] ends: it returns
    an event at a blank line, or the scanner stops. *)
Inductive LoopEnd :=
| Returned (e : Event) (rest : list string)
| ScanStopped (event : Event) (dataLines : list string) (hasData : bool).

Fixpoint readLoop (lines : list string) (event : Event)
    (dataLines : list string) (hasData : bool) : LoopEnd :=
  match lines with
  | [] => ScanStopped event dataLines hasData
  | line :: rest =>
      if (line =? "")%string then
        if pending hasData event then Returned (withData event dataLines) rest
        else readLoop rest event dataLines hasData
      else if strings.HasPrefix line ":" then
        readLoop rest event dataLines hasData
      else
        let '(field, value, _) := strings.Cut line ":"%char in
        let value := strings.TrimPrefix value " "%char in
        if (field =? "event")%string then
          readLoop rest (mkEvent value (ev_Data event) (ev_ID event))
                   dataLines hasData
        else if (field =? "data")%string then
          readLoop rest event (dataLines ++ [value]) true
        else if (field =? "id")%string then
          readLoop rest (mkEvent (ev_Event event) (ev_Data event) value)
                   dataLines hasData
        else readLoop rest event dataLines hasData
  end.

(** [func (r *Reader) ReadEvent() (Event, error)], with the reader's
    state after the call. *)
Definition ReadEvent (r : Reader) : ReadResult * Reader :=
  match readLoop (tokens r) zeroEvent [] false with
  | Returned e rest => (ReadOk e, mkScanner rest (scan_err r))
  | ScanStopped event dataLines hasData =>
      match scan_err r with
      | Some err => (ReadErr err, mkScanner [] (scan_err r))
      | None =>
          if pending hasData event
          then (ReadOk (withData event dataLines), mkScanner [] None)
          else (ReadEOF, mkScanner [] None)
      end
  end.

(** Reading a stream to its end, as every caller's [for] loop does:
    the events in order and how the stream ended ([None] for
    [io.EOF]).  [fuel] bounds the number of calls; the result is
    [None] when it does not suffice. *)
Fixpoint readAll (fuel : nat) (r : Reader)
  : option (list Event * option ScanError) :=
  match fuel with
  | O => None
  | S fuel' =>
      match ReadEvent r with
      | (ReadOk e, r') =>
          match readAll fuel' r' with
          | Some (es, end_) => Some (e :: es, end_)
          | None => None
          end
      | (ReadEOF, _) => Some ([], None)
      | (ReadErr err, _) => Some ([], Some err)
      end
  end.

(** Each call that returns an event uses up at least one line, so one
    call more than there are lines is enough. *)
Definition ReadAll (r : Reader) : option (list Event * option ScanError) :=
  readAll (S (List.length (tokens r))) r.

(** *** The writer *)

(** The sink behind an [http.ResponseWriter]: what was written, and how
    many more writes succeed ([None]: all of them). *)
Record ResponseWriter := mkResponseWriter {
  rw_body : string;
  rw_writes_left : option nat
}.

(** One [fmt.Fprintf(sw.w, ...)] call with the formatted text. *)
Definition Fprintf (w : ResponseWriter) (text : string)
  : ResponseWriter * bool :=
  match rw_writes_left w with
  | Some O => (w, false)
  | Some (S n) => (mkResponseWriter (rw_body w +:+ text) (Some n), true)
  | None => (mkResponseWriter (rw_body w +:+ text) None, true)
  end.

(** [type Writer struct { w http.ResponseWriter; flusher http.Flusher }];
    [w_flushes] counts the calls of [Flush]. *)
Record Writer := mkWriter {
  w_w : ResponseWriter;
  w_flusher : bool;
  w_flushes : nat
}.

Definition nl : string := String LF "".

(** [func (sw *Writer) WriteEvent(e Event) error]: the writer after the
    call and whether it succeeded. *)
Definition WriteEvent (sw : Writer) (e : Event) : Writer * bool :=
  let step (w : ResponseWriter) (cond : bool) (text : string) :=
    if cond then Fprintf w text else (w, true) in
  let '(w1, ok1) := step (w_w sw) (negb (ev_ID e =? "")%string)
                         ("id: " +:+ ev_ID e +:+ nl) in
  if negb ok1 then (mkWriter w1 (w_flusher sw) (w_flushes sw), false) else
  let '(w2, ok2) := step w1 (negb (ev_Event e =? "")%string)
                         ("event: " +:+ ev_Event e +:+ nl) in
  if negb ok2 then (mkWriter w2 (w_flusher sw) (w_flushes sw), false) else
  let '(w3, ok3) := Fprintf w2 ("data: " +:+ ev_Data e +:+ nl +:+ nl) in
  if negb ok3 then (mkWriter w3 (w_flusher sw) (w_flushes sw), false) else
  (mkWriter w3 (w_flusher sw)
            (if w_flusher sw then S (w_flushes sw) else w_flushes sw), true).

End sse.

(** ** Decoded JSON, as [encoding/json] stores it in [any] *)

Module json.

(** The dynamic values [json.Unmarshal] puts in a [map[string]any]:
    [nil], [bool], [float64], [string], [[]any] and [map[string]any]. *)
#[warnings="-register-all"]
Inductive Value :=
| JNull
| JBool (b : bool)
| JNumber (f : spec_float)
| JString (s : string)
| JArray (l : list Value)
| JObject (m : gmap string Value).

Abbreviation Object := (gmap string Value).

(** A variable of type [map[string]any]: [None] is the nil map. *)
Abbreviation Map := (option (gmap string Value)).

(** [v, ok := m[k]]: [None] when the key is absent (also in a nil map). *)
Definition mapIndex (m : Map) (k : string) : option Value :=
  match m with
  | Some o => o !! k
  | None => None
  end.

(** [m[k] == nil]: the key is absent or holds JSON null. *)
Definition isNil (v : option Value) : bool :=
  match v with
  | None | Some JNull => true
  | Some _ => false
  end.

(** The type assertions [v.(string)], [v.(bool)], [v.(float64)],
    [v.([]any)] and [v.(map[string]any)] with their [ok]. *)
Definition asString (v : option Value) : option string :=
  match v with Some (JString s) => Some s | _ => None end.
Definition asBool (v : option Value) : option bool :=
  match v with Some (JBool b) => Some b | _ => None end.
Definition asFloat64 (v : option Value) : option spec_float :=
  match v with Some (JNumber f) => Some f | _ => None end.
Definition asArray (v : option Value) : option (list Value) :=
  match v with Some (JArray l) => Some l | _ => None end.
Definition asObject (v : option Value) : option Object :=
  match v with Some (JObject m) => Some m | _ => None end.

Definition minInt : Z := - 2 ^ 63.
Definition maxInt : Z := 2 ^ 63 - 1.

(** The conversion [int(f)] of a [float64]: truncation toward zero.
    Outside the range of [int] Go leaves the result to the platform;
    amd64 gives the least [int]. *)
Definition toInt (f : spec_float) : Z :=
  match f with
  | S754_zero _ => 0
  | S754_finite s m e =>
      let v := if 0 <=? e then Z.pos m * 2 ^ e else Z.pos m / 2 ^ (- e) in
      let v := if s then - v else v in
      if (minInt <=? v) && (v <=? maxInt) then v else minInt
  | _ => minInt
  end.

End json.

(** ** Package types *)

Module types.
Import json.

Record Attachment := mkAttachment {
  att_URL : string;
  att_ContentType : string;
  att_Name : string;
  att_InlineRef : option string
}.

Record ParametersDefinition := mkParametersDefinition {
  pd_Type : string;
  pd_Properties : Map;
  pd_Required : list string
}.

Record FunctionDefinition := mkFunctionDefinition {
  fd_Name : string;
  fd_Description : string;
  fd_Parameters : ParametersDefinition
}.

Record ToolDefinition := mkToolDefinition {
  td_Type : string;
  td_Function : FunctionDefinition
}.

Record FunctionCallDefinition := mkFunctionCallDefinition {
  fc_Name : string;
  fc_Arguments : string
}.

Record ToolCallDefinition := mkToolCallDefinition {
  tc_ID : string;
  tc_Type : string;
  tc_Function : FunctionCallDefinition
}.

Record ToolResultDefinition := mkToolResultDefinition {
  tr_Role : string;
  tr_Name : string;
  tr_ToolCallID : string;
  tr_Content : string
}.

(** The pointer fields [*string] are [option string]. *)
Record FunctionCallDefinitionDelta := mkFunctionCallDefinitionDelta {
  fcd_Name : option string;
  fcd_Arguments : string
}.

Record ToolCallDefinitionDelta := mkToolCallDefinitionDelta {
  tcd_Index : Z;
  tcd_ID : option string;
  tcd_Type : option string;
  tcd_Function : FunctionCallDefinitionDelta
}.

(** [MetaResponse]; [meta_Text] is the text of the [PartialResponse] it
    embeds. *)
Record MetaResponse := mkMetaResponse {
  meta_Text : string;
  meta_Linkify : bool;
  meta_SuggestedReplies : bool;
  meta_ContentType : string;
  meta_RefetchSettings : bool
}.

(** The field [RawResponse any] of a partial response: a
    [*MetaResponse] or a value of another type ([None] is [nil]). *)
Inductive RawResponse :=
| RawMeta (m : MetaResponse)
| RawOther.

Record PartialResponse := mkPartialResponse {
  pr_Text : string;
  pr_Data : Map;
  pr_RawResponse : option RawResponse;
  pr_FullPrompt : option string;
  pr_RequestID : option string;
  pr_IsSuggestedReply : bool;
  pr_IsReplaceResponse : bool;
  pr_Attachment : option Attachment;
  pr_ToolCalls : list ToolCallDefinitionDelta;
  pr_Index : option Z
}.

(** [&types.PartialResponse{Text: text, Index: index}]: the other
    fields keep their zero values. *)
Definition textResponse (text : string) (index : option Z) : PartialResponse :=
  mkPartialResponse text None None None None false false None [] index.

End types.

(** ** Package client

    A request runs in its own goroutine and hands its messages to the
    caller through a buffered channel that it closes at the end.  The
    channel keeps the order of the sends, and the caller of [StreamRequest]
    reads until the channel is closed: what a request does is therefore
    the list of the messages it sends, in order, together with the lines
    it logs and the tries it makes.  What the network, the JSON decoder
    and the context do is given from outside, in a [World]. *)

Module client.
Import bufio sse json types.

(** [type BotError struct { Message string; Cause error }]; the cause
    is kept as its text. *)
Record BotError := mkBotError {
  Message : string;
  Cause : option string
}.

(** The errors the request functions return: a [*BotError] or a
    [*BotErrorNoRetry]. *)
Inductive error :=
| ErrBotError (e : BotError)
| ErrBotErrorNoRetry (e : BotError).

(** [func IsBotErrorNoRetry(err error) bool]. *)
Definition IsBotErrorNoRetry (err : error) : bool :=
  match err with
  | ErrBotErrorNoRetry _ => true
  | ErrBotError _ => false
  end.

(** [ScanError.Error()]. *)
Definition scanErrorText (e : ScanError) : string :=
  match e with
  | ErrTooLong => "bufio.Scanner: token too long"
  | ErrRead msg => msg
  end.

(** The lines written with [log.Printf]. *)
Inductive LogEntry :=
| LogNoText
| LogUnknownEvent (type_ : string)
| LogNoDone
| LogFailedNoRetry (botName : string) (err : error)
| LogFailedTry (botName : string) (i : Z) (err : error)
| LogToolNotFound (name : string)
| LogToolError (name : string) (msg : string).

(** [type ToolExecutable struct]: the callback maps the arguments to
    its result ([inl]) or to the text of its error ([inr]). *)
Record ToolExecutable := mkToolExecutable {
  te_Name : string;
  te_Execute : string -> string + string
}.

(** The fields of [StreamRequestOptions] that decide what is requested
    and how often. *)
Record StreamRequestOptions := mkStreamRequestOptions {
  APIKey : string;
  Tools : list ToolDefinition;
  ToolExecutables : list ToolExecutable;
  NumTries : Z;
  RetrySleepTime : Z;
  BaseURL : string
}.

Definition defaultBaseURL : string := "https://api.poe.com/bot/".
Definition defaultNumTries : Z := 2.
Definition defaultRetrySleep : Z := 500 * 1000000.

(** [func (o *StreamRequestOptions) defaults()]. *)
Definition defaults (o : StreamRequestOptions) : StreamRequestOptions :=
  {| APIKey := APIKey o;
     Tools := Tools o;
     ToolExecutables := ToolExecutables o;
     NumTries := if NumTries o <=? 0 then defaultNumTries else NumTries o;
     RetrySleepTime :=
       if RetrySleepTime o <=? 0 then defaultRetrySleep else RetrySleepTime o;
     BaseURL := if (BaseURL o =? "")%string then defaultBaseURL else BaseURL o |}.

(** The request body built by [buildPayload]: the query request as the
    JSON object it marshals to, and the three keys [buildPayload] sets
    from slices that are not nil. *)
Record Payload := mkPayload {
  pl_request : Object;
  pl_tools : list ToolDefinition;
  pl_tool_calls : list ToolCallDefinition;
  pl_tool_results : list ToolResultDefinition
}.

(** [func buildPayload(req, tools, toolCalls, toolResults)]; every
    caller passes nil or a slice that is not empty. *)
Definition buildPayload (req : Object) (tools : list ToolDefinition)
    (toolCalls : list ToolCallDefinition)
    (toolResults : list ToolResultDefinition) : Payload :=
  mkPayload req tools toolCalls toolResults.

(** [payload["tools"] != nil]. *)
Definition hasToolsOf (payload : Payload) : bool :=
  match pl_tools payload with
  | _ :: _ => true
  | [] => negb (isNil (pl_request payload !! "tools"))
  end.

(** What sending the request gives: one of the failures before the
    stream, or a response whose body is read as an event stream. *)
Inductive Transport :=
| MarshalFailed (err : string)
| NewRequestFailed (err : string)
| DoFailed (err : string)
| Responded (body : Source).

(** The surroundings of a call, which the code reaches through
    libraries and the network:
    - [Unmarshal data]: [json.Unmarshal([]byte(data), &dataMap)] for a
      [map[string]any]; [None] is an error, [Some None] the nil map
      that JSON null leaves;
    - [toDelta raw]: [json.Marshal(raw)] followed by [json.Unmarshal]
      into a [ToolCallDefinitionDelta]; [None] is an error;
    - [httpDo payload i]: what try [i] of the request with this payload
      meets;
    - [ctxDone payload i]: whether the context is cancelled during the
      sleep after try [i];
    - [rangeOrder]: the order in which [range] visits a map. *)
Class World := mkWorld {
  Unmarshal : string -> option Map;
  toDelta : Value -> option ToolCallDefinitionDelta;
  httpDo : Payload -> Z -> Transport;
  ctxDone : Payload -> Z -> bool;
  rangeOrder : list (Z * ToolCallDefinition) -> list (Z * ToolCallDefinition);
  rangeOrder_perm : forall l, rangeOrder l ≡ₚ l
}.

Section WithWorld.
Context `{W : World}.

(** [func getJSONStringField(data, field string) (string, error)]. *)
Definition getJSONStringField (data field : string) : string + error :=
  match Unmarshal data with
  | None =>
      inr (ErrBotErrorNoRetry
             (mkBotError ("Invalid JSON in event: " +:+ data) None))
  | Some dataMap =>
      match asString (mapIndex dataMap field) with
      | Some text => inl text
      | None =>
          inr (ErrBotErrorNoRetry
                 (mkBotError ("Expected string in '" +:+ field +:+ "' field")
                             None))
      end
  end.

(** The variables of the loop of [performQueryRequest].  [eventCount] is
    an [int] that counts the records read; a stream holds far fewer than
    [2^63] records, so the count is a [Z] that does not wrap. *)
Record LoopState := mkLoopState {
  chunks : list string;
  eventCount : Z;
  errorReported : bool
}.

Definition initialState : LoopState := mkLoopState [] 0 false.

(** What one turn of the loop does after an event was read: it goes on
    with a new state, or the function returns. *)
Inductive Step :=
| Continue (st : LoopState) (sent : list PartialResponse) (logs : list LogEntry)
| Return (err : option error) (logs : list LogEntry).

(** The block "Parse index from data if present". *)
Definition parseIndex (data : string) : option Z :=
  if (data =? "")%string then None
  else match Unmarshal data with
       | Some dataMap =>
           match mapIndex dataMap "index" with
           | Some idx => toInt <$> asFloat64 (Some idx)
           | None => None
           end
       | None => None
       end.

(** The body of the loop from [eventCount++] on. *)
Definition handleEvent (hasTools : bool) (st0 : LoopState) (event : Event)
  : Step :=
  let st := mkLoopState (chunks st0) (eventCount st0 + 1) (errorReported st0) in
  let index := parseIndex (ev_Data event) in
  let type_ := ev_Event event in
  if (type_ =? "done")%string then
    Return None
      (if (Nat.eqb (List.length (chunks st)) 0) && negb (errorReported st)
          && negb hasTools
       then [LogNoText] else [])
  else if (type_ =? "text")%string then
    match getJSONStringField (ev_Data event) "text" with
    | inr err => Return (Some err) []
    | inl text =>
        Continue (mkLoopState (chunks st ++ [text]) (eventCount st)
                              (errorReported st))
                 [textResponse text index] []
    end
  else if (type_ =? "replace_response")%string then
    match getJSONStringField (ev_Data event) "text" with
    | inr err => Return (Some err) []
    | inl text =>
        Continue (mkLoopState [] (eventCount st) (errorReported st))
                 [mkPartialResponse text None None None None false true
                                    None [] index] []
    end
  else if (type_ =? "file")%string then
    match Unmarshal (ev_Data event) with
    | None =>
        Return (Some (ErrBotErrorNoRetry
                        (mkBotError "Invalid JSON in file event" None))) []
    | Some dataMap =>
        let fileURL := default "" (asString (mapIndex dataMap "url")) in
        let contentType :=
          default "" (asString (mapIndex dataMap "content_type")) in
        let name := default "" (asString (mapIndex dataMap "name")) in
        let inlineRef := asString (mapIndex dataMap "inline_ref") in
        Continue st
          [mkPartialResponse "" None None None None false false
             (Some (mkAttachment fileURL contentType name inlineRef))
             [] index] []
    end
  else if (type_ =? "suggested_reply")%string then
    match getJSONStringField (ev_Data event) "text" with
    | inr err => Return (Some err) []
    | inl text =>
        Continue st
          [mkPartialResponse text None None None None true false
                             None [] index] []
    end
  else if (type_ =? "json")%string then
    match Unmarshal (ev_Data event) with
    | None =>
        Return (Some (ErrBotErrorNoRetry
                        (mkBotError "Invalid JSON in json event" None))) []
    | Some data =>
        Continue st
          [mkPartialResponse "" data None None None false false
                             None [] index] []
    end
  else if (type_ =? "meta")%string then
    if negb (eventCount st =? 1) then Continue st [] []
    else
      match Unmarshal (ev_Data event) with
      | None =>
          Continue (mkLoopState (chunks st) (eventCount st) true) [] []
      | Some dataMap =>
          let linkify := default false (asBool (mapIndex dataMap "linkify")) in
          let suggestedReplies :=
            default false (asBool (mapIndex dataMap "suggested_replies")) in
          let contentType :=
            default "text/markdown"
                    (asString (mapIndex dataMap "content_type")) in
          let meta :=
            mkMetaResponse "" linkify suggestedReplies contentType false in
          Continue st
            [mkPartialResponse "" None (Some (RawMeta meta)) None None
                               false false None [] index] []
      end
  else if (type_ =? "error")%string then
    match Unmarshal (ev_Data event) with
    | None => Return (Some (ErrBotError (mkBotError (ev_Data event) None))) []
    | Some dataMap =>
        let allowRetry :=
          default true (asBool (mapIndex dataMap "allow_retry")) in
        if allowRetry
        then Return (Some (ErrBotError (mkBotError (ev_Data event) None))) []
        else Return (Some (ErrBotErrorNoRetry
                             (mkBotError (ev_Data event) None))) []
    end
  else if (type_ =? "ping")%string then Continue st [] []
  else
    Continue (mkLoopState (chunks st) (eventCount st) true) []
             [LogUnknownEvent type_].

(** What a request leaves behind: the messages sent on the channel, the
    log lines, and the error returned ([None] is nil). *)
Record Outcome := mkOutcome {
  sent : list PartialResponse;
  logs : list LogEntry;
  result : option error
}.

Definition prepend (ms : list PartialResponse) (ls : list LogEntry)
    (o : Outcome) : Outcome :=
  mkOutcome (ms ++ sent o) (ls ++ logs o) (result o).

(** The [for] loop of [performQueryRequest]; [None] when [fuel] turns
    do not reach the end of the stream. *)
Fixpoint requestLoop (fuel : nat) (hasTools : bool) (reader : Reader)
    (st : LoopState) : option Outcome :=
  match fuel with
  | O => None
  | S fuel' =>
      match ReadEvent reader with
      | (ReadEOF, _) => Some (mkOutcome [] [LogNoDone] None)
      | (ReadErr err, _) =>
          Some (mkOutcome [] []
                  (Some (ErrBotError
                           (mkBotError ("SSE read error: " +:+ scanErrorText err)
                                       (Some (scanErrorText err))))))
      | (ReadOk event, reader') =>
          match handleEvent hasTools st event with
          | Return err ls => Some (mkOutcome [] ls err)
          | Continue st' ms ls =>
              prepend ms ls <$> requestLoop fuel' hasTools reader' st'
          end
      end
  end.

(** [func performQueryRequest(ctx, httpClient, url, payload, headers, ch)]
    as try [i] of a request. *)
Definition performQueryRequest (payload : Payload) (i : Z) : option Outcome :=
  match httpDo payload i with
  | MarshalFailed err =>
      Some (mkOutcome [] []
              (Some (ErrBotError
                       (mkBotError ("failed to marshal request: " +:+ err) None))))
  | NewRequestFailed err =>
      Some (mkOutcome [] []
              (Some (ErrBotError
                       (mkBotError ("failed to create request: " +:+ err) None))))
  | DoFailed err =>
      Some (mkOutcome [] []
              (Some (ErrBotError
                       (mkBotError ("HTTP request failed: " +:+ err) (Some err)))))
  | Responded body =>
      let reader := NewReader body in
      requestLoop (S (List.length (tokens reader))) (hasToolsOf payload)
                  reader initialState
  end.


(** What a stream request leaves behind: the messages sent on the
    channel, the log lines, and the tries made, each a payload and
    its number. *)
Record Run := mkRun {
  run_sent : list PartialResponse;
  run_logs : list LogEntry;
  run_tries : list (Payload * Z)
}.

Definition emptyRun : Run := mkRun [] [] [].

Definition andThen (a b : Run) : Run :=
  mkRun (run_sent a ++ run_sent b) (run_logs a ++ run_logs b)
        (run_tries a ++ run_tries b).

(** The loop [for i := 0; i < opts.NumTries; i++] of
    [streamRequestBase] and [streamRequestBaseWithPayload] from try
    [i] on, with [remaining] turns left. *)
Fixpoint tryLoop (remaining : nat) (i : Z) (botName : string)
    (opts : StreamRequestOptions) (payload : Payload) : option Run :=
  match remaining with
  | O => Some emptyRun
  | S remaining' =>
      match performQueryRequest payload i with
      | None => None
      | Some o =>
          match result o with
          | None => Some (mkRun (sent o) (logs o) [(payload, i)])
          | Some err =>
              if IsBotErrorNoRetry err then
                Some (mkRun (sent o) (logs o ++ [LogFailedNoRetry botName err])
                            [(payload, i)])
              else
                let this :=
                  mkRun (sent o) (logs o ++ [LogFailedTry botName i err])
                        [(payload, i)] in
                if i =? NumTries opts - 1 then Some this
                else if ctxDone payload i then Some this
                else andThen this
                       <$> tryLoop remaining' (i + 1) botName opts payload
          end
      end
  end.

(** [func streamRequestBaseWithPayload(ctx, botName, opts, payload, ch)]. *)
Definition streamRequestBaseWithPayload (botName : string)
    (opts : StreamRequestOptions) (payload : Payload) : option Run :=
  tryLoop (Z.to_nat (NumTries opts)) 0 botName opts payload.

(** [func streamRequestBase(ctx, req, botName, opts, ch)]. *)
Definition streamRequestBase (req : Object) (botName : string)
    (opts : StreamRequestOptions) : option Run :=
  let payload := buildPayload req [] [] [] in
  tryLoop (Z.to_nat (NumTries opts)) 0 botName opts payload.

(** *** The tool-call path *)

(** The body of the loop "Aggregate tool calls" for one delta. *)
Definition aggregate (aggregatedToolCalls : gmap Z ToolCallDefinition)
    (delta : ToolCallDefinitionDelta) : gmap Z ToolCallDefinition :=
  match aggregatedToolCalls !! tcd_Index delta with
  | None =>
      match tcd_ID delta, tcd_Type delta, fcd_Name (tcd_Function delta) with
      | Some id, Some type_, Some name =>
          <[tcd_Index delta :=
              mkToolCallDefinition id type_
                (mkFunctionCallDefinition name
                   (fcd_Arguments (tcd_Function delta)))]>
            aggregatedToolCalls
      | _, _, _ => aggregatedToolCalls
      end
  | Some tc =>
      <[tcd_Index delta :=
          mkToolCallDefinition (tc_ID tc) (tc_Type tc)
            (mkFunctionCallDefinition (fc_Name (tc_Function tc))
               (fc_Arguments (tc_Function tc)
                +:+ fcd_Arguments (tcd_Function delta)))]>
        aggregatedToolCalls
  end.

(** The loop [for _, delta := range deltas]. *)
Definition aggregateAll (aggregatedToolCalls : gmap Z ToolCallDefinition)
    (deltas : list ToolCallDefinitionDelta) : gmap Z ToolCallDefinition :=
  fold_left aggregate deltas aggregatedToolCalls.

(** One turn of [for msg := range firstPassCh]: the messages passed on
    to the caller and the map afterwards. *)
Definition firstPassStep (noExecutables : bool)
    (aggregatedToolCalls : gmap Z ToolCallDefinition) (msg : PartialResponse)
  : list PartialResponse * gmap Z ToolCallDefinition :=
  let forward := ([msg], aggregatedToolCalls) in
  let skip := ([], aggregatedToolCalls) in
  if (if pr_Data msg is None then true else false)
     || isNil (mapIndex (pr_Data msg) "choices") then forward
  else
    match asArray (mapIndex (pr_Data msg) "choices") with
    | None | Some [] => forward
    | Some (choice0 :: _) =>
        match asObject (Some choice0) with
        | None => forward
        | Some choice =>
            if negb (isNil (choice !! "finish_reason")) then skip
            else
              match asObject (choice !! "delta") with
              | None => forward
              | Some delta =>
                  match delta !! "tool_calls" with
                  | Some toolCallsRaw =>
                      match asArray (Some toolCallsRaw) with
                      | None => skip
                      | Some toolCallsList =>
                          let deltas := omap toDelta toolCallsList in
                          if noExecutables then
                            ([mkPartialResponse "" None None None None
                                false false None deltas (pr_Index msg)],
                             aggregatedToolCalls)
                          else ([], aggregateAll aggregatedToolCalls deltas)
                      end
                  | None =>
                      match delta !! "content" with
                      | Some content =>
                          match asString (Some content) with
                          | Some contentStr =>
                              ([textResponse contentStr (pr_Index msg)],
                               aggregatedToolCalls)
                          | None => skip
                          end
                      | None => skip
                      end
                  end
              end
        end
    end.

(** The whole loop over the messages of the first pass. *)
Fixpoint firstPass (noExecutables : bool)
    (aggregatedToolCalls : gmap Z ToolCallDefinition)
    (msgs : list PartialResponse)
  : list PartialResponse * gmap Z ToolCallDefinition :=
  match msgs with
  | [] => ([], aggregatedToolCalls)
  | msg :: rest =>
      let '(out, agg) := firstPassStep noExecutables aggregatedToolCalls msg in
      let '(out', agg') := firstPass noExecutables agg rest in
      (out ++ out', agg')
  end.

(** [execMap]: the executables by name, a later one replacing an
    earlier one of the same name. *)
Definition execMapOf (executables : list ToolExecutable)
  : gmap string ToolExecutable :=
  fold_left (fun m exec => <[te_Name exec := exec]> m) executables ∅.

(** [func executeTools(ctx, executables, toolCalls)]: the results and
    the log lines (the error returned is always nil). *)
Fixpoint executeToolsLoop (execMap : gmap string ToolExecutable)
    (toolCalls : list ToolCallDefinition)
  : list ToolResultDefinition * list LogEntry :=
  match toolCalls with
  | [] => ([], [])
  | tc :: rest =>
      let '(results, ls) := executeToolsLoop execMap rest in
      let name := fc_Name (tc_Function tc) in
      match execMap !! name with
      | None => (results, LogToolNotFound name :: ls)
      | Some exec =>
          match te_Execute exec (fc_Arguments (tc_Function tc)) with
          | inl content =>
              (mkToolResultDefinition "tool" name (tc_ID tc) content :: results,
               ls)
          | inr errText =>
              (mkToolResultDefinition "tool" name (tc_ID tc) errText :: results,
               LogToolError name errText :: ls)
          end
      end
  end.

Definition executeTools (executables : list ToolExecutable)
    (toolCalls : list ToolCallDefinition)
  : list ToolResultDefinition * list LogEntry :=
  executeToolsLoop (execMapOf executables) toolCalls.

(** The slice [toolCalls] filled by [for _, tc := range aggregatedToolCalls]. *)
Definition toolCallsOf (aggregatedToolCalls : gmap Z ToolCallDefinition)
  : list ToolCallDefinition :=
  (rangeOrder (map_to_list aggregatedToolCalls)).*2.

(** [func streamRequestWithTools(ctx, req, botName, opts, ch)]. *)
Definition streamRequestWithTools (req : Object) (botName : string)
    (opts : StreamRequestOptions) : option Run :=
  let payload := buildPayload req (Tools opts) [] [] in
  match streamRequestBaseWithPayload botName opts payload with
  | None => None
  | Some first =>
      let noExecutables :=
        Nat.eqb (List.length (ToolExecutables opts)) 0 in
      let '(out, aggregatedToolCalls) :=
        firstPass noExecutables ∅ (run_sent first) in
      let pass1 := mkRun out (run_logs first) (run_tries first) in
      if noExecutables then Some pass1
      else
        let toolCalls := toolCallsOf aggregatedToolCalls in
        if Nat.eqb (List.length toolCalls) 0 then Some pass1
        else
          let '(toolResults, ls) :=
            executeTools (ToolExecutables opts) toolCalls in
          let secondPayload :=
            buildPayload req (Tools opts) toolCalls toolResults in
          andThen (mkRun out (run_logs first ++ ls) (run_tries first))
            <$> streamRequestBaseWithPayload botName opts secondPayload
  end.

(** [func StreamRequest(ctx, req, botName, opts)]: what the returned
    channel delivers until it is closed. *)
Definition StreamRequest (req : Object) (botName : string)
    (opts : StreamRequestOptions) : option Run :=
  let opts := defaults opts in
  if Nat.ltb 0 (List.length (Tools opts))
  then streamRequestWithTools req botName opts
  else streamRequestBase req botName opts.

(** *** The final response *)

Definition isMeta (msg : PartialResponse) : bool :=
  match pr_RawResponse msg with
  | Some (RawMeta _) => true
  | _ => false
  end.

(** The body of [for msg := range ch] in [GetFinalResponse]. *)
Definition collect (chunks : list string) (msg : PartialResponse)
  : list string :=
  if isMeta msg then chunks
  else if pr_IsSuggestedReply msg then chunks
  else (if pr_IsReplaceResponse msg then [] else chunks) ++ [pr_Text msg].

(** [GetFinalResponse] from the messages the channel delivered on. *)
Definition finalResponse (botName : string) (msgs : list PartialResponse)
  : string + error :=
  let chunks := fold_left collect msgs [] in
  if Nat.eqb (List.length chunks) 0
  then inr (ErrBotError
              (mkBotError ("Bot " +:+ botName +:+ " sent no response") None))
  else inl (strings.Join chunks "").

(** [func GetFinalResponse(ctx, req, botName, apiKey, opts)]. *)
Definition GetFinalResponse (req : Object) (botName apiKey : string)
    (opts : StreamRequestOptions) : option (string + error) :=
  let opts :=
    if negb (apiKey =? "")%string
    then mkStreamRequestOptions apiKey (Tools opts) (ToolExecutables opts)
           (NumTries opts) (RetrySleepTime opts) (BaseURL opts)
    else opts in
  finalResponse botName ∘ run_sent <$> StreamRequest req botName opts.

End WithWorld.
End client.

(** ** Package server: the functions that use the event codec *)

Module server.
Import bufio sse json types client.

(** *** Cost requests *)

(** The errors [costRequestInner] returns: an error made with
    [fmt.Errorf], a [*CostRequestError] with its message, or an
    [*InsufficientFundError]. *)
Inductive costError :=
| ErrWrapped (msg : string)
| ErrCostRequest (Message : string)
| ErrInsufficientFund.

(** What sending the cost request gives: a failure before the response,
    or a response with its status code, status text and body. *)
Inductive CostTransport :=
| CostMarshalFailed (err : string)
| CostNewRequestFailed (err : string)
| CostDoFailed (err : string)
| CostResponded (StatusCode : Z) (Status : string) (body : Source).

(** The values the server puts in the maps it marshals: strings, bools
    and ints. *)
Inductive GoValue :=
| GString (s : string)
| GBool (b : bool)
| GInt (n : Z).

(** [json.Marshal] of such a map, as text; it does not fail on them. *)
Class Encoder := mkEncoder {
  Marshal : gmap string GoValue -> string
}.

(** [type ErrorResponse struct { PartialResponse; AllowRetry bool;
    ErrorType *string }]. *)
Record ErrorResponse := mkErrorResponse {
  er_PartialResponse : PartialResponse;
  er_AllowRetry : bool;
  er_ErrorType : option string
}.

(** The events a bot sends on its channel. *)
Inductive BotEvent :=
| EvPartialResponse (e : PartialResponse)
| EvErrorResponse (e : ErrorResponse)
| EvMetaResponse (e : MetaResponse)
| EvDataResponse (Metadata : string).

Section WithWorld.
Context `{W : World}.

(** The test of the loop of [costRequestInner]: a [result] event whose
    data is a JSON object with the status [success]. *)
Definition successResult (event : Event) : bool :=
  (ev_Event event =? "result")%string
  && match Unmarshal (ev_Data event) with
     | Some eventData =>
         match asString (mapIndex eventData "status") with
         | Some status => (status =? "success")%string
         | None => false
         end
     | None => false
     end.

(** The loop of [costRequestInner]: [Some None] is the return of nil,
    and any error of [ReadEvent], [io.EOF] or not, leaves the loop. *)
Fixpoint costLoop (fuel : nat) (reader : Reader) : option (option costError) :=
  match fuel with
  | O => None
  | S fuel' =>
      match ReadEvent reader with
      | (ReadOk event, reader') =>
          if successResult event then Some None else costLoop fuel' reader'
      | (_, _) => Some (Some ErrInsufficientFund)
      end
  end.

(** [func costRequestInner(ctx, accessKey, url, amounts) error] on what
    the request meets. *)
Definition costRequestInner (t : CostTransport) : option (option costError) :=
  match t with
  | CostMarshalFailed err =>
      Some (Some (ErrWrapped ("failed to marshal cost request: " +:+ err)))
  | CostNewRequestFailed err =>
      Some (Some (ErrWrapped ("failed to create cost request: " +:+ err)))
  | CostDoFailed err =>
      Some (Some (ErrCostRequest ("HTTP error during cost request: " +:+ err)))
  | CostResponded StatusCode Status body =>
      if negb (StatusCode =? 200) then
        Some (Some (ErrCostRequest
                      (pretty StatusCode +:+ " " +:+ Status +:+ ": "
                       +:+ src_data body)))
      else
        let reader := NewReader body in
        costLoop (S (List.length (tokens reader))) reader
  end.

End WithWorld.

(** *** Answering a query *)

Section WithEncoder.
Context `{E : Encoder}.

(** The maps the [write...Event] functions marshal. *)
Definition textMap (text : string) (index : option Z) : gmap string GoValue :=
  let data : gmap string GoValue := {[ "text" := GString text ]} in
  match index with
  | Some i => <["index" := GInt i]> data
  | None => data
  end.

Definition fileMap (att : Attachment) : gmap string GoValue :=
  let data : gmap string GoValue :=
    {[ "url" := GString (att_URL att);
       "content_type" := GString (att_ContentType att);
       "name" := GString (att_Name att) ]} in
  match att_InlineRef att with
  | Some ref => <["inline_ref" := GString ref]> data
  | None => data
  end.

Definition metaMap (meta : MetaResponse) : gmap string GoValue :=
  {[ "content_type" := GString (meta_ContentType meta);
     "refetch_settings" := GBool (meta_RefetchSettings meta);
     "linkify" := GBool (meta_Linkify meta);
     "suggested_replies" := GBool (meta_SuggestedReplies meta) ]}.

Definition errorMap (text : string) (allowRetry : bool)
    (errorType : option string) : gmap string GoValue :=
  let data : gmap string GoValue := {[ "allow_retry" := GBool allowRetry ]} in
  let data := if negb (text =? "")%string then <["text" := GString text]> data
              else data in
  match errorType with
  | Some t => <["error_type" := GString t]> data
  | None => data
  end.

(** The [write...Event] functions: each marshals its map and writes one
    event; the error of [WriteEvent] is dropped. *)
Definition writeTextEvent (w : Writer) (text : string) (index : option Z) : Writer :=
  (WriteEvent w (mkEvent "text" (Marshal (textMap text index)) "")).1.

Definition writeReplaceResponseEvent (w : Writer) (text : string) : Writer :=
  (WriteEvent w (mkEvent "replace_response" (Marshal (textMap text None)) "")).1.

Definition writeSuggestedReplyEvent (w : Writer) (text : string) : Writer :=
  (WriteEvent w (mkEvent "suggested_reply" (Marshal (textMap text None)) "")).1.

Definition writeFileEvent (w : Writer) (att : Attachment) : Writer :=
  (WriteEvent w (mkEvent "file" (Marshal (fileMap att)) "")).1.

Definition writeMetaEvent (w : Writer) (meta : MetaResponse) : Writer :=
  (WriteEvent w (mkEvent "meta" (Marshal (metaMap meta)) "")).1.

Definition writeDataEvent (w : Writer) (metadata : string) : Writer :=
  (WriteEvent w (mkEvent "data" (Marshal {[ "metadata" := GString metadata ]}) "")).1.

Definition writeErrorEvent (w : Writer) (text : string) (allowRetry : bool)
    (errorType : option string) : Writer :=
  (WriteEvent w (mkEvent "error" (Marshal (errorMap text allowRetry errorType)) "")).1.

Definition writeDoneEvent (w : Writer) : Writer :=
  (WriteEvent w (mkEvent "done" "{}" "")).1.

(** One turn of [for event := range ch] in [handleQuery]. *)
Definition writeBotEvent (w : Writer) (event : BotEvent) : Writer :=
  match event with
  | EvPartialResponse e =>
      let w := match pr_Attachment e with
               | Some att => writeFileEvent w att
               | None => w
               end in
      if pr_IsSuggestedReply e then writeSuggestedReplyEvent w (pr_Text e)
      else if pr_IsReplaceResponse e then writeReplaceResponseEvent w (pr_Text e)
      else writeTextEvent w (pr_Text e) (pr_Index e)
  | EvErrorResponse e =>
      writeErrorEvent w (pr_Text (er_PartialResponse e)) (er_AllowRetry e)
                      (er_ErrorType e)
  | EvMetaResponse e => writeMetaEvent w e
  | EvDataResponse metadata => writeDataEvent w metadata
  end.

(** [func handleQuery(ctx, w, bot, req)] from the writer on: [events] is
    what the channel of the bot delivers until it is closed. *)
Definition handleQuery (sseWriter : Writer) (events : list BotEvent) : Writer :=
  writeDoneEvent (fold_left writeBotEvent events sseWriter).

End WithEncoder.
End server.

Import bufio sse json types client.

(** ** Vocabulary of the properties *)

(** Whether the byte [c] occurs in [s]. *)
Fixpoint hasByte (c : ascii) (s : string) : bool :=
  match s with
  | EmptyString => false
  | String c' rest => Ascii.eqb c' c || hasByte c rest
  end.

(** Whether the last byte of [s] is [c]. *)
Fixpoint endsWith (c : ascii) (s : string) : bool :=
  match s with
  | EmptyString => false
  | String c' EmptyString => Ascii.eqb c' c
  | String _ rest => endsWith c rest
  end.

(** A field value that fits on one line of the wire format: it holds no
    line feed and does not end in a carriage return. *)
Definition singleLine (s : string) : bool :=
  negb (hasByte LF s) && negb (endsWith CR s).

(** The value a line adds to the data of a record, if it is a [data]
    field line. *)
Definition dataValue (line : string) : option string :=
  if (line =? "")%string then None
  else if strings.HasPrefix line ":" then None
  else let '(field, value, _) := strings.Cut line ":"%char in
       if (field =? "data")%string
       then Some (strings.TrimPrefix value " "%char)
       else None.

Definition dataValues (lines : list string) : list string :=
  omap dataValue lines.

(** A fresh writer over an empty sink that accepts every write. *)
Definition newWriter (flusher : bool) : Writer :=
  mkWriter (mkResponseWriter "" None) flusher 0.

(** The lines [WriteEvent] writes for an event, and their text. *)
Definition wireLines (e : Event) : list string :=
  (if (ev_ID e =? "")%string then [] else ["id: " +:+ ev_ID e])
  ++ (if (ev_Event e =? "")%string then [] else ["event: " +:+ ev_Event e])
  ++ ["data: " +:+ ev_Data e; ""].

Definition wireText (e : Event) : string :=
  (if (ev_ID e =? "")%string then "" else "id: " +:+ ev_ID e +:+ nl)
  +:+ (if (ev_Event e =? "")%string then "" else "event: " +:+ ev_Event e +:+ nl)
  +:+ "data: " +:+ ev_Data e +:+ nl +:+ nl.

(** A delta that can initialize an entry: it carries id, type and
    function name. *)
Definition complete (delta : ToolCallDefinitionDelta) : bool :=
  match tcd_ID delta, tcd_Type delta, fcd_Name (tcd_Function delta) with
  | Some _, Some _, Some _ => true
  | _, _, _ => false
  end.

(** The entry a complete delta initializes, and an entry with a fragment
    appended to its arguments. *)
Definition entryOf (delta : ToolCallDefinitionDelta) : ToolCallDefinition :=
  mkToolCallDefinition (default "" (tcd_ID delta)) (default "" (tcd_Type delta))
    (mkFunctionCallDefinition (default "" (fcd_Name (tcd_Function delta)))
                              (fcd_Arguments (tcd_Function delta))).

Definition appendArgs (tc : ToolCallDefinition) (fragment : string)
  : ToolCallDefinition :=
  mkToolCallDefinition (tc_ID tc) (tc_Type tc)
    (mkFunctionCallDefinition (fc_Name (tc_Function tc))
                              (fc_Arguments (tc_Function tc) +:+ fragment)).

(** The argument fragments of the deltas at index [i], in arrival order,
    one after the other. *)
Definition fragments (i : Z) (deltas : list ToolCallDefinitionDelta) : string :=
  String.concat ""
    (fcd_Arguments ∘ tcd_Function
       <$> filter (λ d, tcd_Index d = i) deltas).

(** A message that [GetFinalResponse] counts: neither a meta response nor
    a suggested reply. *)
Definition counted (msg : PartialResponse) : bool :=
  negb (isMeta msg) && negb (pr_IsSuggestedReply msg).

(** [Reached hasTools r0 n r st]: the loop of [performQueryRequest],
    started on the reader [r0], has read [n] records without returning and
    is about to read from [r] in state [st]. *)
Inductive Reached `{W : World} (hasTools : bool) (r0 : Reader)
  : nat -> Reader -> LoopState -> Prop :=
| Reached_start : Reached hasTools r0 0 r0 initialState
| Reached_step n r st e r' st' ms ls :
    Reached hasTools r0 n r st ->
    ReadEvent r = (ReadOk e, r') ->
    handleEvent hasTools st e = Continue st' ms ls ->
    Reached hasTools r0 (S n) r' st'.

(** A line that [ReadEvent] passes over: a comment, or a field whose name
    it does not know. *)
Definition ignoredLine (line : string) : bool :=
  negb (line =? "")%string
  && (strings.HasPrefix line ":"
      || let '(field, _, _) := strings.Cut line ":"%char in
         negb (field =? "event")%string && negb (field =? "data")%string
         && negb (field =? "id")%string).

(** An event that the wire format can carry: each field fits on one line
    and the lines are short enough for the scanner. *)
Definition encodable (e : Event) : bool :=
  singleLine (ev_ID e) && singleLine (ev_Event e) && singleLine (ev_Data e)
  && negb (tooLong ("id: " +:+ ev_ID e))
  && negb (tooLong ("event: " +:+ ev_Event e))
  && negb (tooLong ("data: " +:+ ev_Data e)).

(** [WriteEvent] for each event in turn, stopping at the first failure. *)
Fixpoint WriteEvents (sw : Writer) (es : list Event) : Writer * bool :=
  match es with
  | [] => (sw, true)
  | e :: rest =>
      let '(sw', ok) := WriteEvent sw e in
      if ok then WriteEvents sw' rest else (sw', false)
  end.

(** The text [s] with a carriage return put before each line feed. *)
Fixpoint crlf (s : string) : string :=
  match s with
  | EmptyString => EmptyString
  | String c rest =>
      if Ascii.eqb c LF then String CR (String LF (crlf rest))
      else String c (crlf rest)
  end.

(** The texts [WriteEvent] hands to the sink for an event, one by write. *)
Definition wireWrites (e : Event) : list string :=
  (if (ev_ID e =? "")%string then [] else ["id: " +:+ ev_ID e +:+ nl])
  ++ (if (ev_Event e =? "")%string then [] else ["event: " +:+ ev_Event e +:+ nl])
  ++ ["data: " +:+ ev_Data e +:+ nl +:+ nl].

(** The tries number [i] to [i + k - 1] of a request with one payload. *)
Definition triesFrom (payload : Payload) (i : Z) (k : nat) : list (Payload * Z) :=
  (λ j, (payload, i + Z.of_nat j)) <$> seq 0 k.

(** The messages that try [i] of a request sends. *)
Definition sentOf `{W : World} (try : Payload * Z) : list PartialResponse :=
  default [] (sent <$> performQueryRequest try.1 try.2).

(** The event types for which [performQueryRequest] has a case that can
    send a message or end the request; [ping] and every other type are
    passed over. *)
Definition handledTypes : list string :=
  ["done"; "text"; "replace_response"; "file"; "suggested_reply"; "json";
   "meta"; "error"].

(** What a request sends and returns, without what it logs. *)
Definition answer (o : Outcome) : list PartialResponse * option error :=
  (sent o, result o).

(** A message that the first pass of a request with tools hands on as it
    is: it has no data, or its data has no [choices]. *)
Definition plain (msg : PartialResponse) : bool :=
  isNil (mapIndex (pr_Data msg) "choices").

(** The executable registered under [name]: the last one of that name. *)
Definition lookupExecutable (executables : list ToolExecutable) (name : string)
  : option ToolExecutable :=
  last (filter (λ exec, te_Name exec = name) executables).

(** The result for a tool call: none when no executable has its name,
    else the value of the callback or the text of its error. *)
Definition toolResult (executables : list ToolExecutable) (tc : ToolCallDefinition)
  : option ToolResultDefinition :=
  match lookupExecutable executables (fc_Name (tc_Function tc)) with
  | None => None
  | Some exec =>
      Some (mkToolResultDefinition "tool" (fc_Name (tc_Function tc)) (tc_ID tc)
              (match te_Execute exec (fc_Arguments (tc_Function tc)) with
               | inl content => content
               | inr errText => errText
               end))
  end.

(** The records [handleQuery] writes for one event of the bot. *)
Definition fileRecord `{E : server.Encoder} (att : Attachment) : Event :=
  mkEvent "file" (server.Marshal (server.fileMap att)) "".

Definition messageRecord `{E : server.Encoder} (m : PartialResponse) : Event :=
  if pr_IsSuggestedReply m then
    mkEvent "suggested_reply" (server.Marshal (server.textMap (pr_Text m) None)) ""
  else if pr_IsReplaceResponse m then
    mkEvent "replace_response" (server.Marshal (server.textMap (pr_Text m) None)) ""
  else
    mkEvent "text" (server.Marshal (server.textMap (pr_Text m) (pr_Index m))) "".

Definition errorRecord `{E : server.Encoder} (e : server.ErrorResponse) : Event :=
  mkEvent "error"
    (server.Marshal (server.errorMap (pr_Text (server.er_PartialResponse e))
                                     (server.er_AllowRetry e)
                                     (server.er_ErrorType e))) "".

Definition written `{E : server.Encoder} (event : server.BotEvent) : list Event :=
  match event with
  | server.EvPartialResponse m =>
      match pr_Attachment m with
      | Some att => [fileRecord att]
      | None => []
      end ++ [messageRecord m]
  | server.EvErrorResponse e => [errorRecord e]
  | server.EvMetaResponse e =>
      [mkEvent "meta" (server.Marshal (server.metaMap e)) ""]
  | server.EvDataResponse metadata =>
      [mkEvent "data"
               (server.Marshal {[ "metadata" := server.GString metadata ]}) ""]
  end.

(** The index a message is written with: only a [text] record has one. *)
Definition writtenIndex (m : PartialResponse) : option Z :=
  if pr_IsSuggestedReply m || pr_IsReplaceResponse m then None else pr_Index m.

(** The JSON library of the client reads back what the one of the server
    wrote for an attachment, and the record fits the wire format. *)
Definition fileReadsBack `{W : World} `{E : server.Encoder} (att : Attachment)
    : Prop :=
  encodable (fileRecord att) = true
  /\ parseIndex (ev_Data (fileRecord att)) = None
  /\ exists dataMap,
       Unmarshal (ev_Data (fileRecord att)) = Some dataMap
       /\ asString (mapIndex dataMap "url") = Some (att_URL att)
       /\ asString (mapIndex dataMap "content_type") = Some (att_ContentType att)
       /\ asString (mapIndex dataMap "name") = Some (att_Name att)
       /\ asString (mapIndex dataMap "inline_ref") = att_InlineRef att.

(** The same for a message. *)
Definition readsBack `{W : World} `{E : server.Encoder} (m : PartialResponse)
    : Prop :=
  encodable (messageRecord m) = true
  /\ getJSONStringField (ev_Data (messageRecord m)) "text" = inl (pr_Text m)
  /\ parseIndex (ev_Data (messageRecord m)) = writtenIndex m
  /\ match pr_Attachment m with
     | Some att => fileReadsBack att
     | None => True
     end.

(** The same for an error. *)
Definition errorReadsBack `{W : World} `{E : server.Encoder}
    (e : server.ErrorResponse) : Prop :=
  encodable (errorRecord e) = true
  /\ exists dataMap,
       Unmarshal (ev_Data (errorRecord e)) = Some dataMap
       /\ asBool (mapIndex dataMap "allow_retry") = Some (server.er_AllowRetry e).

(** The messages the client makes of a message of the bot: the
    attachment comes as a message of its own, and of the other fields
    the text, the two flags and the index of a [text] record arrive. *)
Definition asReceived (m : PartialResponse) : list PartialResponse :=
  match pr_Attachment m with
  | Some att =>
      [mkPartialResponse "" None None None None false false (Some att) [] None]
  | None => []
  end
  ++ [mkPartialResponse (pr_Text m) None None None None
        (pr_IsSuggestedReply m)
        (negb (pr_IsSuggestedReply m) && pr_IsReplaceResponse m)
        None [] (writtenIndex m)].

(** The body of the response a handler has written. *)
Definition responseBody (sw : Writer) : Source :=
  mkSource (rw_body (w_w sw)) None.

(** ** Concrete surroundings for examples *)

Module sample.

(** A double quote. *)
Definition dq : string := String "034"%char EmptyString.

Definition quoted (s : string) : string := dq +:+ s +:+ dq.

(** The JSON text of an object with one string member. *)
Definition object1 (key value : string) : string :=
  "{" +:+ quoted key +:+ ": " +:+ quoted value +:+ "}".

Definition errorNoRetry : string :=
  "{" +:+ quoted "allow_retry" +:+ ": false, " +:+ quoted "text" +:+ ": "
      +:+ quoted "Bad request" +:+ "}".

(** The text of one event on the wire. *)
Definition wire (type_ data : string) : string :=
  "event: " +:+ type_ +:+ nl +:+ "data: " +:+ data +:+ nl +:+ nl.

(** A member of a JSON object, and the texts of the records of a
    streamed tool call. *)
Definition member (key value : string) : string := quoted key +:+ ": " +:+ value.

Definition choicesText (delta : string) : string :=
  "{" +:+ member "choices"
            ("[{" +:+ member "delta"
                        ("{" +:+ member "tool_calls" ("[" +:+ delta +:+ "]") +:+ "}")
                  +:+ ", " +:+ member "finish_reason" "null" +:+ "}]")
      +:+ "}".

(** The first fragment of the arguments: an opening brace, the member
    name [x] in quotes and a colon; and the same with the quotes escaped
    as in a JSON string. *)
Definition fragment1 : string := "{" +:+ quoted "x" +:+ ":".

Definition fragment1Escaped : string :=
  "{\" +:+ dq +:+ "x\" +:+ dq +:+ ":".

Definition deltaText0 : string :=
  choicesText
    ("{" +:+ member "index" "0" +:+ ", " +:+ member "id" (quoted "call_1") +:+ ", "
         +:+ member "type" (quoted "function") +:+ ", "
         +:+ member "function"
               ("{" +:+ member "name" (quoted "get_x") +:+ ", "
                    +:+ member "arguments" (quoted "") +:+ "}")
         +:+ "}").

Definition deltaText1 : string :=
  choicesText
    ("{" +:+ member "index" "0" +:+ ", "
         +:+ member "function"
               ("{" +:+ member "arguments" (quoted fragment1Escaped) +:+ "}")
         +:+ "}").

Definition deltaText2 : string :=
  choicesText
    ("{" +:+ member "index" "0" +:+ ", "
         +:+ member "function" ("{" +:+ member "arguments" (quoted "1}") +:+ "}")
         +:+ "}").

Definition finishText : string :=
  "{" +:+ member "choices"
            ("[{" +:+ member "finish_reason" (quoted "tool_calls") +:+ "}]")
      +:+ "}".

Definition choicesValue (delta : Object) : Map :=
  Some {[ "choices" :=
            JArray [JObject {[ "delta" :=
                                 JObject {[ "tool_calls" := JArray [JObject delta] ]};
                               "finish_reason" := JNull ]}] ]}.

(** The first pass of a request with tools: a call of [get_x] whose
    arguments arrive in three deltas, then the finish signal. *)
Definition toolStream : string :=
  wire "json" deltaText0 +:+ wire "json" deltaText1 +:+ wire "json" deltaText2
  +:+ wire "json" finishText +:+ wire "done" "{}".

(** The second pass: the answer as text. *)
Definition answerStream : string :=
  wire "text" (object1 "text" "It is 1") +:+ wire "done" "{}".

Definition fileData : string :=
  "{" +:+ quoted "url" +:+ ": " +:+ quoted "https://example.com/a.png" +:+ ", "
      +:+ quoted "content_type" +:+ ": " +:+ quoted "image/png" +:+ ", "
      +:+ quoted "name" +:+ ": " +:+ quoted "a.png" +:+ "}".

(** What [json.Unmarshal] gives on the payloads of the examples; every
    other text used there is not JSON. *)
Definition unmarshalTable : list (string * Map) :=
  [ ("{}", Some ∅);
    (object1 "text" "Old", Some {[ "text" := JString "Old" ]});
    (object1 "text" "New", Some {[ "text" := JString "New" ]});
    (object1 "text" "a", Some {[ "text" := JString "a" ]});
    (object1 "content_type" "text/plain",
       Some {[ "content_type" := JString "text/plain" ]});
    (errorNoRetry,
       Some {[ "allow_retry" := JBool false; "text" := JString "Bad request" ]});
    (fileData,
       Some {[ "url" := JString "https://example.com/a.png";
               "content_type" := JString "image/png";
               "name" := JString "a.png" ]});
    (object1 "text" "Hello", Some {[ "text" := JString "Hello" ]});
    (object1 "text" " world", Some {[ "text" := JString " world" ]});
    (object1 "text" "!", Some {[ "text" := JString "!" ]});
    (object1 "text" "It is 1", Some {[ "text" := JString "It is 1" ]});
    (deltaText0,
       choicesValue
         {[ "index" := JNumber (S754_zero false);
            "id" := JString "call_1";
            "type" := JString "function";
            "function" := JObject {[ "name" := JString "get_x";
                                     "arguments" := JString "" ]} ]});
    (deltaText1,
       choicesValue
         {[ "index" := JNumber (S754_zero false);
            "function" := JObject {[ "arguments" := JString fragment1 ]} ]});
    (deltaText2,
       choicesValue
         {[ "index" := JNumber (S754_zero false);
            "function" := JObject {[ "arguments" := JString "1}" ]} ]});
    (finishText,
       Some {[ "choices" :=
                 JArray [JObject {[ "finish_reason" := JString "tool_calls" ]}] ]}) ].

Fixpoint assoc (table : list (string * Map)) (data : string) : option Map :=
  match table with
  | [] => None
  | (k, v) :: rest => if (k =? data)%string then Some v else assoc rest data
  end.

Definition unmarshal (data : string) : option Map := assoc unmarshalTable data.

(** Decoding a delta member by member. *)
Definition toDelta (raw : Value) : option ToolCallDefinitionDelta :=
  match raw with
  | JObject m =>
      let fn := default ∅ (asObject (m !! "function")) in
      Some (mkToolCallDefinitionDelta
              (default 0 (toInt <$> asFloat64 (m !! "index")))
              (asString (m !! "id"))
              (asString (m !! "type"))
              (mkFunctionCallDefinitionDelta
                 (asString (fn !! "name"))
                 (default "" (asString (fn !! "arguments")))))
  | _ => None
  end.

(** A world in which try [i] of every request meets [responses i], the
    context is never cancelled, and [range] keeps the order of the
    keys. *)
Definition world (responses : Z -> Transport) : World :=
  mkWorld unmarshal toDelta (λ _ i, responses i) (λ _ _, false)
          (λ l, l) (λ l, reflexivity l).


(** A world whose server answers a request without tool calls with
    [toolStream] and one with tool calls with [answerStream]. *)
Definition toolWorld : World :=
  mkWorld unmarshal toDelta
    (λ payload _,
       match pl_tool_calls payload with
       | [] => Responded (mkSource toolStream None)
       | _ :: _ => Responded (mkSource answerStream None)
       end)
    (λ _ _, false) (λ l, l) (λ l, reflexivity l).

Definition getX : ToolDefinition :=
  mkToolDefinition "function"
    (mkFunctionDefinition "get_x" "Get x"
       (mkParametersDefinition "object" (Some ∅) [])).

Definition getXExecutable : ToolExecutable :=
  mkToolExecutable "get_x" (λ args, inl ("x of " +:+ args)).

Definition respond (body : string) : Z -> Transport :=
  λ _, Responded (mkSource body None).

Definition options (numTries : Z) : StreamRequestOptions :=
  mkStreamRequestOptions "" [] [] numTries 0 "".

End sample.

(** ** Further surroundings for examples *)

Module scenario.
Import sample.

(** A stream whose second record is not JSON. *)
Definition garbled : string :=
  wire "text" (object1 "text" "Hello") +:+ wire "text" "not json"
  +:+ wire "done" "{}".

(** A body whose connection is reset in the middle of the second
    record. *)
Definition broken : Source :=
  mkSource (wire "text" (object1 "text" "Hello")
            +:+ "event: text" +:+ nl +:+ "data: lost")
           (Some "connection reset").

(** The first try meets the broken body, every later one the answer. *)
Definition flaky (i : Z) : Transport :=
  if i =? 0 then Responded broken else Responded (mkSource answerStream None).

(** No try reaches the server. *)
Definition unreachable (i : Z) : Transport := DoFailed "connection refused".

(** A stream with a [ping] between two records. *)
Definition pinged : string :=
  wire "text" (object1 "text" "a") +:+ wire "ping" "{}" +:+ wire "done" "{}".

(** The stream of a cost request that is granted. *)
Definition granted : string :=
  wire "result" (object1 "status" "success").

(** [json.Unmarshal] that also knows the data of [granted]. *)
Definition unmarshal (data : string) : option Map :=
  if (data =? object1 "status" "success")%string
  then Some (Some {[ "status" := JString "success" ]})
  else sample.unmarshal data.

Definition world (responses : Z -> Transport) : World :=
  mkWorld unmarshal toDelta (λ _ i, responses i) (λ _ _, false)
          (λ l, l) (λ l, reflexivity l).

(** [json.Marshal] on the maps of the examples: an error with its text,
    a file without inline reference, or a text. *)
Definition marshal (m : gmap string server.GoValue) : string :=
  match m !! "allow_retry", m !! "url", m !! "content_type", m !! "name",
        m !! "text" with
  | Some (server.GBool b), _, _, _, Some (server.GString text) =>
      "{" +:+ quoted "allow_retry" +:+ ": "
          +:+ (if b then "true" else "false") +:+ ", "
          +:+ quoted "text" +:+ ": " +:+ quoted text +:+ "}"
  | None, Some (server.GString url), Some (server.GString contentType),
    Some (server.GString name), _ =>
      "{" +:+ quoted "url" +:+ ": " +:+ quoted url +:+ ", "
          +:+ quoted "content_type" +:+ ": " +:+ quoted contentType +:+ ", "
          +:+ quoted "name" +:+ ": " +:+ quoted name +:+ "}"
  | None, None, _, _, Some (server.GString text) => object1 "text" text
  | _, _, _, _, _ => "{}"
  end.

Definition encoder : server.Encoder := server.mkEncoder marshal.

Definition picture : Attachment :=
  mkAttachment "https://example.com/a.png" "image/png" "a.png" None.

(** The messages of a bot: a text, a text with a picture, a suggested
    reply and a replacement. *)
Definition messages : list PartialResponse :=
  [ textResponse "Hello" None;
    mkPartialResponse " world" None None None None false false
                      (Some picture) [] None;
    mkPartialResponse "a" None None None None true false None [] None;
    mkPartialResponse "New" None None None None false true None [] None ].

Definition refusal : server.ErrorResponse :=
  server.mkErrorResponse (textResponse "Bad request" None) false None.

(** A request with a tool, with and without its executable. *)
Definition toolOptions (executables : list ToolExecutable) : StreamRequestOptions :=
  mkStreamRequestOptions "" [getX] executables 2 0 "".

End scenario.

(** ** Properties of the event codec *)

Section Codec.

(** *** Strings *)

Lemma string_app_cons x (a b : string) : String x a +:+ b = String x (a +:+ b).
Proof. reflexivity. Qed.

Lemma string_app_nil_l (a : string) : "" +:+ a = a.
Proof. reflexivity. Qed.

Lemma string_app_assoc (a b c : string) : (a +:+ b) +:+ c = a +:+ (b +:+ c).
Proof.
  induction a as [|x a IH]; [reflexivity |].
  rewrite !string_app_cons. now rewrite IH.
Qed.

Lemma string_app_nil_r (a : string) : a +:+ "" = a.
Proof.
  induction a as [|x a IH]; [reflexivity |].
  rewrite string_app_cons. now rewrite IH.
Qed.

Lemma hasByte_app c a b : hasByte c (a +:+ b) = hasByte c a || hasByte c b.
Proof.
  induction a as [|x a IH]; [reflexivity |].
  rewrite string_app_cons. cbn [hasByte]. now rewrite IH, orb_assoc.
Qed.

Lemma endsWith_cons c x s :
  s <> "" -> endsWith c (String x s) = endsWith c s.
Proof. destruct s; [congruence | reflexivity]. Qed.

Lemma endsWith_app c a b :
  b <> "" -> endsWith c (a +:+ b) = endsWith c b.
Proof.
  intros Hb. induction a as [|x a IH]; [reflexivity |].
  rewrite string_app_cons, <- IH. apply endsWith_cons.
  destruct a; [assumption | rewrite string_app_cons; congruence].
Qed.

Lemma dropCR_keeps s : endsWith CR s = false -> dropCR s = s.
Proof.
  induction s as [|x s IH]; [reflexivity |].
  destruct s as [|y s].
  - cbn. intros ->. reflexivity.
  - intros H. change (dropCR (String x (String y s)))
      with (String x (dropCR (String y s))).
    rewrite IH; [reflexivity |]. exact H.
Qed.

(** *** The line scanner *)

(** A text with no line feed in it, followed by a line feed, is one
    token. *)
Lemma scanLines_line (l rest acc : string) :
  hasByte LF l = false ->
  tooLong (acc +:+ l) = false ->
  scanLines (l +:+ String LF rest) acc
  = let '(toks, err) := scanLines rest "" in (dropCR (acc +:+ l) :: toks, err).
Proof.
  revert acc. induction l as [|x l IH]; intros acc Hlf Hlen.
  - rewrite string_app_nil_l. cbn [scanLines].
    rewrite string_app_nil_r in *.
    change (Ascii.eqb LF LF) with true. cbv iota. rewrite Hlen. reflexivity.
  - cbn [hasByte] in Hlf. apply orb_false_iff in Hlf as [Hx Hl].
    rewrite string_app_cons. cbn [scanLines]. rewrite Hx.
    assert (E : (acc +:+ String x "") +:+ l = acc +:+ String x l)
      by now rewrite string_app_assoc.
    rewrite IH; [now rewrite E | assumption | now rewrite E].
Qed.

(** Two line feeds after any input add one or two blank lines to the
    tokens, or nothing when the scanner stopped before. *)
Lemma scanLines_blank_line (s acc : string) :
  exists k,
    scanLines (s +:+ nl +:+ nl) acc
    = let '(toks, err) := scanLines s acc in
      (toks ++ (if err is None then replicate (S k) "" else []), err).
Proof.
  revert acc. induction s as [|x s IH]; intros acc.
  - rewrite string_app_nil_l.
    change (nl +:+ nl) with (String LF (String LF "")).
    cbn [scanLines]. change (Ascii.eqb LF LF) with true. cbv iota.
    destruct (acc =? "")%string eqn:E.
    + apply String.eqb_eq in E. subst acc. exists 1%nat. reflexivity.
    + destruct (tooLong acc); exists 0%nat; reflexivity.
  - rewrite string_app_cons. cbn [scanLines]. destruct (Ascii.eqb x LF).
    + destruct (tooLong acc); [exists 0%nat; reflexivity |].
      destruct (IH "") as [k Hk]. exists k.
      rewrite Hk. destruct (scanLines s "") as [toks [e|]]; reflexivity.
    + apply IH.
Qed.

(** *** One call of [ReadEvent] *)

(** Case analysis on what [readLoop] does with its first line. *)
Ltac line_cases line :=
  destruct (line =? "")%string eqn:Hblank;
  [ | destruct (strings.HasPrefix line ":") eqn:Hcomment;
      [ | destruct (strings.Cut line ":"%char) as [[field value] found] eqn:Hcut;
          destruct (field =? "event")%string eqn:Hevent;
          [ | destruct (field =? "data")%string eqn:Hdata;
              [ | destruct (field =? "id")%string eqn:Hid ] ] ] ].

Lemma readLoop_data lines : forall event dataLines hasData,
  match readLoop lines event dataLines hasData with
  | Returned e rest =>
      exists consumed,
        lines = consumed ++ rest /\
        ev_Data e = strings.Join (dataLines ++ dataValues consumed) (String LF "")
  | ScanStopped _ dataLines' _ => dataLines' = dataLines ++ dataValues lines
  end.
Proof.
  assert (step : forall line rest event dataLines hasData extra,
    dataValue line = extra ->
    match readLoop rest event (dataLines ++ option_list extra) hasData with
    | Returned e rest' =>
        exists consumed,
          rest = consumed ++ rest' /\
          ev_Data e = strings.Join ((dataLines ++ option_list extra)
                                    ++ dataValues consumed) (String LF "")
    | ScanStopped _ dataLines' _ =>
        dataLines' = (dataLines ++ option_list extra) ++ dataValues rest
    end ->
    match readLoop rest event (dataLines ++ option_list extra) hasData with
    | Returned e rest' =>
        exists consumed,
          line :: rest = consumed ++ rest' /\
          ev_Data e = strings.Join (dataLines ++ dataValues consumed) (String LF "")
    | ScanStopped _ dataLines' _ =>
        dataLines' = dataLines ++ dataValues (line :: rest)
    end).
  { intros line rest event dataLines hasData extra Hv H.
    destruct (readLoop rest event (dataLines ++ option_list extra) hasData).
    - destruct H as (consumed & -> & Hd). exists (line :: consumed).
      split; [reflexivity |]. rewrite Hd. unfold dataValues.
      cbn [omap list_omap]. rewrite Hv.
      destruct extra; cbn; now rewrite <- app_assoc.
    - rewrite H. unfold dataValues. cbn [omap list_omap]. rewrite Hv.
      destruct extra; cbn; now rewrite <- app_assoc. }
  induction lines as [|line rest IH]; intros event dataLines hasData.
  - cbn. now rewrite app_nil_r.
  - cbn [readLoop].
    assert (Hnone : forall ev hd,
      dataValue line = None ->
      match readLoop rest ev dataLines hd with
      | Returned e rest' =>
          exists consumed,
            line :: rest = consumed ++ rest' /\
            ev_Data e = strings.Join (dataLines ++ dataValues consumed)
                                     (String LF "")
      | ScanStopped _ dataLines' _ =>
          dataLines' = dataLines ++ dataValues (line :: rest)
      end).
    { intros ev hd Hv.
      pose proof (step line rest ev dataLines hd None Hv) as S.
      cbn [option_list] in S. rewrite app_nil_r in S. apply S. apply IH. }
    unfold dataValue in Hnone.
    line_cases line.
    + destruct (pending hasData event).
      * exists [line]. split; [reflexivity |].
        unfold dataValues, dataValue. cbn [omap list_omap].
        rewrite Hblank. cbn. now rewrite app_nil_r.
      * apply Hnone. reflexivity.
    + apply Hnone. reflexivity.
    + apply Hnone. rewrite ?Hcut.
      apply String.eqb_eq in Hevent. subst field. reflexivity.
    + pose proof (step line rest event dataLines true
                    (Some (strings.TrimPrefix value " "%char))) as S.
      cbn [option_list] in S. apply S; [| apply IH].
      unfold dataValue. now rewrite ?Hblank, ?Hcomment, ?Hcut, ?Hdata.
    + apply Hnone. now rewrite ?Hcut, ?Hdata.
    + apply Hnone. now rewrite ?Hcut, ?Hdata.
Qed.

(** A blank line more at the end of the lines. *)
Lemma readLoop_snoc_blank lines : forall event dataLines hasData,
  readLoop (lines ++ [""]) event dataLines hasData
  = match readLoop lines event dataLines hasData with
    | Returned e rest => Returned e (rest ++ [""])
    | ScanStopped event' dataLines' hasData' =>
        if pending hasData' event'
        then Returned (withData event' dataLines') []
        else ScanStopped event' dataLines' hasData'
    end.
Proof.
  induction lines as [|line rest IH]; intros event dataLines hasData.
  - cbn. destruct (pending hasData event); reflexivity.
  - cbn [app readLoop]. line_cases line; try apply IH.
    destruct (pending hasData event); [reflexivity | apply IH].
Qed.

Lemma readLoop_rest_shorter lines : forall event dataLines hasData e rest,
  readLoop lines event dataLines hasData = Returned e rest ->
  (List.length rest < List.length lines)%nat.
Proof.
  induction lines as [|line rest' IH]; intros event dataLines hasData e rest.
  - discriminate.
  - cbn [readLoop List.length].
    line_cases line;
      try (intros H; apply IH in H; lia).
    destruct (pending hasData event).
    + intros [= _ <-]. lia.
    + intros H; apply IH in H; lia.
Qed.

(** A call that returns an event leaves fewer lines than it found. *)
Lemma ReadEvent_shrinks r e r' :
  ReadEvent r = (ReadOk e, r') ->
  (List.length (tokens r') < List.length (tokens r))%nat.
Proof.
  unfold ReadEvent.
  destruct (readLoop (tokens r) zeroEvent [] false) as [e0 rest|ev dl hd] eqn:E.
  - intros [= <- <-]. cbn. eapply readLoop_rest_shorter, E.
  - destruct (scan_err r); [discriminate |].
    destruct (pending hd ev) eqn:P; [| discriminate].
    intros [= <- <-]. cbn.
    destruct (tokens r) as [|l ls]; [| cbn; lia].
    cbn in E. injection E as <- <- <-. discriminate.
Qed.

(** *** Reading to the end *)

Lemma readAll_more fuel : forall r res,
  readAll fuel r = Some res -> readAll (S fuel) r = Some res.
Proof.
  induction fuel as [|fuel IH]; intros r res; [discriminate |].
  intros H. cbn [readAll] in H |- *.
  destruct (ReadEvent r) as [[e| |err] r']; try exact H.
  destruct (readAll fuel r') as [[es end_]|] eqn:E; [| discriminate].
  apply IH in E. cbn [readAll] in E. rewrite E. exact H.
Qed.

Lemma readAll_total fuel : forall r,
  (List.length (tokens r) < fuel)%nat -> is_Some (readAll fuel r).
Proof.
  induction fuel as [|fuel IH]; intros r Hlen; [lia |].
  cbn [readAll]. destruct (ReadEvent r) as [[e| |err] r'] eqn:E; try by eexists.
  apply ReadEvent_shrinks in E.
  destruct (IH r') as [[es end_] ->]; [lia |]. by eexists.
Qed.

Lemma ReadAll_total r : is_Some (ReadAll r).
Proof. apply readAll_total. lia. Qed.

Lemma readAll_snoc_blank fuel : forall lines res,
  readAll fuel (mkScanner lines None) = Some res ->
  readAll (S fuel) (mkScanner (lines ++ [""]) None) = Some res.
Proof.
  induction fuel as [|fuel IH]; intros lines res; [discriminate |].
  intros H. cbn [readAll] in H. unfold ReadEvent in H. cbn [tokens scan_err] in H.
  change (readAll (S (S fuel)) (mkScanner (lines ++ [""]) None))
    with (match ReadEvent (mkScanner (lines ++ [""]) None) with
          | (ReadOk e, r') =>
              match readAll (S fuel) r' with
              | Some (es, end_) => Some (e :: es, end_)
              | None => None
              end
          | (ReadEOF, _) => Some ([], None)
          | (ReadErr err, _) => Some ([], Some err)
          end).
  unfold ReadEvent. cbn [tokens scan_err]. rewrite readLoop_snoc_blank.
  destruct (readLoop lines zeroEvent [] false) as [e rest|ev dl hd];
    cbv beta iota.
  - destruct (readAll fuel (mkScanner rest None)) as [[es end_]|] eqn:E;
      [| discriminate].
    apply IH in E. rewrite E. exact H.
  - destruct (pending hd ev) eqn:P; cbv beta iota; rewrite ?P; [| exact H].
    destruct (readAll fuel (mkScanner [] None)) as [[es end_]|] eqn:E;
      [| discriminate].
    apply readAll_more in E. rewrite E. exact H.
Qed.

Lemma ReadAll_blank_lines (k : nat) : forall lines res,
  ReadAll (mkScanner lines None) = Some res ->
  ReadAll (mkScanner (lines ++ replicate k "") None) = Some res.
Proof.
  induction k as [|k IH]; intros lines res H.
  - cbn. now rewrite app_nil_r.
  - replace (lines ++ replicate (S k) "") with ((lines ++ [""]) ++ replicate k "")
      by (rewrite <- app_assoc; reflexivity).
    apply IH. unfold ReadAll in *. cbn [tokens] in *.
    rewrite length_app. cbn [List.length].
    replace (S (List.length lines + 1)) with (S (S (List.length lines))) by lia.
    now apply readAll_snoc_blank.
Qed.

(** *** Writing an event *)

Lemma WriteEvent_text (e : Event) (flusher : bool) :
  WriteEvent (newWriter flusher) e
  = (mkWriter (mkResponseWriter (wireText e) None) flusher
              (if flusher then 1%nat else 0%nat), true).
Proof.
  unfold WriteEvent, newWriter, wireText, Fprintf. cbn [w_w rw_body rw_writes_left
    w_flusher w_flushes].
  destruct (ev_ID e =? "")%string, (ev_Event e =? "")%string;
    cbn [negb rw_body rw_writes_left];
    rewrite ?string_app_nil_l, ?string_app_assoc; reflexivity.
Qed.

Lemma scanLines_field (name value rest : string) :
  singleLine value = true ->
  hasByte LF name = false ->
  endsWith CR name = false ->
  tooLong (name +:+ value) = false ->
  scanLines (name +:+ value +:+ nl +:+ rest) ""
  = let '(toks, err) := scanLines rest "" in ((name +:+ value) :: toks, err).
Proof.
  intros Hv Hn Hcrn Hlen. unfold singleLine in Hv.
  apply andb_true_iff in Hv as [Hlf Hcr].
  apply negb_true_iff in Hlf, Hcr.
  replace (name +:+ value +:+ nl +:+ rest)
    with ((name +:+ value) +:+ String LF rest)
    by (unfold nl; rewrite !string_app_assoc; reflexivity).
  rewrite scanLines_line.
  - rewrite string_app_nil_l, dropCR_keeps; [reflexivity |].
    destruct value as [|c v].
    + now rewrite string_app_nil_r.
    + now rewrite endsWith_app.
  - now rewrite hasByte_app, Hn, Hlf.
  - now rewrite string_app_nil_l.
Qed.

Lemma scanLines_wire (e : Event) :
  singleLine (ev_ID e) = true ->
  singleLine (ev_Event e) = true ->
  singleLine (ev_Data e) = true ->
  tooLong ("id: " +:+ ev_ID e) = false ->
  tooLong ("event: " +:+ ev_Event e) = false ->
  tooLong ("data: " +:+ ev_Data e) = false ->
  scanLines (wireText e) "" = (wireLines e, None).
Proof.
  intros Hi He Hd Li Le Ld. unfold wireText, wireLines.
  assert (Hdata : scanLines ("data: " +:+ ev_Data e +:+ nl +:+ nl) ""
                  = (["data: " +:+ ev_Data e; ""], None)).
  { rewrite scanLines_field by (assumption || reflexivity). reflexivity. }
  assert (Hevent : scanLines
              ((if (ev_Event e =? "")%string then ""
                else "event: " +:+ ev_Event e +:+ nl)
               +:+ "data: " +:+ ev_Data e +:+ nl +:+ nl) ""
            = ((if (ev_Event e =? "")%string then []
                else ["event: " +:+ ev_Event e])
               ++ ["data: " +:+ ev_Data e; ""], None)).
  { destruct (ev_Event e =? "")%string.
    - rewrite string_app_nil_l. exact Hdata.
    - rewrite !string_app_assoc.
      rewrite scanLines_field by (assumption || reflexivity).
      now rewrite Hdata. }
  set (tail := (if (ev_Event e =? "")%string then ""
                else "event: " +:+ ev_Event e +:+ nl)
               +:+ "data: " +:+ ev_Data e +:+ nl +:+ nl) in *.
  destruct (ev_ID e =? "")%string.
  - rewrite string_app_nil_l. exact Hevent.
  - replace (("id: " +:+ ev_ID e +:+ nl) +:+ tail)
      with ("id: " +:+ ev_ID e +:+ nl +:+ tail)
      by (rewrite !string_app_assoc; reflexivity).
    rewrite scanLines_field by (assumption || reflexivity).
    now rewrite Hevent.
Qed.

Lemma ReadAll_wireLines (e : Event) :
  ReadAll (mkScanner (wireLines e) None) = Some ([e], None).
Proof.
  destruct e as [type_ data id]. unfold wireLines. cbn [ev_ID ev_Event ev_Data].
  destruct (id =? "")%string eqn:Hid, (type_ =? "")%string eqn:Htype;
    rewrite ?String.eqb_eq in *; subst; reflexivity.
Qed.

(** C3 (as amended): for every event whose id, type and data each fit
    on one line (no line feed inside, no carriage return at the end) and
    are short enough for the scanner, writing it with [WriteEvent] to a
    fresh writer succeeds, and reading the bytes written back with
    [ReadEvent] until the end gives exactly that one event, then
    [io.EOF].  Empty data is included. *)
Theorem C3_round_trip_single_line (e : Event) (flusher : bool) :
  singleLine (ev_ID e) = true ->
  singleLine (ev_Event e) = true ->
  singleLine (ev_Data e) = true ->
  tooLong ("id: " +:+ ev_ID e) = false ->
  tooLong ("event: " +:+ ev_Event e) = false ->
  tooLong ("data: " +:+ ev_Data e) = false ->
  exists sw',
    WriteEvent (newWriter flusher) e = (sw', true) /\
    ReadAll (NewReader (mkSource (rw_body (w_w sw')) None)) = Some ([e], None).
Proof.
  intros Hi He Hd Li Le Ld. eexists. split; [apply WriteEvent_text |].
  cbn [w_w rw_body]. unfold NewReader, NewScanner. cbn [src_data src_err].
  rewrite scanLines_wire by assumption. apply ReadAll_wireLines.
Qed.

(** The round trip at an event with id, type and data, and at one with
    empty data only. *)
Lemma C3_round_trip_witness :
  (exists sw',
     WriteEvent (newWriter true) (mkEvent "update" "Update message" "123")
     = (sw', true) /\
     ReadAll (NewReader (mkSource (rw_body (w_w sw')) None))
     = Some ([mkEvent "update" "Update message" "123"], None))
  /\ (exists sw',
     WriteEvent (newWriter false) (mkEvent "" "" "") = (sw', true) /\
     ReadAll (NewReader (mkSource (rw_body (w_w sw')) None))
     = Some ([mkEvent "" "" ""], None)).
Proof.
  split.
  - apply (C3_round_trip_single_line (mkEvent "update" "Update message" "123") true);
      vm_compute; reflexivity.
  - apply (C3_round_trip_single_line (mkEvent "" "" "") false);
      vm_compute; reflexivity.
Defined.

(** C3 as stated fails: data with a line feed in it is written as it
    is, and read back as the first line only. *)
Lemma C3_round_trip_counterexample :
  let e := mkEvent "" ("a" +:+ nl +:+ "b") "" in
  exists sw',
    WriteEvent (newWriter false) e = (sw', true) /\
    ReadAll (NewReader (mkSource (rw_body (w_w sw')) None))
    = Some ([mkEvent "" "a" ""], None) /\
    ReadAll (NewReader (mkSource (rw_body (w_w sw')) None)) <> Some ([e], None).
Proof.
  eexists. split; [vm_compute; reflexivity |].
  split; [vm_compute; reflexivity | vm_compute; discriminate].
Qed.

(** C7: the data of every event [ReadEvent] returns is the values of
    the [data] lines the call read, in their order, joined by line
    feeds; and the stream of the example holds exactly one event, of
    type [message] with data [Hello, world!]. *)
Theorem C7_data_lines_joined :
  (forall r e r',
     ReadEvent r = (ReadOk e, r') ->
     exists consumed,
       tokens r = consumed ++ tokens r' /\
       ev_Data e = strings.Join (dataValues consumed) (String LF ""))
  /\ ReadAll (NewReader (mkSource ("event: message" +:+ nl
                                   +:+ "data: Hello, world!" +:+ nl +:+ nl) None))
     = Some ([mkEvent "message" "Hello, world!" ""], None).
Proof.
  split; [| vm_compute; reflexivity].
  intros r e r'. unfold ReadEvent.
  pose proof (readLoop_data (tokens r) zeroEvent [] false) as H.
  destruct (readLoop (tokens r) zeroEvent [] false) as [e0 rest|ev dl hd].
  - intros [= <- <-]. exact H.
  - destruct (scan_err r); [discriminate |].
    destruct (pending hd ev); [| discriminate].
    intros [= <- <-]. exists (tokens r). cbn [tokens ev_Data withData].
    rewrite app_nil_r. split; [reflexivity |]. now rewrite H.
Qed.

(** Three [data] lines between other lines give three values joined by
    two line feeds. *)
Lemma C7_data_lines_joined_witness :
  exists consumed,
    ["event: multiline"; "data: Line 1"; ": note"; "data: Line 2";
     "data: Line 3"; ""; "data: next"]
    = consumed ++ ["data: next"] /\
    ("Line 1" +:+ nl +:+ "Line 2" +:+ nl +:+ "Line 3")
    = strings.Join (dataValues consumed) (String LF "").
Proof.
  apply (proj1 C7_data_lines_joined
           (mkScanner ["event: multiline"; "data: Line 1"; ": note";
                       "data: Line 2"; "data: Line 3"; ""; "data: next"] None)
           (mkEvent "multiline" ("Line 1" +:+ nl +:+ "Line 2" +:+ nl +:+ "Line 3") "")
           (mkScanner ["data: next"] None)).
  vm_compute. reflexivity.
Defined.

(** C9: decoding any input to its end gives the same events, and the
    same end, as decoding it with a blank line appended; so a last
    record with no blank line after it is returned as if it had one.
    Once a call has returned the last record and no line is left, the
    next call returns [io.EOF]. *)
Theorem C9_final_record_without_blank_line :
  (forall data,
     exists res,
       ReadAll (NewReader (mkSource data None)) = Some res /\
       ReadAll (NewReader (mkSource (data +:+ nl +:+ nl) None)) = Some res)
  /\ (forall r e r',
        scan_err r = None ->
        ReadEvent r = (ReadOk e, r') ->
        tokens r' = [] ->
        ReadEvent r' = (ReadEOF, mkScanner [] None))
  /\ ReadAll (NewReader (mkSource ("event: message" +:+ nl +:+ "data: Hello" +:+ nl
                                   +:+ nl +:+ "event: last" +:+ nl
                                   +:+ "data: No trailing newline") None))
     = Some ([mkEvent "message" "Hello" "";
              mkEvent "last" "No trailing newline" ""], None).
Proof.
  split; [| split; [| vm_compute; reflexivity]].
  - intros data. unfold NewReader, NewScanner. cbn [src_data src_err].
    destruct (scanLines_blank_line data "") as [k Hk]. rewrite Hk.
    destruct (scanLines data "") as [toks [err|]].
    + rewrite app_nil_r. destruct (ReadAll_total (mkScanner toks (Some err)))
        as [res Hres]. exists res. split; exact Hres.
    + cbn [fmap option_fmap option_map].
      destruct (ReadAll_total (mkScanner toks None)) as [res Hres].
      exists res. split; [exact Hres |]. now apply ReadAll_blank_lines.
  - intros r e r' Herr Hread Hnil.
    assert (scan_err r' = None) as Herr'.
    { revert Hread. unfold ReadEvent.
      destruct (readLoop (tokens r) zeroEvent [] false).
      - intros [= _ <-]. exact Herr.
      - rewrite Herr. destruct (pending hasData event);
          [intros [= _ <-]; reflexivity | discriminate]. }
    unfold ReadEvent. rewrite Hnil, Herr'. reflexivity.
Qed.

(** The last record of an input that ends in the middle of a line. *)
Lemma C9_final_record_witness :
  ReadEvent (mkScanner [] None) = (ReadEOF, mkScanner [] None).
Proof.
  apply (proj1 (proj2 C9_final_record_without_blank_line)
           (mkScanner ["event: last"; "data: No trailing newline"] None)
           (mkEvent "last" "No trailing newline" "")
           (mkScanner [] None));
    vm_compute; reflexivity.
Defined.

End Codec.

(** ** Properties of the request loop *)

Section Orchestrator.
Context `{W : World}.

(** *** One event *)

Ltac dispatch H :=
  unfold handleEvent; rewrite H;
  cbn [String.eqb Ascii.eqb Bool.eqb chunks eventCount errorReported].

Lemma handleEvent_error_malformed hasTools st event :
  ev_Event event = "error" ->
  Unmarshal (ev_Data event) = None ->
  handleEvent hasTools st event
  = Return (Some (ErrBotError (mkBotError (ev_Data event) None))) [].
Proof. intros H Hj. dispatch H. now rewrite Hj. Qed.

Lemma handleEvent_error_no_retry hasTools st event dataMap :
  ev_Event event = "error" ->
  Unmarshal (ev_Data event) = Some dataMap ->
  asBool (mapIndex dataMap "allow_retry") = Some false ->
  handleEvent hasTools st event
  = Return (Some (ErrBotErrorNoRetry (mkBotError (ev_Data event) None))) [].
Proof. intros H Hj Ha. dispatch H. now rewrite Hj, Ha. Qed.

Lemma handleEvent_meta_late hasTools st event :
  ev_Event event = "meta" ->
  1 <= eventCount st ->
  handleEvent hasTools st event
  = Continue (mkLoopState (chunks st) (eventCount st + 1) (errorReported st))
             [] [].
Proof.
  intros H Hc. dispatch H.
  replace (eventCount st + 1 =? 1) with false by lia. reflexivity.
Qed.

Lemma handleEvent_meta_first hasTools st event dataMap :
  ev_Event event = "meta" ->
  eventCount st = 0 ->
  Unmarshal (ev_Data event) = Some dataMap ->
  handleEvent hasTools st event
  = Continue (mkLoopState (chunks st) 1 (errorReported st))
      [mkPartialResponse "" None
         (Some (RawMeta
                  (mkMetaResponse ""
                     (default false (asBool (mapIndex dataMap "linkify")))
                     (default false
                        (asBool (mapIndex dataMap "suggested_replies")))
                     (default "text/markdown"
                        (asString (mapIndex dataMap "content_type")))
                     false)))
         None None false false None [] (parseIndex (ev_Data event))] [].
Proof. intros H Hc Hj. dispatch H. rewrite Hc, Hj. reflexivity. Qed.

(** Every record read adds one to the count. *)
Lemma handleEvent_counts hasTools st event st' ms ls :
  handleEvent hasTools st event = Continue st' ms ls ->
  eventCount st' = eventCount st + 1.
Proof.
  unfold handleEvent. cbn [chunks eventCount errorReported].
  repeat case_match; intros [= <- _ _]; reflexivity.
Qed.

Lemma Reached_count hasTools r0 n r st :
  Reached hasTools r0 n r st -> eventCount st = Z.of_nat n.
Proof.
  induction 1 as [|n r st e r' st' ms ls _ IH _ Hh]; [reflexivity |].
  apply handleEvent_counts in Hh. lia.
Qed.

(** From the second record on, the count does not matter. *)
Lemma handleEvent_count_irrelevant hasTools ch er c1 c2 event :
  1 <= c1 -> 1 <= c2 ->
  match handleEvent hasTools (mkLoopState ch c1 er) event,
        handleEvent hasTools (mkLoopState ch c2 er) event with
  | Return e1 l1, Return e2 l2 => e1 = e2 /\ l1 = l2
  | Continue s1 m1 l1, Continue s2 m2 l2 =>
      exists ch' er',
        s1 = mkLoopState ch' (c1 + 1) er' /\
        s2 = mkLoopState ch' (c2 + 1) er' /\ m1 = m2 /\ l1 = l2
  | _, _ => False
  end.
Proof.
  intros H1 H2. unfold handleEvent. cbn [chunks eventCount errorReported].
  replace (c1 + 1 =? 1) with false by lia.
  replace (c2 + 1 =? 1) with false by lia.
  cbn [negb].
  repeat case_match; simplify_eq; eauto 10.
Qed.

(** *** The loop *)

Lemma requestLoop_count_irrelevant hasTools fuel : forall reader ch er c1 c2,
  1 <= c1 -> 1 <= c2 ->
  requestLoop fuel hasTools reader (mkLoopState ch c1 er)
  = requestLoop fuel hasTools reader (mkLoopState ch c2 er).
Proof.
  induction fuel as [|fuel IH]; intros reader ch er c1 c2 H1 H2; [reflexivity |].
  cbn [requestLoop]. destruct (ReadEvent reader) as [[e| |err] r']; try reflexivity.
  pose proof (handleEvent_count_irrelevant hasTools ch er c1 c2 e H1 H2) as H.
  destruct (handleEvent hasTools (mkLoopState ch c1 er) e),
           (handleEvent hasTools (mkLoopState ch c2 er) e); try contradiction.
  - destruct H as (ch' & er' & -> & -> & -> & ->).
    rewrite (IH r' ch' er' (c1 + 1) (c2 + 1)) by lia. reflexivity.
  - destruct H as [-> ->]. reflexivity.
Qed.

Lemma requestLoop_more hasTools fuel : forall reader st o,
  requestLoop fuel hasTools reader st = Some o ->
  requestLoop (S fuel) hasTools reader st = Some o.
Proof.
  induction fuel as [|fuel IH]; intros reader st o; [discriminate |].
  intros H. cbn [requestLoop] in H.
  change (requestLoop (S (S fuel)) hasTools reader st)
    with (match ReadEvent reader with
          | (ReadEOF, _) => Some (mkOutcome [] [LogNoDone] None)
          | (ReadErr err, _) =>
              Some (mkOutcome [] []
                      (Some (ErrBotError
                               (mkBotError ("SSE read error: " +:+ scanErrorText err)
                                           (Some (scanErrorText err))))))
          | (ReadOk event, reader') =>
              match handleEvent hasTools st event with
              | Return err ls => Some (mkOutcome [] ls err)
              | Continue st' ms ls =>
                  prepend ms ls <$> requestLoop (S fuel) hasTools reader' st'
              end
          end).
  destruct (ReadEvent reader) as [[e| |err] r']; try exact H.
  destruct (handleEvent hasTools st e) as [st' ms ls|err ls]; [| exact H].
  destruct (requestLoop fuel hasTools r' st') as [o'|] eqn:E; [| discriminate].
  apply IH in E. rewrite E. exact H.
Qed.

Lemma requestLoop_more_le hasTools fuel fuel' reader st o :
  (fuel <= fuel')%nat ->
  requestLoop fuel hasTools reader st = Some o ->
  requestLoop fuel' hasTools reader st = Some o.
Proof.
  induction 1 as [|fuel' _ IH]; [trivial |].
  intros H. apply requestLoop_more, IH, H.
Qed.

(** The loop returns: one turn more than there are lines is enough. *)
Lemma requestLoop_total hasTools fuel : forall reader st,
  (List.length (tokens reader) < fuel)%nat ->
  is_Some (requestLoop fuel hasTools reader st).
Proof.
  induction fuel as [|fuel IH]; intros reader st Hlen; [lia |].
  cbn [requestLoop]. destruct (ReadEvent reader) as [[e| |err] r'] eqn:E;
    try by eexists.
  destruct (handleEvent hasTools st e) as [st' ms ls|err ls]; [| by eexists].
  apply ReadEvent_shrinks in E.
  destruct (IH r' st') as [o ->]; [lia |]. by eexists.
Qed.

Lemma performQueryRequest_total payload i :
  is_Some (performQueryRequest payload i).
Proof.
  unfold performQueryRequest. destruct (httpDo payload i); try by eexists.
  apply requestLoop_total. lia.
Qed.

Lemma tryLoop_total remaining : forall i botName opts payload,
  is_Some (tryLoop remaining i botName opts payload).
Proof.
  induction remaining as [|remaining IH]; intros i botName opts payload;
    [by eexists |].
  cbn [tryLoop].
  destruct (performQueryRequest_total payload i) as [o ->].
  destruct (result o) as [err|]; [| by eexists].
  destruct (IsBotErrorNoRetry err); [by eexists |].
  destruct (i =? NumTries opts - 1); [by eexists |].
  destruct (ctxDone payload i); [by eexists |].
  destruct (IH (i + 1) botName opts payload) as [run ->]. by eexists.
Qed.

(** A determined result of the loop is the result of the request. *)
Lemma performQueryRequest_loop payload i body fuel o :
  httpDo payload i = Responded body ->
  requestLoop fuel (hasToolsOf payload) (NewReader body) initialState = Some o ->
  performQueryRequest payload i = Some o.
Proof.
  intros Hd Hl. unfold performQueryRequest. rewrite Hd.
  set (n := S (List.length (tokens (NewReader body)))).
  destruct (requestLoop_total (hasToolsOf payload) n (NewReader body) initialState)
    as [o' Ho']; [lia |].
  rewrite Ho'. f_equal.
  pose proof (requestLoop_more_le _ _ (Nat.max fuel n) _ _ _
                (Nat.le_max_l fuel n) Hl) as A.
  pose proof (requestLoop_more_le _ _ (Nat.max fuel n) _ _ _
                (Nat.le_max_r fuel n) Ho') as B.
  congruence.
Qed.

(** *** The retry loop *)

Lemma tryLoop_first remaining i botName opts payload run :
  tryLoop (S remaining) i botName opts payload = Some run ->
  exists more, run_tries run = (payload, i) :: more.
Proof.
  cbn [tryLoop]. destruct (performQueryRequest payload i) as [o|]; [| discriminate].
  destruct (result o) as [err|]; [| intros [= <-]; by eexists].
  destruct (IsBotErrorNoRetry err); [intros [= <-]; by eexists |].
  destruct (i =? NumTries opts - 1); [intros [= <-]; by eexists |].
  destruct (ctxDone payload i); [intros [= <-]; by eexists |].
  destruct (tryLoop remaining (i + 1) botName opts payload) as [run'|];
    [| discriminate].
  intros [= <-]. by eexists.
Qed.

(** A try that ends in an error that forbids retries is the last one. *)
Lemma tryLoop_no_retry remaining i botName opts payload ms ls b :
  performQueryRequest payload i
  = Some (mkOutcome ms ls (Some (ErrBotErrorNoRetry b))) ->
  tryLoop (S remaining) i botName opts payload
  = Some (mkRun ms (ls ++ [LogFailedNoRetry botName (ErrBotErrorNoRetry b)])
                [(payload, i)]).
Proof. intros H. cbn [tryLoop]. rewrite H. reflexivity. Qed.

(** A try that ends in an error that allows a retry is followed by the
    next one, unless it was the last or the context is cancelled. *)
Lemma tryLoop_retry remaining i botName opts payload ms ls b :
  performQueryRequest payload i = Some (mkOutcome ms ls (Some (ErrBotError b))) ->
  i <> NumTries opts - 1 ->
  ctxDone payload i = false ->
  tryLoop (S remaining) i botName opts payload
  = andThen (mkRun ms (ls ++ [LogFailedTry botName i (ErrBotError b)])
                   [(payload, i)])
      <$> tryLoop remaining (i + 1) botName opts payload.
Proof.
  intros H Hi Hc. cbn [tryLoop]. rewrite H.
  cbn [result IsBotErrorNoRetry sent logs].
  replace (i =? NumTries opts - 1) with false by lia.
  now rewrite Hc.
Qed.

(** What the loop does from a state it has reached is the rest of what
    the request does. *)
Lemma Reached_loop hasTools r0 n reader st :
  Reached hasTools r0 n reader st ->
  exists ms ls,
    forall fuel o,
      requestLoop fuel hasTools reader st = Some o ->
      requestLoop (n + fuel) hasTools r0 initialState = Some (prepend ms ls o).
Proof.
  induction 1 as [|n r st e r' st' ms' ls' _ IH Hr Hh].
  - exists [], []. intros fuel [ms ls res] H. exact H.
  - destruct IH as (ms0 & ls0 & IH). exists (ms0 ++ ms'), (ls0 ++ ls').
    intros fuel o Ho.
    replace (S n + fuel)%nat with (n + S fuel)%nat by lia.
    rewrite (IH (S fuel) (prepend ms' ls' o)).
    + unfold prepend. cbn [sent logs result]. now rewrite !app_assoc.
    + cbn [requestLoop]. now rewrite Hr, Hh, Ho.
Qed.

(** C1 (as amended): when [performQueryRequest] comes to an [error]
    record whose data [json.Unmarshal] rejects, wherever it stands in the
    stream, the request fails with a [BotError] whose message is the raw
    data of the record and which allows a retry (it is not a
    [BotErrorNoRetry]); so when this happens on try 0 of
    [streamRequestBase], more than one try is configured and the context
    is not cancelled during the sleep, the failure is logged and try 1 is
    made. *)
Theorem C1_malformed_error_is_retried
    (req : Object) (botName : string) (opts : StreamRequestOptions)
    (body : Source) (n : nat) (reader reader' : Reader) (st : LoopState)
    (event : Event) :
  let payload := buildPayload req [] [] [] in
  let err := ErrBotError (mkBotError (ev_Data event) None) in
  httpDo payload 0 = Responded body ->
  Reached (hasToolsOf payload) (NewReader body) n reader st ->
  ReadEvent reader = (ReadOk event, reader') ->
  ev_Event event = "error" ->
  Unmarshal (ev_Data event) = None ->
  exists ms ls,
    performQueryRequest payload 0 = Some (mkOutcome ms ls (Some err))
    /\ IsBotErrorNoRetry err = false
    /\ (1 < NumTries opts ->
        ctxDone payload 0 = false ->
        exists more later,
          streamRequestBase req botName opts
          = Some (andThen (mkRun ms (ls ++ [LogFailedTry botName 0 err])
                                 [(payload, 0)])
                          more)
          /\ run_tries more = (payload, 1) :: later).
Proof.
  intros payload err Hd Hreach Hr Ht Hj.
  destruct (Reached_loop _ _ _ _ _ Hreach) as (ms & ls & Hloop).
  assert (Hq : performQueryRequest payload 0
               = Some (mkOutcome (ms ++ []) (ls ++ []) (Some err))).
  { apply (performQueryRequest_loop payload 0 body (n + 1) _ Hd).
    apply (Hloop 1%nat (mkOutcome [] [] (Some err))).
    cbn [requestLoop]. rewrite Hr.
    now rewrite handleEvent_error_malformed. }
  rewrite !app_nil_r in Hq.
  exists ms, ls. split; [exact Hq |]. split; [reflexivity |].
  intros Hn Hc. unfold streamRequestBase. fold payload.
  destruct (Z.to_nat (NumTries opts)) as [|[|k]] eqn:En; [lia | lia |].
  destruct (tryLoop_total (S k) 1 botName opts payload) as [more Hmore].
  destruct (tryLoop_first _ _ _ _ _ _ Hmore) as [later Hlater].
  exists more, later. split; [| exact Hlater].
  rewrite (tryLoop_retry _ _ _ _ _ _ _ _ Hq) by (assumption || lia).
  change (0 + 1) with 1. now rewrite Hmore.
Qed.

(** C4: when the first record of the stream is an [error] record with
    [allow_retry] false, [StreamRequest] delivers no message and makes
    no try but the first, whatever the number of tries configured; the
    failure is logged and the channel is closed. *)
Theorem C4_no_retry_error_ends_request
    (req : Object) (botName : string) (opts : StreamRequestOptions)
    (body : Source) (event : Event) (reader' : Reader) (dataMap : Map) :
  let payload := buildPayload req (Tools opts) [] [] in
  httpDo payload 0 = Responded body ->
  ReadEvent (NewReader body) = (ReadOk event, reader') ->
  ev_Event event = "error" ->
  Unmarshal (ev_Data event) = Some dataMap ->
  asBool (mapIndex dataMap "allow_retry") = Some false ->
  StreamRequest req botName opts
  = Some (mkRun []
            [LogFailedNoRetry botName
               (ErrBotErrorNoRetry (mkBotError (ev_Data event) None))]
            [(payload, 0)]).
Proof.
  intros payload Hd Hr Ht Hj Ha.
  assert (Hq : performQueryRequest payload 0
               = Some (mkOutcome [] []
                         (Some (ErrBotErrorNoRetry
                                  (mkBotError (ev_Data event) None))))).
  { apply (performQueryRequest_loop payload 0 body 1 _ Hd).
    cbn [requestLoop]. rewrite Hr.
    now rewrite (handleEvent_error_no_retry _ _ _ dataMap). }
  assert (Hn : exists k, Z.to_nat (NumTries (defaults opts)) = S k).
  { unfold defaults. cbn [NumTries]. unfold defaultNumTries.
    destruct (NumTries opts <=? 0) eqn:E.
    - exists 1%nat. reflexivity.
    - exists (Nat.pred (Z.to_nat (NumTries opts))). lia. }
  destruct Hn as [k Hk].
  unfold StreamRequest.
  change (Tools (defaults opts)) with (Tools opts).
  destruct (Tools opts) as [|tool tools] eqn:Etools.
  - cbn [List.length Nat.ltb Nat.leb]. unfold streamRequestBase.
    rewrite Hk. subst payload.
    exact (tryLoop_no_retry k 0 botName (defaults opts) _ [] [] _ Hq).
  - cbn [List.length Nat.ltb Nat.leb]. unfold streamRequestWithTools.
    change (Tools (defaults opts)) with (Tools opts). rewrite Etools.
    unfold streamRequestBaseWithPayload at 1. rewrite Hk.
    subst payload.
    rewrite (tryLoop_no_retry k 0 botName (defaults opts) _ [] [] _ Hq).
    cbn [run_sent run_logs run_tries firstPass].
    destruct (Nat.eqb (List.length (ToolExecutables (defaults opts))) 0);
      [reflexivity |].
    unfold toolCallsOf. rewrite map_to_list_empty.
    pose proof (rangeOrder_perm []) as P. apply Permutation_nil_r in P.
    rewrite P. reflexivity.
Qed.

(** Every stream request comes to its end, whatever the server sends. *)
Lemma StreamRequest_returns req botName opts :
  is_Some (StreamRequest req botName opts).
Proof.
  unfold StreamRequest. destruct (Nat.ltb _ _).
  - unfold streamRequestWithTools, streamRequestBaseWithPayload.
    destruct (tryLoop_total (Z.to_nat (NumTries (defaults opts))) 0 botName
                (defaults opts)
                (buildPayload req (Tools (defaults opts)) [] [])) as [first ->].
    destruct (firstPass _ _ _) as [out agg].
    destruct (Nat.eqb (List.length (ToolExecutables (defaults opts))) 0);
      [by eexists |].
    destruct (Nat.eqb (List.length (toolCallsOf agg)) 0); [by eexists |].
    destruct (executeTools _ _) as [toolResults ls].
    destruct (tryLoop_total (Z.to_nat (NumTries (defaults opts))) 0 botName
                (defaults opts)
                (buildPayload req (Tools (defaults opts)) (toolCallsOf agg)
                              toolResults)) as [second ->].
    by eexists.
  - apply tryLoop_total.
Qed.

(** C6: a [meta] record that arrives after at least one other record
    of the stream is dropped: the turn of the loop that reads it sends
    no message, writes no log line, returns no error and leaves the
    collected text and the error flag as they were, and the request
    goes on with the following records exactly as if the record had not
    been there.  The loop returns. *)
Theorem C6_late_meta_discarded
    (hasTools : bool) (r0 reader reader' : Reader) (st : LoopState)
    (n fuel : nat) (event : Event) :
  Reached hasTools r0 n reader st ->
  (1 <= n)%nat ->
  ReadEvent reader = (ReadOk event, reader') ->
  ev_Event event = "meta" ->
  (exists st',
     handleEvent hasTools st event = Continue st' [] [] /\
     chunks st' = chunks st /\ errorReported st' = errorReported st)
  /\ requestLoop (S fuel) hasTools reader st
     = requestLoop fuel hasTools reader' st
  /\ is_Some (requestLoop (S (List.length (tokens reader))) hasTools reader st).
Proof.
  intros Hreach Hn Hr Ht.
  assert (Hc : 1 <= eventCount st)
    by (rewrite (Reached_count _ _ _ _ _ Hreach); lia).
  split; [| split].
  - eexists. split; [now apply handleEvent_meta_late |]. split; reflexivity.
  - cbn [requestLoop]. rewrite Hr, handleEvent_meta_late by assumption.
    destruct st as [ch c er]. cbn [chunks eventCount errorReported] in *.
    rewrite (requestLoop_count_irrelevant hasTools fuel reader' ch er (c + 1) c)
      by lia.
    destruct (requestLoop fuel hasTools reader' (mkLoopState ch c er)) as [[? ? ?]|];
      reflexivity.
  - apply requestLoop_total. lia.
Qed.

End Orchestrator.

(** ** The final response *)

Section FinalResponse.
Context `{W : World}.

Lemma collect_replace chunks msg :
  pr_IsReplaceResponse msg = true -> counted msg = true ->
  collect chunks msg = [pr_Text msg].
Proof.
  unfold collect, counted. intros Hr Hc.
  apply andb_true_iff in Hc as [Hm Hs]. apply negb_true_iff in Hm, Hs.
  now rewrite Hm, Hs, Hr.
Qed.

Lemma collect_skipped chunks msg :
  counted msg = false -> collect chunks msg = chunks.
Proof.
  unfold collect, counted. intros Hc.
  destruct (isMeta msg); [reflexivity |].
  destruct (pr_IsSuggestedReply msg); [reflexivity | discriminate].
Qed.

Lemma collect_counted chunks msg :
  counted msg = true ->
  collect chunks msg
  = (if pr_IsReplaceResponse msg then [] else chunks) ++ [pr_Text msg].
Proof.
  unfold collect, counted. intros Hc.
  apply andb_true_iff in Hc as [Hm Hs]. apply negb_true_iff in Hm, Hs.
  now rewrite Hm, Hs.
Qed.

(** The chunks are empty exactly when no message was counted. *)
Lemma collect_all_empty msgs : forall chunks,
  fold_left collect msgs chunks = []
  <-> chunks = [] /\ forallb (λ m, negb (counted m)) msgs = true.
Proof.
  induction msgs as [|m msgs IH]; intros chunks; cbn [fold_left forallb].
  - intuition.
  - rewrite IH. destruct (counted m) eqn:Hc; cbn [negb andb].
    + rewrite collect_counted by assumption. split.
      * intros [H _]. now apply app_eq_nil in H as [_ H].
      * intros [_ H]. discriminate.
    + now rewrite collect_skipped.
Qed.

(** C5: a replace message resets the transcript.  For every sequence
    of messages, the final response is the one of the sequence from its
    last-read replace message on, whatever was delivered before it; the
    message sent for a [replace_response] record is such a message; and
    [Text "Old"] followed by [Replace "New"] gives exactly ["New"]. *)
Theorem C5_replace_resets_transcript :
  (forall botName before msg after,
     pr_IsReplaceResponse msg = true ->
     counted msg = true ->
     finalResponse botName (before ++ msg :: after)
     = finalResponse botName (msg :: after))
  /\ (forall hasTools st event text,
        ev_Event event = "replace_response" ->
        getJSONStringField (ev_Data event) "text" = inl text ->
        exists st' msg,
          handleEvent hasTools st event = Continue st' [msg] [] /\
          chunks st' = [] /\
          pr_Text msg = text /\
          pr_IsReplaceResponse msg = true /\ counted msg = true)
  /\ (forall botName,
        finalResponse botName
          [textResponse "Old" None;
           mkPartialResponse "New" None None None None false true None [] None]
        = inl "New").
Proof.
  split; [| split].
  - intros botName before msg after Hr Hc. unfold finalResponse.
    rewrite fold_left_app. cbn [fold_left].
    now rewrite !collect_replace.
  - intros hasTools st event text Ht Hj. unfold handleEvent. rewrite Ht, Hj.
    cbn [String.eqb Ascii.eqb Bool.eqb]. do 2 eexists.
    split; [reflexivity |]. repeat split.
  - intros botName. reflexivity.
Qed.

(** C10: [GetFinalResponse] fails exactly when the channel delivered no
    message that is neither a meta response nor a suggested reply, and
    then with the error "Bot <name> sent no response"; every other
    message adds its text, empty or not, to the chunks; and a stream
    that holds a [file] record and [done] gives the empty string and no
    error. *)
Theorem C10_no_response_error :
  (forall botName msgs,
     (exists err, finalResponse botName msgs = inr err)
     <-> forallb (λ m, negb (counted m)) msgs = true)
  /\ (forall botName msgs err,
        finalResponse botName msgs = inr err ->
        err = ErrBotError
                (mkBotError ("Bot " +:+ botName +:+ " sent no response") None))
  /\ (forall msgs msg,
        counted msg = true ->
        fold_left collect (msgs ++ [msg]) []
        = (if pr_IsReplaceResponse msg then [] else fold_left collect msgs [])
          ++ [pr_Text msg])
  /\ (forall req botName apiKey opts body file r1 done r2 dataMap,
        let payload := buildPayload req [] [] [] in
        Tools opts = [] ->
        httpDo payload 0 = Responded body ->
        ReadEvent (NewReader body) = (ReadOk file, r1) ->
        ev_Event file = "file" ->
        Unmarshal (ev_Data file) = Some dataMap ->
        ReadEvent r1 = (ReadOk done, r2) ->
        ev_Event done = "done" ->
        GetFinalResponse req botName apiKey opts = Some (inl "")).
Proof.
  split; [| split; [| split]].
  - intros botName msgs. unfold finalResponse.
    pose proof (collect_all_empty msgs []) as E.
    destruct (fold_left collect msgs []) as [|c cs] eqn:F; cbn [List.length Nat.eqb].
    + split; [intros _; now apply E | intros _; by eexists].
    + split; [intros [err H]; discriminate |].
      intros H. destruct E as [_ E]. now specialize (E (conj eq_refl H)).
  - intros botName msgs err. unfold finalResponse.
    destruct (Nat.eqb _ _); [intros [= <-]; reflexivity | discriminate].
  - intros msgs msg Hc. rewrite fold_left_app. cbn [fold_left].
    now apply collect_counted.
  - intros req botName apiKey opts body file r1 done r2 dataMap payload
           Htools Hd Hr1 Hf Hj Hr2 Hdone.
    assert (Hq : exists att index ls,
              performQueryRequest payload 0
              = Some (mkOutcome
                        [mkPartialResponse "" None None None None false false
                                           (Some att) [] index]
                        ls None)).
    { do 3 eexists.
      apply (performQueryRequest_loop payload 0 body 2 _ Hd).
      cbn [requestLoop]. rewrite Hr1. unfold handleEvent at 1. rewrite Hf, Hj.
      cbn [String.eqb Ascii.eqb Bool.eqb]. rewrite Hr2.
      unfold handleEvent. rewrite Hdone.
      cbn [String.eqb Ascii.eqb Bool.eqb fmap option_fmap option_map prepend
           sent logs result app].
      reflexivity. }
    destruct Hq as (att & index & ls & Hq).
    unfold GetFinalResponse.
    set (opts' := if negb (apiKey =? "")%string then _ else opts).
    assert (Htools' : Tools opts' = []) by (subst opts'; now destruct (negb _)).
    unfold StreamRequest. change (Tools (defaults opts')) with (Tools opts').
    rewrite Htools'. cbn [List.length Nat.ltb Nat.leb].
    unfold streamRequestBase. fold payload.
    assert (Hn : exists k, Z.to_nat (NumTries (defaults opts')) = S k).
    { unfold defaults. cbn [NumTries]. unfold defaultNumTries.
      destruct (NumTries opts' <=? 0) eqn:E.
      - exists 1%nat. reflexivity.
      - exists (Nat.pred (Z.to_nat (NumTries opts'))). lia. }
    destruct Hn as [k ->]. cbn [tryLoop]. rewrite Hq. reflexivity.
Qed.

End FinalResponse.

(** ** Tool-call aggregation *)

Section Aggregation.
Context `{W : World}.

Lemma concat_empty_cons (x : string) (xs : list string) :
  String.concat "" (x :: xs) = x +:+ String.concat "" xs.
Proof.
  destruct xs as [|y ys]; [cbn; now rewrite string_app_nil_r | reflexivity].
Qed.

Lemma fragments_cons_eq i d ds :
  tcd_Index d = i ->
  fragments i (d :: ds) = fcd_Arguments (tcd_Function d) +:+ fragments i ds.
Proof.
  intros H. unfold fragments. rewrite filter_cons_True by exact H.
  cbn [fmap list_fmap]. apply concat_empty_cons.
Qed.

Lemma fragments_cons_ne i d ds :
  tcd_Index d <> i -> fragments i (d :: ds) = fragments i ds.
Proof. intros H. unfold fragments. now rewrite filter_cons_False. Qed.

Lemma appendArgs_empty tc : appendArgs tc "" = tc.
Proof.
  destruct tc as [id ty [name args]]. unfold appendArgs. cbn.
  now rewrite string_app_nil_r.
Qed.

Lemma appendArgs_twice tc a b :
  appendArgs (appendArgs tc a) b = appendArgs tc (a +:+ b).
Proof. unfold appendArgs. cbn. now rewrite string_app_assoc. Qed.

(** *** One delta *)

Lemma aggregate_other agg d i :
  tcd_Index d <> i -> aggregate agg d !! i = agg !! i.
Proof.
  intros H. unfold aggregate.
  destruct (agg !! tcd_Index d); [now rewrite lookup_insert_ne |].
  destruct (tcd_ID d), (tcd_Type d), (fcd_Name (tcd_Function d));
    try reflexivity.
  now rewrite lookup_insert_ne.
Qed.

Lemma aggregate_present agg d tc :
  agg !! tcd_Index d = Some tc ->
  aggregate agg d !! tcd_Index d
  = Some (appendArgs tc (fcd_Arguments (tcd_Function d))).
Proof. intros H. unfold aggregate. rewrite H. now rewrite lookup_insert_eq. Qed.

Lemma aggregate_incomplete agg d :
  agg !! tcd_Index d = None -> complete d = false -> aggregate agg d = agg.
Proof.
  intros H Hc. unfold aggregate, complete in *. rewrite H.
  destruct (tcd_ID d), (tcd_Type d), (fcd_Name (tcd_Function d));
    (reflexivity || discriminate).
Qed.

Lemma aggregate_complete agg d :
  agg !! tcd_Index d = None -> complete d = true ->
  aggregate agg d !! tcd_Index d = Some (entryOf d).
Proof.
  intros H Hc. unfold aggregate, complete, entryOf in *. rewrite H.
  destruct (tcd_ID d), (tcd_Type d), (fcd_Name (tcd_Function d));
    try discriminate.
  now rewrite lookup_insert_eq.
Qed.

(** *** A list of deltas *)

Lemma aggregateAll_present deltas : forall agg i tc,
  agg !! i = Some tc ->
  aggregateAll agg deltas !! i = Some (appendArgs tc (fragments i deltas)).
Proof.
  induction deltas as [|d ds IH]; intros agg i tc H.
  - cbn. now rewrite appendArgs_empty.
  - cbn [aggregateAll fold_left].
    change (fold_left aggregate ds (aggregate agg d))
      with (aggregateAll (aggregate agg d) ds).
    destruct (decide (tcd_Index d = i)) as [Hi|Hi].
    + subst i. rewrite (IH _ _ _ (aggregate_present _ _ _ H)).
      now rewrite appendArgs_twice, fragments_cons_eq.
    + rewrite (IH _ i tc) by (now rewrite aggregate_other).
      now rewrite fragments_cons_ne.
Qed.

Lemma aggregateAll_absent deltas : forall agg i,
  agg !! i = None ->
  (forall d, d ∈ deltas -> tcd_Index d = i -> complete d = false) ->
  aggregateAll agg deltas !! i = None.
Proof.
  induction deltas as [|d ds IH]; intros agg i H Hall; [exact H |].
  cbn [aggregateAll fold_left].
  change (fold_left aggregate ds (aggregate agg d))
    with (aggregateAll (aggregate agg d) ds).
  apply IH.
  - destruct (decide (tcd_Index d = i)) as [Hi|Hi].
    + subst i. rewrite aggregate_incomplete; [exact H | exact H |].
      apply Hall; [left | reflexivity].
    + now rewrite aggregate_other.
  - intros d' Hin. apply Hall. now right.
Qed.

Lemma aggregateAll_app agg ds1 ds2 :
  aggregateAll agg (ds1 ++ ds2) = aggregateAll (aggregateAll agg ds1) ds2.
Proof. unfold aggregateAll. apply fold_left_app. Qed.

(** *** Tool results *)

Lemma executeToolsLoop_results execMap toolCalls result :
  result ∈ (executeToolsLoop execMap toolCalls).1 ->
  exists tc,
    tc ∈ toolCalls /\ tr_ToolCallID result = tc_ID tc /\
    tr_Name result = fc_Name (tc_Function tc).
Proof.
  induction toolCalls as [|tc tcs IH]; cbn [executeToolsLoop].
  - cbn. intros H. inversion H.
  - destruct (executeToolsLoop execMap tcs) as [results ls].
    cbn [fst] in IH.
    assert (Hrest : result ∈ results ->
              exists tc0, tc0 ∈ tc :: tcs /\ tr_ToolCallID result = tc_ID tc0 /\
                          tr_Name result = fc_Name (tc_Function tc0)).
    { intros H. destruct (IH H) as (tc0 & Hin & Hid & Hname).
      exists tc0. split; [now right | now split]. }
    destruct (execMap !! fc_Name (tc_Function tc)) as [exec|]; [| exact Hrest].
    destruct (te_Execute exec (fc_Arguments (tc_Function tc))); cbn [fst];
      intros H; apply elem_of_cons in H as [-> | H]; try now apply Hrest.
    + exists tc. split; [left | now split].
    + exists tc. split; [left | now split].
Qed.

Lemma toolCallsOf_from_map agg tc :
  tc ∈ toolCallsOf agg -> exists j, agg !! j = Some tc.
Proof.
  unfold toolCallsOf. intros H.
  apply list_elem_of_fmap in H as ([j tc'] & -> & H).
  rewrite rangeOrder_perm in H. apply elem_of_map_to_list in H.
  now exists j.
Qed.

(** C8: once an entry exists at an index, the deltas that follow at
    that index each append their fragment, empty or not, to its
    arguments in the order of arrival, and nothing else of the entry
    changes; a delta with id, type and function name at a free index
    creates the entry with its own fragment.  The three deltas of the
    example aggregate to the arguments [{"x":1}]. *)
Theorem C8_fragments_appended :
  (forall agg delta deltas,
     agg !! tcd_Index delta = None ->
     complete delta = true ->
     aggregateAll agg (delta :: deltas) !! tcd_Index delta
     = Some (appendArgs (entryOf delta) (fragments (tcd_Index delta) deltas)))
  /\ (forall agg i tc deltas,
        agg !! i = Some tc ->
        aggregateAll agg deltas !! i
        = Some (appendArgs tc (fragments i deltas)))
  /\ aggregateAll ∅
       [mkToolCallDefinitionDelta 0 (Some "call_1") (Some "function")
          (mkFunctionCallDefinitionDelta (Some "get_x") "");
        mkToolCallDefinitionDelta 0 None None
          (mkFunctionCallDefinitionDelta None
             ("{" +:+ sample.quoted "x" +:+ ":"));
        mkToolCallDefinitionDelta 0 None None
          (mkFunctionCallDefinitionDelta None "1}")] !! 0
     = Some (mkToolCallDefinition "call_1" "function"
               (mkFunctionCallDefinition "get_x"
                  ("{" +:+ sample.quoted "x" +:+ ":1}"))).
Proof.
  split; [| split].
  - intros agg delta deltas Hfree Hc. cbn [aggregateAll fold_left].
    change (fold_left aggregate deltas (aggregate agg delta))
      with (aggregateAll (aggregate agg delta) deltas).
    apply aggregateAll_present. now apply aggregate_complete.
  - intros agg i tc deltas H. now apply aggregateAll_present.
  - vm_compute. reflexivity.
Qed.

(** C2 (as amended): the entries are keyed by delta index and never
    re-keyed: an entry stays at its index with its id, type and function
    name.  An index stays without an entry as long as every delta that
    arrived at it lacks id, type or function name: such deltas create no
    entry and their fragments are not accumulated, and a map with no
    entry at the index gives no tool call and no tool result for it.
    The first delta at the index that carries all three creates the
    entry, with the fragment of that delta alone. *)
Theorem C2_incomplete_deltas_dropped :
  (forall agg deltas i tc,
     agg !! i = Some tc ->
     exists tc',
       aggregateAll agg deltas !! i = Some tc' /\
       tc_ID tc' = tc_ID tc /\ tc_Type tc' = tc_Type tc /\
       fc_Name (tc_Function tc') = fc_Name (tc_Function tc))
  /\ (forall agg deltas i,
        agg !! i = None ->
        (forall d, d ∈ deltas -> tcd_Index d = i -> complete d = false) ->
        aggregateAll agg deltas !! i = None)
  /\ (forall agg i executables result,
        agg !! i = None ->
        result ∈ (executeTools executables (toolCallsOf agg)).1 ->
        exists j tc,
          j <> i /\ agg !! j = Some tc /\
          tr_ToolCallID result = tc_ID tc /\
          tr_Name result = fc_Name (tc_Function tc))
  /\ (forall agg before delta,
        agg !! tcd_Index delta = None ->
        (forall d, d ∈ before -> tcd_Index d = tcd_Index delta ->
                   complete d = false) ->
        complete delta = true ->
        aggregateAll agg (before ++ [delta]) !! tcd_Index delta
        = Some (entryOf delta)).
Proof.
  split; [| split; [| split]].
  - intros agg deltas i tc H. exists (appendArgs tc (fragments i deltas)).
    split; [apply aggregateAll_present, H |]. repeat split.
  - intros agg deltas i. apply aggregateAll_absent.
  - intros agg i executables result Hfree Hin.
    apply executeToolsLoop_results in Hin as (tc & Hin & Hid & Hname).
    apply toolCallsOf_from_map in Hin as [j Hj].
    exists j, tc. repeat split; try assumption. congruence.
  - intros agg before delta Hfree Hall Hc.
    rewrite aggregateAll_app. cbn [aggregateAll fold_left].
    apply aggregate_complete; [| exact Hc].
    now apply aggregateAll_absent.
Qed.

End Aggregation.

(** ** The properties at concrete streams *)

Section Examples.

(** A server that answers every try with one [error] record whose data
    is not JSON, and two tries configured: both tries are made. *)
Lemma C1_malformed_error_counterexample :
  let w := sample.world (sample.respond (sample.wire "error" "oops")) in
  let payload := buildPayload ∅ [] [] [] in
  @performQueryRequest w payload 0
  = Some (mkOutcome [] [] (Some (ErrBotError (mkBotError "oops" None))))
  /\ IsBotErrorNoRetry (ErrBotError (mkBotError "oops" None)) <> true
  /\ run_tries <$> @streamRequestBase w ∅ "testbot" (sample.options 2)
     = Some [(payload, 0); (payload, 1)].
Proof.
  split; [vm_compute; reflexivity |].
  split; [vm_compute; discriminate | vm_compute; reflexivity].
Qed.

Lemma C1_malformed_error_witness :
  let w := sample.world
             (sample.respond (sample.wire "text" (sample.object1 "text" "a")
                              +:+ sample.wire "error" "oops")) in
  let payload := buildPayload ∅ [] [] [] in
  let err := ErrBotError (mkBotError "oops" None) in
  exists ms ls,
    @performQueryRequest w payload 0 = Some (mkOutcome ms ls (Some err))
    /\ IsBotErrorNoRetry err = false
    /\ (1 < NumTries (sample.options 2) ->
        @ctxDone w payload 0 = false ->
        exists more later,
          @streamRequestBase w ∅ "testbot" (sample.options 2)
          = Some (andThen (mkRun ms (ls ++ [LogFailedTry "testbot" 0 err])
                                 [(payload, 0)])
                          more)
          /\ run_tries more = (payload, 1) :: later).
Proof.
  intros w payload err.
  apply (@C1_malformed_error_is_retried w ∅ "testbot" (sample.options 2)
           (mkSource (sample.wire "text" (sample.object1 "text" "a")
                      +:+ sample.wire "error" "oops") None)
           1 (mkScanner ["event: error"; "data: oops"; ""] None)
           (mkScanner [] None) (mkLoopState ["a"] 1 false)
           (mkEvent "error" "oops" "")).
  - vm_compute. reflexivity.
  - eapply (@Reached_step w false _ 0 _ initialState
              (mkEvent "text" (sample.object1 "text" "a") "") _ _
              [textResponse "a" None] []).
    + apply Reached_start.
    + vm_compute. reflexivity.
    + vm_compute. reflexivity.
  - vm_compute. reflexivity.
  - reflexivity.
  - vm_compute. reflexivity.
Defined.

Lemma C4_no_retry_error_witness :
  let w := sample.world
             (sample.respond (sample.wire "error" sample.errorNoRetry)) in
  @StreamRequest w ∅ "testbot" (sample.options 3)
  = Some (mkRun []
            [LogFailedNoRetry "testbot"
               (ErrBotErrorNoRetry (mkBotError sample.errorNoRetry None))]
            [(buildPayload ∅ [] [] [], 0)]).
Proof.
  intros w.
  apply (@C4_no_retry_error_ends_request w ∅ "testbot" (sample.options 3)
           (mkSource (sample.wire "error" sample.errorNoRetry) None)
           (mkEvent "error" sample.errorNoRetry "") (mkScanner [] None)
           (Some {[ "allow_retry" := JBool false;
                    "text" := JString "Bad request" ]}));
    vm_compute; reflexivity.
Defined.

(** A delta without id at index 0, then one with id, type and function
    name at the same index: the second creates the entry, and a tool
    result is produced for it. *)
Lemma C2_incomplete_deltas_counterexample :
  let w := sample.world (sample.respond "") in
  let agg :=
    aggregateAll ∅
      [mkToolCallDefinitionDelta 0 None (Some "function")
         (mkFunctionCallDefinitionDelta None "a");
       mkToolCallDefinitionDelta 0 (Some "call_1") (Some "function")
         (mkFunctionCallDefinitionDelta (Some "f") "b")] in
  agg !! 0
  = Some (mkToolCallDefinition "call_1" "function"
            (mkFunctionCallDefinition "f" "b"))
  /\ agg !! 0 <> None
  /\ (executeTools [mkToolExecutable "f" (λ args, inl ("ran " +:+ args))]
                   (@toolCallsOf w agg)).1
     = [mkToolResultDefinition "tool" "f" "call_1" "ran b"].
Proof.
  split; [vm_compute; reflexivity |].
  split; [vm_compute; discriminate | vm_compute; reflexivity].
Qed.

Lemma C2_incomplete_deltas_witness :
  aggregateAll ∅
    ([mkToolCallDefinitionDelta 0 None (Some "function")
        (mkFunctionCallDefinitionDelta None "a");
      mkToolCallDefinitionDelta 1 (Some "call_0") (Some "function")
        (mkFunctionCallDefinitionDelta (Some "g") "")]
     ++ [mkToolCallDefinitionDelta 0 (Some "call_1") (Some "function")
           (mkFunctionCallDefinitionDelta (Some "f") "b")]) !! 0
  = Some (mkToolCallDefinition "call_1" "function"
            (mkFunctionCallDefinition "f" "b")).
Proof.
  apply (proj2 (proj2 (proj2
           (@C2_incomplete_deltas_dropped (sample.world (sample.respond ""))))) ∅
           [mkToolCallDefinitionDelta 0 None (Some "function")
              (mkFunctionCallDefinitionDelta None "a");
            mkToolCallDefinitionDelta 1 (Some "call_0") (Some "function")
              (mkFunctionCallDefinitionDelta (Some "g") "")]
           (mkToolCallDefinitionDelta 0 (Some "call_1") (Some "function")
              (mkFunctionCallDefinitionDelta (Some "f") "b"))).
  - reflexivity.
  - intros d Hin Hidx.
    apply elem_of_cons in Hin as [-> | Hin]; [reflexivity |].
    apply elem_of_cons in Hin as [-> | Hin]; [discriminate Hidx |].
    inversion Hin.
  - reflexivity.
Defined.

Lemma C5_replace_resets_witness :
  finalResponse "testbot"
    ([textResponse "First" None; textResponse " response" None]
     ++ mkPartialResponse "Replaced" None None None None false true None [] None
        :: [textResponse " text" None])
  = finalResponse "testbot"
      (mkPartialResponse "Replaced" None None None None false true None [] None
       :: [textResponse " text" None]).
Proof.
  apply (proj1 (@C5_replace_resets_transcript (sample.world (sample.respond "")))
           "testbot");
    reflexivity.
Defined.

(** A [meta] record after a [text] record, before [done]. *)
Lemma C6_late_meta_witness :
  let w := sample.world (sample.respond "") in
  let r0 :=
    NewReader
      (mkSource (sample.wire "text" (sample.object1 "text" "a")
                 +:+ sample.wire "meta" (sample.object1 "content_type" "text/plain")
                 +:+ sample.wire "done" "{}") None) in
  let r1 := (ReadEvent r0).2 in
  let r2 := (ReadEvent r1).2 in
  let st := mkLoopState ["a"] 1 false in
  let event := mkEvent "meta" (sample.object1 "content_type" "text/plain") "" in
  (exists st',
     @handleEvent w false st event = Continue st' [] [] /\
     chunks st' = chunks st /\ errorReported st' = errorReported st)
  /\ @requestLoop w 2 false r1 st = @requestLoop w 1 false r2 st
  /\ is_Some (@requestLoop w (S (List.length (tokens r1))) false r1 st).
Proof.
  intros w r0 r1 r2 st event.
  apply (@C6_late_meta_discarded w false r0 r1 r2 st 1 1 event).
  - apply (@Reached_step w false r0 0 r0 initialState
             (mkEvent "text" (sample.object1 "text" "a") "") r1 st
             [textResponse "a" None] []).
    + apply Reached_start.
    + vm_compute. reflexivity.
    + vm_compute. reflexivity.
  - lia.
  - vm_compute. reflexivity.
  - reflexivity.
Defined.

Lemma C8_fragments_appended_witness :
  aggregateAll
    {[ 3 := mkToolCallDefinition "call_1" "function"
              (mkFunctionCallDefinition "get_weather" "") ]}
    [mkToolCallDefinitionDelta 3 None None
       (mkFunctionCallDefinitionDelta None "{");
     mkToolCallDefinitionDelta 4 None None
       (mkFunctionCallDefinitionDelta None "x");
     mkToolCallDefinitionDelta 3 None None
       (mkFunctionCallDefinitionDelta None "");
     mkToolCallDefinitionDelta 3 None None
       (mkFunctionCallDefinitionDelta None "}")] !! 3
  = Some (appendArgs
            (mkToolCallDefinition "call_1" "function"
               (mkFunctionCallDefinition "get_weather" ""))
            (fragments 3
               [mkToolCallDefinitionDelta 3 None None
                  (mkFunctionCallDefinitionDelta None "{");
                mkToolCallDefinitionDelta 4 None None
                  (mkFunctionCallDefinitionDelta None "x");
                mkToolCallDefinitionDelta 3 None None
                  (mkFunctionCallDefinitionDelta None "");
                mkToolCallDefinitionDelta 3 None None
                  (mkFunctionCallDefinitionDelta None "}")])).
Proof.
  apply (proj1 (proj2 C8_fragments_appended)). vm_compute. reflexivity.
Defined.

(** A stream with a file attachment and [done] only. *)
Lemma C10_no_response_witness :
  let w := sample.world
             (sample.respond (sample.wire "file" sample.fileData
                              +:+ sample.wire "done" "{}")) in
  @GetFinalResponse w ∅ "testbot" "" (sample.options 2) = Some (inl "").
Proof.
  intros w.
  apply (proj2 (proj2 (proj2 (@C10_no_response_error w))) ∅ "testbot" ""
           (sample.options 2)
           (mkSource (sample.wire "file" sample.fileData
                      +:+ sample.wire "done" "{}") None)
           (mkEvent "file" sample.fileData "")
           (mkScanner ["event: done"; "data: {}"; ""] None)
           (mkEvent "done" "{}" "") (mkScanner [] None)
           (Some {[ "url" := JString "https://example.com/a.png";
                    "content_type" := JString "image/png";
                    "name" := JString "a.png" ]}));
    vm_compute; reflexivity.
Defined.


(** *** The streams of the repository's tests *)

Example reader_colons_and_missing_space :
  ReadAll (NewReader (mkSource ("data: value:with:colons" +:+ nl +:+ nl
                                +:+ "data:value_no_space" +:+ nl +:+ nl) None))
  = Some ([mkEvent "" "value:with:colons" ""; mkEvent "" "value_no_space" ""], None).
Proof. vm_compute. reflexivity. Qed.

Example reader_comments_only :
  ReadAll (NewReader (mkSource (": comment" +:+ nl +:+ ": another comment" +:+ nl
                                +:+ nl +:+ nl) None))
  = Some ([], None).
Proof. vm_compute. reflexivity. Qed.

Example reader_empty_data_field :
  ReadAll (NewReader (mkSource ("event: ping" +:+ nl +:+ "data:" +:+ nl +:+ nl) None))
  = Some ([mkEvent "ping" "" ""], None).
Proof. vm_compute. reflexivity. Qed.

Example final_response_collects_all_text :
  @GetFinalResponse
    (sample.world
       (sample.respond
          (sample.wire "text" (sample.object1 "text" "Hello")
           +:+ sample.wire "text" (sample.object1 "text" " world")
           +:+ sample.wire "text" (sample.object1 "text" "!")
           +:+ sample.wire "done" "{}")))
    ∅ "testbot" "" (sample.options 0)
  = Some (inl "Hello world!").
Proof. vm_compute. reflexivity. Qed.

Example final_response_after_replace :
  @GetFinalResponse
    (sample.world
       (sample.respond
          (sample.wire "text" (sample.object1 "text" "Old")
           +:+ sample.wire "replace_response" (sample.object1 "text" "New")
           +:+ sample.wire "done" "{}")))
    ∅ "testbot" "" (sample.options 0)
  = Some (inl "New").
Proof. vm_compute. reflexivity. Qed.

Example late_meta_sends_nothing :
  run_sent
    <$> @StreamRequest
          (sample.world
             (sample.respond
                (sample.wire "text" (sample.object1 "text" "a")
                 +:+ sample.wire "meta" (sample.object1 "content_type" "text/plain")
                 +:+ sample.wire "done" "{}")))
          ∅ "testbot" (sample.options 0)
  = Some [textResponse "a" None].
Proof. vm_compute. reflexivity. Qed.

(** The two passes of a request with a tool and its callback: the three
    deltas become one call with the arguments [{"x":1}], the callback
    runs on them, and the second request carries call and result. *)
Example tool_call_two_passes :
  let opts :=
    mkStreamRequestOptions "" [sample.getX] [sample.getXExecutable] 0 0 "" in
  let call :=
    mkToolCallDefinition "call_1" "function"
      (mkFunctionCallDefinition "get_x" ("{" +:+ sample.quoted "x" +:+ ":1}")) in
  let result :=
    mkToolResultDefinition "tool" "get_x" "call_1"
      ("x of {" +:+ sample.quoted "x" +:+ ":1}") in
  @StreamRequest sample.toolWorld ∅ "testbot" opts
  = Some (mkRun [textResponse "It is 1" None] []
            [(buildPayload ∅ [sample.getX] [] [], 0);
             (buildPayload ∅ [sample.getX] [call] [result], 0)]).
Proof. vm_compute. reflexivity. Qed.

End Examples.

(** ** More about the event codec *)

Section CodecMore.

Ltac first_line line :=
  destruct (line =? "")%string eqn:Hblank;
  [ | destruct (strings.HasPrefix line ":") eqn:Hcomment;
      [ | destruct (strings.Cut line ":"%char) as [[field value] found] eqn:Hcut;
          destruct (field =? "event")%string eqn:Hevent;
          [ | destruct (field =? "data")%string eqn:Hdata;
              [ | destruct (field =? "id")%string eqn:Hid ] ] ] ].

(** *** What the reader passes over *)

Lemma readLoop_ignored line rest event dataLines hasData :
  ignoredLine line = true ->
  readLoop (line :: rest) event dataLines hasData
  = readLoop rest event dataLines hasData.
Proof.
  unfold ignoredLine. intros H. cbn [readLoop].
  apply andb_true_iff in H as [Hne H]. apply negb_true_iff in Hne. rewrite Hne.
  destruct (strings.HasPrefix line ":"); [reflexivity |].
  cbn [orb] in H.
  destruct (strings.Cut line ":"%char) as [[field value] found].
  apply andb_true_iff in H as [H Hid]. apply andb_true_iff in H as [Hev Hda].
  apply negb_true_iff in Hid, Hev, Hda. now rewrite Hev, Hda, Hid.
Qed.

Lemma readLoop_insert c l1 l2 : forall event dataLines hasData,
  ignoredLine c = true ->
  readLoop (l1 ++ c :: l2) event dataLines hasData
  = readLoop (l1 ++ l2) event dataLines hasData
  \/ exists e a b,
       readLoop (l1 ++ c :: l2) event dataLines hasData = Returned e (a ++ c :: b) /\
       readLoop (l1 ++ l2) event dataLines hasData = Returned e (a ++ b).
Proof.
  induction l1 as [|line l1 IH]; intros event dataLines hasData Hc.
  - left. now apply readLoop_ignored.
  - cbn [app readLoop]. first_line line; try (now apply IH).
    destruct (pending hasData event); [| now apply IH].
    right. now exists (withData event dataLines), l1, l2.
Qed.

Lemma readAll_insert c fuel : forall l1 l2 err res,
  ignoredLine c = true ->
  readAll fuel (mkScanner (l1 ++ l2) err) = Some res ->
  readAll (S fuel) (mkScanner (l1 ++ c :: l2) err) = Some res.
Proof.
  induction fuel as [|fuel IH]; intros l1 l2 err res Hc; [discriminate |].
  intros H.
  assert (step : forall r, readAll (S (S fuel)) r
            = match ReadEvent r with
              | (ReadOk e, r') =>
                  match readAll (S fuel) r' with
                  | Some (es, end_) => Some (e :: es, end_)
                  | None => None
                  end
              | (ReadEOF, _) => Some ([], None)
              | (ReadErr err, _) => Some ([], Some err)
              end) by reflexivity.
  rewrite step. clear step. cbn [readAll] in H.
  unfold ReadEvent in *. cbn [tokens scan_err] in *.
  destruct (readLoop_insert c l1 l2 zeroEvent [] false Hc) as [E|(e & a & b & E1 & E2)].
  - rewrite E. destruct (readLoop (l1 ++ l2) zeroEvent [] false) as [e rest|ev dl hd].
    + destruct (readAll fuel (mkScanner rest err)) as [[es end_]|] eqn:F;
        [| discriminate].
      apply readAll_more in F. rewrite F. exact H.
    + destruct err as [err|]; [exact H |].
      destruct (pending hd ev); [| exact H].
      destruct (readAll fuel (mkScanner [] None)) as [[es end_]|] eqn:F;
        [| discriminate].
      apply readAll_more in F. rewrite F. exact H.
  - rewrite E1. rewrite E2 in H.
    destruct (readAll fuel (mkScanner (a ++ b) err)) as [[es end_]|] eqn:F;
      [| discriminate].
    apply (IH a b err _ Hc) in F. rewrite F. exact H.
Qed.

(** X1: comment lines and lines with an unknown field name are passed
    over wherever they stand: a stream decodes to the same events, with
    the same end, with or without such a line. *)
Theorem ignored_line_changes_nothing (c : string) (l1 l2 : list string)
    (err : option ScanError) :
  ignoredLine c = true ->
  ReadAll (mkScanner (l1 ++ c :: l2) err) = ReadAll (mkScanner (l1 ++ l2) err).
Proof.
  intros Hc.
  destruct (ReadAll_total (mkScanner (l1 ++ l2) err)) as [res Hres].
  rewrite Hres. unfold ReadAll in *. cbn [tokens] in *.
  replace (List.length (l1 ++ c :: l2)) with (S (List.length (l1 ++ l2)))
    by (rewrite !length_app; cbn; lia).
  now apply readAll_insert.
Qed.

Lemma ignored_line_witness :
  ReadAll (mkScanner (["event: text"; "data: a"]
                      ++ "retry: 3000" :: ["data: b"; ""; "data: c"]) None)
  = ReadAll (mkScanner (["event: text"; "data: a"]
                        ++ ["data: b"; ""; "data: c"]) None).
Proof.
  apply (ignored_line_changes_nothing "retry: 3000"). vm_compute. reflexivity.
Defined.

(** X2: a stream of blank lines and comments only holds no event, and
    ends with [io.EOF]. *)
Theorem blank_and_comment_lines_hold_no_event (lines : list string) :
  Forall (λ line, line = "" \/ strings.HasPrefix line ":" = true) lines ->
  ReadAll (mkScanner lines None) = Some ([], None).
Proof.
  intros H. unfold ReadAll, readAll, ReadEvent. cbn [tokens scan_err].
  assert (E : readLoop lines zeroEvent [] false = ScanStopped zeroEvent [] false).
  { induction H as [|line rest [->|Hc] _ IH]; [reflexivity | exact IH |].
    cbn [readLoop]. destruct (line =? "")%string; [exact IH |].
    now rewrite Hc. }
  now rewrite E.
Qed.

Lemma blank_and_comment_lines_witness :
  ReadAll (mkScanner [": comment"; ": another comment"; ""; ""] None)
  = Some ([], None).
Proof.
  apply blank_and_comment_lines_hold_no_event.
  repeat constructor; (now left) || (now right).
Defined.

(** *** How a stream ends *)

Lemma readAll_end fuel : forall r es end_,
  readAll fuel r = Some (es, end_) -> end_ = scan_err r.
Proof.
  induction fuel as [|fuel IH]; intros r es end_; [discriminate |].
  cbn [readAll]. unfold ReadEvent.
  destruct (readLoop (tokens r) zeroEvent [] false) as [e rest|ev dl hd].
  - destruct (readAll fuel (mkScanner rest (scan_err r))) as [[es' end']|] eqn:F;
      [| discriminate].
    intros [= _ <-]. now apply IH in F.
  - destruct (scan_err r) as [err|]; [now intros [= _ <-] |].
    destruct (pending hd ev); [| now intros [= _ <-]].
    destruct (readAll fuel (mkScanner [] None)) as [[es' end']|] eqn:F;
      [| discriminate].
    intros [= _ <-]. now apply IH in F.
Qed.

Lemma scanLines_only_too_long data : forall line toks e,
  scanLines data line = (toks, Some e) -> e = ErrTooLong.
Proof.
  induction data as [|c rest IH]; intros line toks e; cbn [scanLines].
  - destruct (line =? "")%string; [discriminate |].
    destruct (tooLong line); [now intros [= _ <-] | discriminate].
  - destruct (Ascii.eqb c LF); [| apply IH].
    destruct (tooLong line); [now intros [= _ <-] |].
    destruct (scanLines rest "") as [toks' err'] eqn:E.
    intros [= _ ->]. now apply IH in E.
Qed.

(** X3: the end of a stream is reported as it is.  Reading to the end
    always comes to an end; a stream whose reader fails never ends with
    [io.EOF] but with a scanner error, which is the read failure unless a
    line was too long; and a stream read without failure ends with
    [io.EOF] unless a line was too long. *)
Theorem stream_end_is_reported (data : string) (failure : option string) :
  exists es end_,
    ReadAll (NewReader (mkSource data failure)) = Some (es, end_)
    /\ (forall msg, failure = Some msg ->
          end_ = Some ErrTooLong \/ end_ = Some (ErrRead msg))
    /\ (failure = None -> end_ = None \/ end_ = Some ErrTooLong).
Proof.
  destruct (ReadAll_total (NewReader (mkSource data failure))) as [[es end_] H].
  exists es, end_. split; [exact H |].
  apply readAll_end in H. subst end_.
  unfold NewReader, NewScanner. cbn [src_data src_err].
  destruct (scanLines data "") as [toks [e|]] eqn:E; cbn [scan_err].
  - apply scanLines_only_too_long in E. subst e. split; intros; now (left + right).
  - split.
    + intros msg ->. now right.
    + intros ->. now left.
Qed.

(** X4: what is pending when the scanner fails is lost.  When the lines
    left hold no blank line and the scanner ends with an error, the call
    returns the error and no event, whatever fields the lines carry. *)
Theorem pending_record_lost_on_error (lines : list string) (err : ScanError) :
  Forall (λ line, line <> "") lines ->
  ReadEvent (mkScanner lines (Some err)) = (ReadErr err, mkScanner [] (Some err))
  /\ ReadAll (mkScanner lines (Some err)) = Some ([], Some err).
Proof.
  intros H.
  assert (E : forall event dataLines hasData,
    exists event' dataLines' hasData',
      readLoop lines event dataLines hasData
      = ScanStopped event' dataLines' hasData').
  { induction H as [|line rest Hne _ IH]; intros event dataLines hasData.
    - by do 3 eexists.
    - cbn [readLoop]. apply String.eqb_neq in Hne. rewrite Hne.
      destruct (strings.HasPrefix line ":"); [apply IH |].
      destruct (strings.Cut line ":"%char) as [[field value] found].
      destruct (field =? "event")%string; [apply IH |].
      destruct (field =? "data")%string; [apply IH |].
      destruct (field =? "id")%string; apply IH. }
  destruct (E zeroEvent [] false) as (ev & dl & hd & E0).
  assert (R : ReadEvent (mkScanner lines (Some err))
              = (ReadErr err, mkScanner [] (Some err))).
  { unfold ReadEvent. cbn [tokens scan_err]. now rewrite E0. }
  split; [exact R |].
  unfold ReadAll. cbn [readAll]. now rewrite R.
Qed.

Lemma pending_record_lost_witness :
  ReadEvent (mkScanner ["event: text"; "data: lost"] (Some (ErrRead "reset")))
  = (ReadErr (ErrRead "reset"), mkScanner [] (Some (ErrRead "reset")))
  /\ ReadAll (mkScanner ["event: text"; "data: lost"] (Some (ErrRead "reset")))
     = Some ([], Some (ErrRead "reset")).
Proof.
  apply pending_record_lost_on_error. repeat constructor; discriminate.
Defined.

(** *** Streams of several events *)

Lemma readLoop_app lines : forall event dataLines hasData e rest more,
  readLoop lines event dataLines hasData = Returned e rest ->
  readLoop (lines ++ more) event dataLines hasData = Returned e (rest ++ more).
Proof.
  induction lines as [|line lines IH]; intros event dataLines hasData e rest more;
    [discriminate |].
  cbn [app readLoop]. first_line line; try apply IH.
  destruct (pending hasData event); [| apply IH].
  now intros [= <- <-].
Qed.

(** X5: decoding goes record by record.  When a call of [ReadEvent]
    returns an event at a blank line, the events of the stream are that
    event followed by the events of the lines after the blank line:
    nothing of a record carries over into the next. *)
Theorem decoding_is_record_by_record (block more : list string)
    (err : option ScanError) (e : Event) :
  ReadEvent (mkScanner block None) = (ReadOk e, mkScanner [] None) ->
  last block = Some "" ->
  exists es end_,
    ReadAll (mkScanner more err) = Some (es, end_) /\
    ReadAll (mkScanner (block ++ more) err) = Some (e :: es, end_).
Proof.
  intros Hr Hlast.
  destruct (ReadAll_total (mkScanner more err)) as [[es end_] Hm].
  exists es, end_. split; [exact Hm |].
  assert (E : readLoop block zeroEvent [] false = Returned e []).
  { revert Hr. unfold ReadEvent. cbn [tokens scan_err].
    pose proof (readLoop_snoc_blank (removelast block) zeroEvent [] false) as S.
    assert (B : block = removelast block ++ [""]).
    { destruct block as [|x xs] using rev_ind; [discriminate |].
      rewrite last_snoc in Hlast. injection Hlast as ->.
      now rewrite removelast_last. }
    rewrite <- B in S. rewrite S.
    destruct (readLoop (removelast block) zeroEvent [] false) as [e0 rest|ev dl hd].
    - intros H. exfalso. injection H as _ H. destruct rest; discriminate H.
    - destruct (pending hd ev) eqn:P; cbv beta iota; rewrite ?P;
        [now intros [= <-] | discriminate]. }
  unfold ReadAll in *. cbn [tokens] in *. rewrite length_app.
  destruct block as [|b0 block]; [discriminate |].
  cbn [List.length Nat.add].
  change (readAll (S (S (List.length block + List.length more))) ?r)
    with (match ReadEvent r with
          | (ReadOk e, r') =>
              match readAll (S (List.length block + List.length more)) r' with
              | Some (es, end_) => Some (e :: es, end_)
              | None => None
              end
          | (ReadEOF, _) => Some ([], None)
          | (ReadErr err, _) => Some ([], Some err)
          end).
  unfold ReadEvent at 1. cbn [tokens scan_err].
  rewrite (readLoop_app _ _ _ _ _ _ more E). cbn [app].
  assert (F : readAll (S (List.length block + List.length more)) (mkScanner more err)
              = Some (es, end_)).
  { clear -Hm. induction (List.length block) as [|n IH]; [exact Hm |].
    now apply readAll_more. }
  now rewrite F.
Qed.

Lemma decoding_is_record_by_record_witness :
  exists es end_,
    ReadAll (mkScanner ["data: 2"] None) = Some (es, end_) /\
    ReadAll (mkScanner (["event: a"; "data: 1"; ""] ++ ["data: 2"]) None)
    = Some (mkEvent "a" "1" "" :: es, end_).
Proof.
  apply (decoding_is_record_by_record ["event: a"; "data: 1"; ""] ["data: 2"] None
           (mkEvent "a" "1" "")); reflexivity.
Defined.

Lemma readLoop_wireLines (e : Event) :
  readLoop (wireLines e) zeroEvent [] false = Returned e [].
Proof.
  destruct e as [type_ data id]. unfold wireLines. cbn [ev_ID ev_Event ev_Data].
  destruct (id =? "")%string eqn:Hid, (type_ =? "")%string eqn:Htype;
    rewrite ?String.eqb_eq in *; subst; reflexivity.
Qed.

Lemma ReadAll_cons_block (block more : list string) (e : Event) es end_ :
  readLoop block zeroEvent [] false = Returned e [] ->
  ReadAll (mkScanner more None) = Some (es, end_) ->
  ReadAll (mkScanner (block ++ more) None) = Some (e :: es, end_).
Proof.
  intros E Hm. unfold ReadAll in *. cbn [tokens] in *. rewrite length_app.
  destruct block as [|b0 block]; [discriminate |].
  cbn [List.length Nat.add].
  change (readAll (S (S (List.length block + List.length more))) ?r)
    with (match ReadEvent r with
          | (ReadOk e, r') =>
              match readAll (S (List.length block + List.length more)) r' with
              | Some (es, end_) => Some (e :: es, end_)
              | None => None
              end
          | (ReadEOF, _) => Some ([], None)
          | (ReadErr err, _) => Some ([], Some err)
          end).
  unfold ReadEvent at 1. cbn [tokens scan_err].
  rewrite (readLoop_app _ _ _ _ _ _ more E). cbn [app].
  assert (F : readAll (S (List.length block + List.length more)) (mkScanner more None)
              = Some (es, end_)).
  { clear -Hm. induction (List.length block) as [|n IH]; [exact Hm |].
    now apply readAll_more. }
  now rewrite F.
Qed.

Lemma ReadAll_wireLines_all (es : list Event) :
  ReadAll (mkScanner (concat (wireLines <$> es)) None) = Some (es, None).
Proof.
  induction es as [|e es IH]; [reflexivity |].
  cbn [fmap list_fmap concat].
  apply ReadAll_cons_block; [apply readLoop_wireLines | exact IH].
Qed.

Lemma encodable_fields (e : Event) :
  encodable e = true ->
  singleLine (ev_ID e) = true /\ singleLine (ev_Event e) = true
  /\ singleLine (ev_Data e) = true
  /\ tooLong ("id: " +:+ ev_ID e) = false
  /\ tooLong ("event: " +:+ ev_Event e) = false
  /\ tooLong ("data: " +:+ ev_Data e) = false.
Proof.
  unfold encodable. rewrite !andb_true_iff, !negb_true_iff. tauto.
Qed.

Lemma scanLines_wire_more (e : Event) (rest : string) :
  encodable e = true ->
  scanLines (wireText e +:+ rest) ""
  = let '(toks, err) := scanLines rest "" in (wireLines e ++ toks, err).
Proof.
  intros He. apply encodable_fields in He as (Hi & Ht & Hd & Li & Lt & Ld).
  unfold wireText, wireLines.
  assert (Hdata : scanLines (("data: " +:+ ev_Data e +:+ nl +:+ nl) +:+ rest) ""
                  = let '(toks, err) := scanLines rest "" in
                    (["data: " +:+ ev_Data e; ""] ++ toks, err)).
  { replace (("data: " +:+ ev_Data e +:+ nl +:+ nl) +:+ rest)
      with ("data: " +:+ ev_Data e +:+ nl +:+ (nl +:+ rest))
      by (rewrite !string_app_assoc; reflexivity).
    rewrite scanLines_field by (assumption || reflexivity).
    change (nl +:+ rest) with (String LF rest). cbn [scanLines].
    change (Ascii.eqb LF LF) with true. cbv iota.
    change (tooLong "") with false. cbv iota.
    destruct (scanLines rest "") as [toks err]. reflexivity. }
  set (dataText := "data: " +:+ ev_Data e +:+ nl +:+ nl) in *.
  assert (Hevent : scanLines
              (((if (ev_Event e =? "")%string then ""
                 else "event: " +:+ ev_Event e +:+ nl) +:+ dataText) +:+ rest) ""
            = let '(toks, err) := scanLines rest "" in
              (((if (ev_Event e =? "")%string then []
                 else ["event: " +:+ ev_Event e])
                ++ ["data: " +:+ ev_Data e; ""]) ++ toks, err)).
  { destruct (ev_Event e =? "")%string.
    - rewrite string_app_nil_l. exact Hdata.
    - replace ((("event: " +:+ ev_Event e +:+ nl) +:+ dataText) +:+ rest)
        with ("event: " +:+ ev_Event e +:+ nl +:+ (dataText +:+ rest))
        by (rewrite !string_app_assoc; reflexivity).
      rewrite scanLines_field by (assumption || reflexivity).
      rewrite Hdata. destruct (scanLines rest "") as [toks err]. reflexivity. }
  set (tail := (if (ev_Event e =? "")%string then ""
                else "event: " +:+ ev_Event e +:+ nl) +:+ dataText) in *.
  destruct (ev_ID e =? "")%string.
  - rewrite string_app_nil_l. exact Hevent.
  - replace ((("id: " +:+ ev_ID e +:+ nl) +:+ tail) +:+ rest)
      with ("id: " +:+ ev_ID e +:+ nl +:+ (tail +:+ rest))
      by (rewrite !string_app_assoc; reflexivity).
    rewrite scanLines_field by (assumption || reflexivity).
    rewrite Hevent. destruct (scanLines rest "") as [toks err]. reflexivity.
Qed.

Lemma scanLines_wire_all (es : list Event) :
  Forall (λ e, encodable e = true) es ->
  scanLines (String.concat "" (wireText <$> es)) ""
  = (concat (wireLines <$> es), None).
Proof.
  induction 1 as [|e es He _ IH]; [reflexivity |].
  cbn [fmap list_fmap concat].
  assert (C : String.concat "" (wireText e :: (wireText <$> es))
              = wireText e +:+ String.concat "" (wireText <$> es)).
  { destruct (wireText <$> es) eqn:E; [cbn; now rewrite string_app_nil_r |].
    reflexivity. }
  rewrite C, scanLines_wire_more by exact He. now rewrite IH.
Qed.

Lemma WriteEvent_appends (sw : Writer) (e : Event) :
  rw_writes_left (w_w sw) = None ->
  WriteEvent sw e
  = (mkWriter (mkResponseWriter (rw_body (w_w sw) +:+ wireText e) None)
              (w_flusher sw)
              (if w_flusher sw then S (w_flushes sw) else w_flushes sw), true).
Proof.
  intros Hn. unfold WriteEvent, wireText, Fprintf. rewrite Hn.
  destruct (ev_ID e =? "")%string, (ev_Event e =? "")%string;
    cbn [negb rw_body rw_writes_left];
    rewrite ?Hn; cbn [negb rw_body rw_writes_left];
    rewrite ?string_app_nil_l, ?string_app_assoc; reflexivity.
Qed.

Lemma WriteEvents_appends (es : list Event) : forall sw,
  rw_writes_left (w_w sw) = None ->
  WriteEvents sw es
  = (mkWriter
       (mkResponseWriter
          (rw_body (w_w sw) +:+ String.concat "" (wireText <$> es)) None)
       (w_flusher sw)
       (if w_flusher sw then (List.length es + w_flushes sw)%nat else w_flushes sw),
     true).
Proof.
  induction es as [|e es IH]; intros sw Hn.
  - cbn. rewrite string_app_nil_r. destruct sw as [[body left] fl n].
    cbn in *. subst left. now destruct fl.
  - cbn [WriteEvents]. rewrite WriteEvent_appends by exact Hn.
    rewrite IH by reflexivity. cbn [w_w rw_body w_flusher w_flushes].
    assert (C : String.concat "" (wireText <$> e :: es)
                = wireText e +:+ String.concat "" (wireText <$> es)).
    { cbn [fmap list_fmap]. destruct (wireText <$> es) eqn:E;
        [cbn; now rewrite string_app_nil_r | reflexivity]. }
    rewrite C, string_app_assoc. destruct (w_flusher sw); [| reflexivity].
    cbn [List.length]. do 2 f_equal. lia.
Qed.

(** X6: a stream of events written one after the other is read back as
    it was written.  For every list of events that the wire format can
    carry, [WriteEvent] succeeds on each in turn, flushes once per event
    when the sink can flush, and [ReadEvent] returns from the bytes
    written exactly these events, in order, and then [io.EOF]. *)
Theorem written_stream_reads_back (es : list Event) (flusher : bool) :
  Forall (λ e, encodable e = true) es ->
  exists sw',
    WriteEvents (newWriter flusher) es = (sw', true) /\
    ReadAll (NewReader (mkSource (rw_body (w_w sw')) None)) = Some (es, None) /\
    w_flushes sw' = (if flusher then List.length es else 0%nat).
Proof.
  intros H. eexists. split; [apply WriteEvents_appends; reflexivity |].
  cbn [w_w rw_body w_flushes newWriter w_flusher].
  split; [| destruct flusher; [lia | reflexivity]].
  unfold NewReader, NewScanner. cbn [src_data src_err].
  rewrite string_app_nil_l, scanLines_wire_all by exact H.
  apply ReadAll_wireLines_all.
Qed.

Lemma written_stream_witness :
  exists sw',
    WriteEvents (newWriter true)
      [mkEvent "message" "Hello" ""; mkEvent "update" "Update message" "123";
       mkEvent "" "No type" ""; mkEvent "done" "" ""]
    = (sw', true) /\
    ReadAll (NewReader (mkSource (rw_body (w_w sw')) None))
    = Some ([mkEvent "message" "Hello" ""; mkEvent "update" "Update message" "123";
             mkEvent "" "No type" ""; mkEvent "done" "" ""], None) /\
    w_flushes sw' = 4%nat.
Proof.
  apply (written_stream_reads_back
           [mkEvent "message" "Hello" ""; mkEvent "update" "Update message" "123";
            mkEvent "" "No type" ""; mkEvent "done" "" ""] true).
  repeat constructor.
Defined.

(** *** A sink that fails *)



(** *** Lines that end in carriage return and line feed *)

Lemma length_string_app (a b : string) :
  String.length (a +:+ b) = (String.length a + String.length b)%nat.
Proof.
  induction a as [|c a IH]; [reflexivity |].
  rewrite string_app_cons. cbn [String.length]. now rewrite IH.
Qed.

Lemma tooLong_shorter (a b : string) :
  tooLong (a +:+ b) = false -> tooLong a = false.
Proof.
  unfold tooLong, MaxScanTokenSize. rewrite length_string_app, !Z.leb_gt. lia.
Qed.

Lemma endsWith_no_byte c s : hasByte c s = false -> endsWith c s = false.
Proof.
  induction s as [|x s IH]; [reflexivity |].
  cbn [hasByte]. intros H. apply orb_false_iff in H as [Hx Hs].
  destruct s as [|y s]; [exact Hx |]. now apply IH.
Qed.

Lemma dropCR_snoc_CR s :
  endsWith CR s = false -> dropCR (s +:+ String CR "") = s.
Proof.
  induction s as [|x s IH]; [reflexivity |].
  intros H. rewrite string_app_cons.
  destruct s as [|y s].
  - cbn in H |- *. now rewrite H.
  - rewrite string_app_cons in *.
    change (dropCR (String x (String y (s +:+ String CR ""))))
      with (String x (dropCR (String y (s +:+ String CR "")))).
    now rewrite IH.
Qed.

Lemma scanLines_crlf data : forall line toks,
  hasByte CR data = false ->
  hasByte CR line = false ->
  scanLines (crlf data) line = (toks, None) ->
  scanLines data line = (toks, None).
Proof.
  induction data as [|c rest IH]; intros line toks Hd Hl; [trivial |].
  cbn [hasByte] in Hd. apply orb_false_iff in Hd as [Hc Hrest].
  cbn [crlf scanLines]. destruct (Ascii.eqb c LF) eqn:Ec.
  - cbn [scanLines]. change (Ascii.eqb CR LF) with false.
    change (Ascii.eqb LF LF) with true. cbv iota.
    destruct (tooLong (line +:+ String CR "")) eqn:T; [discriminate |].
    rewrite (tooLong_shorter _ _ T).
    rewrite dropCR_snoc_CR by now apply endsWith_no_byte.
    rewrite dropCR_keeps by now apply endsWith_no_byte.
    destruct (scanLines (crlf rest) "") as [toks' err'] eqn:E.
    intros [= <- ->]. now rewrite (IH "" toks' Hrest eq_refl E).
  - cbn [scanLines]. rewrite Ec. apply IH; [exact Hrest |].
    rewrite hasByte_app, Hl. cbn [hasByte orb]. now rewrite Hc.
Qed.

(** X8: lines may end in carriage return and line feed.  When a text
    without carriage returns is sent with a carriage return before each
    line feed and the scanner reads it without error, the reader sees the
    same lines, and so the same events, as for the text itself. *)
Theorem crlf_stream_reads_the_same (data : string) (es : list Event) :
  hasByte CR data = false ->
  ReadAll (NewReader (mkSource (crlf data) None)) = Some (es, None) ->
  ReadAll (NewReader (mkSource data None)) = Some (es, None).
Proof.
  intros Hd. unfold NewReader, NewScanner. cbn [src_data src_err].
  destruct (scanLines (crlf data) "") as [toks [e|]] eqn:E.
  - intros H. apply readAll_end in H. discriminate H.
  - now rewrite (scanLines_crlf data "" toks Hd eq_refl E).
Qed.

Lemma crlf_stream_witness :
  ReadAll (NewReader (mkSource ("event: text" +:+ nl +:+ "data: a" +:+ nl +:+ nl
                                +:+ "data: b") None))
  = Some ([mkEvent "text" "a" ""; mkEvent "" "b" ""], None).
Proof.
  apply crlf_stream_reads_the_same; vm_compute; reflexivity.
Defined.

End CodecMore.

(** ** More about the request loop *)

Section OrchestratorMore.
Context `{W : World}.

(** *** Records that end a request with an error *)

Lemma Reached_request payload i body n reader st fuel o :
  httpDo payload i = Responded body ->
  Reached (hasToolsOf payload) (NewReader body) n reader st ->
  requestLoop fuel (hasToolsOf payload) reader st = Some o ->
  exists ms ls, performQueryRequest payload i = Some (prepend ms ls o).
Proof.
  intros Hd Hreach Ho.
  destruct (Reached_loop _ _ _ _ _ Hreach) as (ms & ls & Hloop).
  exists ms, ls. apply (performQueryRequest_loop payload i body (n + fuel) _ Hd).
  now apply Hloop.
Qed.

(** X9: a record that cannot be decoded ends the request for good.
    When [performQueryRequest] comes to a [text], [replace_response] or
    [suggested_reply] record whose data is not JSON or has no string
    [text], or to a [file] or [json] record whose data is not JSON, it
    returns a [BotErrorNoRetry]; [streamRequestBaseWithPayload] then logs
    the failure and makes no further try, whatever number is configured. *)
Theorem undecodable_record_is_not_retried
    (payload : Payload) (botName : string) (opts : StreamRequestOptions)
    (body : Source) (n : nat) (reader reader' : Reader) (st : LoopState)
    (event : Event) :
  httpDo payload 0 = Responded body ->
  Reached (hasToolsOf payload) (NewReader body) n reader st ->
  ReadEvent reader = (ReadOk event, reader') ->
  (ev_Event event ∈ ["text"; "replace_response"; "suggested_reply"]
   /\ (exists err, getJSONStringField (ev_Data event) "text" = inr err))
  \/ (ev_Event event ∈ ["file"; "json"] /\ Unmarshal (ev_Data event) = None) ->
  0 < NumTries opts ->
  exists ms ls err,
    performQueryRequest payload 0 = Some (mkOutcome ms ls (Some err))
    /\ IsBotErrorNoRetry err = true
    /\ streamRequestBaseWithPayload botName opts payload
       = Some (mkRun ms (ls ++ [LogFailedNoRetry botName err]) [(payload, 0)]).
Proof.
  intros Hd Hreach Hr Hbad Hn.
  assert (Hh : exists b, handleEvent (hasToolsOf payload) st event
                         = Return (Some (ErrBotErrorNoRetry b)) []).
  { destruct Hbad as [[Ht [err He]]|[Ht Hj]].
    - assert (exists b, err = ErrBotErrorNoRetry b) as [b ->].
      { revert He. unfold getJSONStringField.
        destruct (Unmarshal (ev_Data event)) as [m|]; [| intros [= <-]; by eexists].
        destruct (asString _); [discriminate | intros [= <-]; by eexists]. }
      exists b. unfold handleEvent.
      repeat (apply elem_of_cons in Ht as [->|Ht]);
        [ | | | inversion Ht];
        cbn [String.eqb Ascii.eqb Bool.eqb]; now rewrite He.
    - unfold handleEvent.
      repeat (apply elem_of_cons in Ht as [->|Ht]);
        [ | | inversion Ht];
        cbn [String.eqb Ascii.eqb Bool.eqb]; rewrite Hj; by eexists. }
  destruct Hh as [b Hh].
  destruct (Reached_request payload 0 body n reader st 1
              (mkOutcome [] [] (Some (ErrBotErrorNoRetry b))) Hd Hreach)
    as (ms & ls & Hq).
  { cbn [requestLoop]. now rewrite Hr, Hh. }
  unfold prepend in Hq. cbn [sent logs result] in Hq. rewrite !app_nil_r in Hq.
  exists ms, ls, (ErrBotErrorNoRetry b). split; [exact Hq |]. split; [reflexivity |].
  unfold streamRequestBaseWithPayload.
  destruct (Z.to_nat (NumTries opts)) as [|k] eqn:E; [lia |].
  now apply tryLoop_no_retry.
Qed.

(** X10: a stream that breaks is tried again.  When the scanner reports
    an error where [performQueryRequest] reads the next record (a read
    failure or a line that is too long), the request returns a [BotError]
    that allows a retry and names the cause, after the messages it had
    sent; with more than one try configured and the context not
    cancelled, [streamRequestBaseWithPayload] then makes the next try. *)
Theorem broken_stream_is_tried_again
    (payload : Payload) (botName : string) (opts : StreamRequestOptions)
    (body : Source) (n : nat) (reader reader' : Reader) (st : LoopState)
    (cause : ScanError) :
  let err := ErrBotError (mkBotError ("SSE read error: " +:+ scanErrorText cause)
                                     (Some (scanErrorText cause))) in
  httpDo payload 0 = Responded body ->
  Reached (hasToolsOf payload) (NewReader body) n reader st ->
  ReadEvent reader = (ReadErr cause, reader') ->
  1 < NumTries opts ->
  ctxDone payload 0 = false ->
  exists ms ls more later,
    performQueryRequest payload 0 = Some (mkOutcome ms ls (Some err))
    /\ streamRequestBaseWithPayload botName opts payload
       = Some (andThen (mkRun ms (ls ++ [LogFailedTry botName 0 err]) [(payload, 0)])
                       more)
    /\ run_tries more = (payload, 1) :: later.
Proof.
  intros err Hd Hreach Hr Hn Hc.
  destruct (Reached_request payload 0 body n reader st 1
              (mkOutcome [] [] (Some err)) Hd Hreach) as (ms & ls & Hq).
  { cbn [requestLoop]. now rewrite Hr. }
  unfold prepend in Hq. cbn [sent logs result] in Hq. rewrite !app_nil_r in Hq.
  unfold streamRequestBaseWithPayload.
  destruct (Z.to_nat (NumTries opts)) as [|[|k]] eqn:En; [lia | lia |].
  destruct (tryLoop_total (S k) 1 botName opts payload) as [more Hmore].
  destruct (tryLoop_first _ _ _ _ _ _ Hmore) as [later Hlater].
  exists ms, ls, more, later. split; [exact Hq |]. split; [| exact Hlater].
  rewrite (tryLoop_retry _ _ _ _ _ _ _ _ Hq) by (assumption || lia).
  change (0 + 1) with 1. now rewrite Hmore.
Qed.

(** *** Records that are passed over *)

Lemma handleEvent_state_irrelevant hasTools st1 st2 event :
  1 <= eventCount st1 -> 1 <= eventCount st2 ->
  match handleEvent hasTools st1 event, handleEvent hasTools st2 event with
  | Return e1 _, Return e2 _ => e1 = e2
  | Continue s1 m1 _, Continue s2 m2 _ =>
      m1 = m2 /\ 1 <= eventCount s1 /\ 1 <= eventCount s2
  | _, _ => False
  end.
Proof.
  intros H1 H2. unfold handleEvent. cbn [chunks eventCount errorReported].
  replace (eventCount st1 + 1 =? 1) with false by lia.
  replace (eventCount st2 + 1 =? 1) with false by lia.
  cbn [negb].
  repeat case_match; simplify_eq; cbn [eventCount]; repeat split; lia.
Qed.

Lemma requestLoop_state_irrelevant hasTools fuel : forall reader st1 st2,
  1 <= eventCount st1 -> 1 <= eventCount st2 ->
  answer <$> requestLoop fuel hasTools reader st1
  = answer <$> requestLoop fuel hasTools reader st2.
Proof.
  induction fuel as [|fuel IH]; intros reader st1 st2 H1 H2; [reflexivity |].
  cbn [requestLoop]. destruct (ReadEvent reader) as [[e| |err] r']; try reflexivity.
  pose proof (handleEvent_state_irrelevant hasTools st1 st2 e H1 H2) as H.
  destruct (handleEvent hasTools st1 e) as [s1 m1 l1|e1 l1],
           (handleEvent hasTools st2 e) as [s2 m2 l2|e2 l2]; try contradiction.
  - destruct H as (-> & Hs1 & Hs2). specialize (IH r' s1 s2 Hs1 Hs2).
    destruct (requestLoop fuel hasTools r' s1) as [o1|],
             (requestLoop fuel hasTools r' s2) as [o2|]; try discriminate;
      [| reflexivity].
    cbn in IH |- *. unfold answer, prepend in *. cbn [sent result] in *.
    injection IH as -> ->. reflexivity.
  - subst e2. reflexivity.
Qed.

(** X11: [ping] records and records of an unknown type are passed over.
    From the second record of a stream on, such a record sends no
    message and returns no error, and the request sends and returns
    exactly what it does on the records that follow; an unknown type is
    logged, a [ping] is not. *)
Theorem unhandled_record_is_passed_over
    (hasTools : bool) (r0 reader reader' : Reader) (st : LoopState)
    (n fuel : nat) (event : Event) :
  Reached hasTools r0 n reader st ->
  (1 <= n)%nat ->
  ReadEvent reader = (ReadOk event, reader') ->
  ev_Event event ∉ handledTypes ->
  (exists st',
     handleEvent hasTools st event
     = Continue st' []
         (if (ev_Event event =? "ping")%string then []
          else [LogUnknownEvent (ev_Event event)]))
  /\ answer <$> requestLoop (S fuel) hasTools reader st
     = answer <$> requestLoop fuel hasTools reader' st.
Proof.
  intros Hreach Hn Hr Ht.
  assert (Hc : 1 <= eventCount st)
    by (rewrite (Reached_count _ _ _ _ _ Hreach); lia).
  assert (Hh : exists st',
    handleEvent hasTools st event
    = Continue st' []
        (if (ev_Event event =? "ping")%string then []
         else [LogUnknownEvent (ev_Event event)])
    /\ 1 <= eventCount st').
  { unfold handleEvent, handledTypes in *. cbn [chunks eventCount errorReported].
    repeat (apply not_elem_of_cons in Ht as [?%String.eqb_neq Ht]).
    repeat match goal with H : (_ =? _)%string = false |- _ => rewrite H; clear H end.
    destruct (ev_Event event =? "ping")%string; eexists; (split; [reflexivity |]);
      cbn [eventCount]; lia. }
  destruct Hh as (st' & Hh & Hc'). split; [by eexists |].
  cbn [requestLoop]. rewrite Hr, Hh.
  rewrite <- (requestLoop_state_irrelevant hasTools fuel reader' st' st Hc' Hc).
  destruct (requestLoop fuel hasTools reader' st') as [[ms ls res]|]; reflexivity.
Qed.

(** *** At most one message for a record *)

Lemma handleEvent_sends_at_most_one hasTools st event st' ms ls :
  handleEvent hasTools st event = Continue st' ms ls -> (List.length ms <= 1)%nat.
Proof.
  unfold handleEvent.
  repeat case_match; intros [= _ <- _]; cbn [List.length]; lia.
Qed.

Lemma requestLoop_sends_at_most hasTools fuel : forall fuel' reader st o es end_,
  requestLoop fuel hasTools reader st = Some o ->
  readAll fuel' reader = Some (es, end_) ->
  (List.length (sent o) <= List.length es)%nat.
Proof.
  induction fuel as [|fuel IH]; intros fuel' reader st o es end_; [discriminate |].
  destruct fuel' as [|fuel']; [discriminate |].
  cbn [requestLoop readAll].
  destruct (ReadEvent reader) as [[e| |err] r'].
  - destruct (readAll fuel' r') as [[es' end']|] eqn:A; [| discriminate].
    intros Ho [= <- _].
    destruct (handleEvent hasTools st e) as [st' ms ls|err ls] eqn:Hh.
    + destruct (requestLoop fuel hasTools r' st') as [o'|] eqn:L; [| discriminate].
      injection Ho as <-. cbn [prepend sent]. rewrite length_app.
      apply handleEvent_sends_at_most_one in Hh.
      specialize (IH _ _ _ _ _ _ L A). cbn [List.length]. lia.
    + injection Ho as <-. cbn [sent List.length]. lia.
  - intros [= <-] _. cbn. lia.
  - intros [= <-] _. cbn. lia.
Qed.

(** X12: a request sends at most one message for each record it reads:
    the messages of a try are never more than the events of the stream. *)
Theorem at_most_one_message_per_record
    (payload : Payload) (i : Z) (body : Source) (o : Outcome)
    (es : list Event) (end_ : option ScanError) :
  httpDo payload i = Responded body ->
  performQueryRequest payload i = Some o ->
  ReadAll (NewReader body) = Some (es, end_) ->
  (List.length (sent o) <= List.length es)%nat.
Proof.
  unfold performQueryRequest. intros -> Ho Ha.
  eapply requestLoop_sends_at_most; eassumption.
Qed.

(** *** The tries of a request *)

Lemma triesFrom_S payload i k :
  triesFrom payload i (S k) = (payload, i) :: triesFrom payload (i + 1) k.
Proof.
  unfold triesFrom. cbn [seq fmap list_fmap]. rewrite Z.add_0_r. f_equal.
  rewrite <- seq_shift, <- list_fmap_compose. apply list_fmap_ext.
  intros _ j _. cbn. f_equal. lia.
Qed.

Lemma tryLoop_tries remaining : forall i botName opts payload run,
  tryLoop remaining i botName opts payload = Some run ->
  exists k, (k <= remaining)%nat /\ run_tries run = triesFrom payload i k
            /\ (1 <= remaining -> 1 <= k)%nat.
Proof.
  induction remaining as [|remaining IH]; intros i botName opts payload run.
  - intros [= <-]. exists 0%nat. repeat split; [lia | lia].
  - cbn [tryLoop].
    assert (one : forall ms ls,
      exists k, (k <= S remaining)%nat
                /\ run_tries (mkRun ms ls [(payload, i)]) = triesFrom payload i k
                /\ (1 <= S remaining -> 1 <= k)%nat).
    { intros. exists 1%nat. rewrite triesFrom_S. repeat split; lia. }
    destruct (performQueryRequest payload i) as [o|]; [| discriminate].
    destruct (result o) as [err|]; [| intros [= <-]; apply one].
    destruct (IsBotErrorNoRetry err); [intros [= <-]; apply one |].
    destruct (i =? NumTries opts - 1); [intros [= <-]; apply one |].
    destruct (ctxDone payload i); [intros [= <-]; apply one |].
    destruct (tryLoop remaining (i + 1) botName opts payload) as [run'|] eqn:E;
      [| discriminate].
    intros [= <-]. destruct (IH _ _ _ _ _ E) as (k & Hk & Ht & _).
    exists (S k). cbn [andThen run_tries app]. rewrite Ht, triesFrom_S.
    repeat split; lia.
Qed.

(** X13: the tries of a request are numbered from 0 without a gap, all
    carry the payload of the request, and are never more than
    [NumTries]; when [NumTries] is positive there is at least one. *)
Theorem tries_are_numbered_and_bounded
    (botName : string) (opts : StreamRequestOptions) (payload : Payload) (run : Run) :
  streamRequestBaseWithPayload botName opts payload = Some run ->
  exists k,
    run_tries run = triesFrom payload 0 k
    /\ Z.of_nat k <= Z.max 0 (NumTries opts)
    /\ (0 < NumTries opts -> (1 <= k)%nat).
Proof.
  unfold streamRequestBaseWithPayload. intros H.
  apply tryLoop_tries in H as (k & Hk & Ht & H1). exists k.
  split; [exact Ht |]. split; [lia |]. intros Hn. apply H1. lia.
Qed.

Lemma tryLoop_retry_reason remaining : forall i botName opts payload run j,
  tryLoop remaining i botName opts payload = Some run ->
  i <= j ->
  (payload, j + 1) ∈ run_tries run ->
  exists o b,
    performQueryRequest payload j = Some o
    /\ result o = Some (ErrBotError b)
    /\ ctxDone payload j = false
    /\ j <> NumTries opts - 1.
Proof.
  induction remaining as [|remaining IH]; intros i botName opts payload run j.
  - intros [= <-] _ Hin. inversion Hin.
  - cbn [tryLoop].
    assert (one : forall ms ls,
      i <= j -> (payload, j + 1) ∈ run_tries (mkRun ms ls [(payload, i)]) ->
      exists o b,
        performQueryRequest payload j = Some o /\ result o = Some (ErrBotError b)
        /\ ctxDone payload j = false /\ j <> NumTries opts - 1).
    { intros ms ls Hij Hin. cbn [run_tries] in Hin.
      apply list_elem_of_singleton in Hin. injection Hin as Hin. lia. }
    destruct (performQueryRequest payload i) as [o|] eqn:Hq; [| discriminate].
    destruct (result o) as [err|] eqn:Hres; [| intros [= <-]; apply one].
    destruct err as [b|b]; cbn [IsBotErrorNoRetry]; [| intros [= <-]; apply one].
    destruct (i =? NumTries opts - 1) eqn:Hlast; [intros [= <-]; apply one |].
    destruct (ctxDone payload i) eqn:Hc; [intros [= <-]; apply one |].
    destruct (tryLoop remaining (i + 1) botName opts payload) as [run'|] eqn:E;
      [| discriminate].
    intros [= <-] Hij Hin. cbn [andThen run_tries app] in Hin.
    apply elem_of_cons in Hin as [Hin|Hin]; [injection Hin as Hin; lia |].
    destruct (decide (j = i)) as [->|Hne].
    + exists o, b. repeat split; try assumption. lia.
    + apply (IH _ _ _ _ _ j E); [lia | exact Hin].
Qed.

(** X14: a try is only made after a try that failed in a way that
    allows a retry.  When try [j + 1] was made, try [j] had returned a
    [BotError] that is not a [BotErrorNoRetry], the context was not
    cancelled during the sleep after it, and it was not the last try
    allowed; so a try that ends without error, or with a
    [BotErrorNoRetry], is the last. *)
Theorem retry_only_after_retryable_failure
    (botName : string) (opts : StreamRequestOptions) (payload : Payload)
    (run : Run) (j : Z) :
  streamRequestBaseWithPayload botName opts payload = Some run ->
  0 <= j ->
  (payload, j + 1) ∈ run_tries run ->
  exists o b,
    performQueryRequest payload j = Some o
    /\ result o = Some (ErrBotError b)
    /\ ctxDone payload j = false
    /\ j <> NumTries opts - 1.
Proof. unfold streamRequestBaseWithPayload. apply tryLoop_retry_reason. Qed.

Lemma tryLoop_sent remaining : forall i botName opts payload run,
  tryLoop remaining i botName opts payload = Some run ->
  run_sent run = concat (sentOf <$> run_tries run).
Proof.
  induction remaining as [|remaining IH]; intros i botName opts payload run.
  - now intros [= <-].
  - cbn [tryLoop].
    destruct (performQueryRequest payload i) as [o|] eqn:Hq; [| discriminate].
    assert (one : forall ls,
      run_sent (mkRun (sent o) ls [(payload, i)])
      = concat (sentOf <$> run_tries (mkRun (sent o) ls [(payload, i)]))).
    { intros. cbn. unfold sentOf. cbn [fst snd]. rewrite Hq. cbn.
      now rewrite app_nil_r. }
    destruct (result o) as [err|]; [| intros [= <-]; apply one].
    destruct (IsBotErrorNoRetry err); [intros [= <-]; apply one |].
    destruct (i =? NumTries opts - 1); [intros [= <-]; apply one |].
    destruct (ctxDone payload i); [intros [= <-]; apply one |].
    destruct (tryLoop remaining (i + 1) botName opts payload) as [run'|] eqn:E;
      [| discriminate].
    intros [= <-]. cbn [andThen run_sent run_tries app fmap list_fmap concat].
    rewrite (IH _ _ _ _ _ E). unfold sentOf at 2. cbn [fst snd]. now rewrite Hq.
Qed.

(** X15: nothing that was sent is taken back.  The messages a request
    delivers are the messages of its first try, followed by those of its
    second try, and so on: what a failed try had sent before it failed
    stays in front of what the next try sends. *)
Theorem messages_of_every_try_are_delivered
    (botName : string) (opts : StreamRequestOptions) (payload : Payload) (run : Run) :
  streamRequestBaseWithPayload botName opts payload = Some run ->
  run_sent run = concat (sentOf <$> run_tries run).
Proof. unfold streamRequestBaseWithPayload. apply tryLoop_sent. Qed.

Lemma tryLoop_all_fail remaining : forall i botName opts payload run,
  (forall j, i <= j < i + Z.of_nat remaining ->
     exists o b, performQueryRequest payload j = Some o
                 /\ result o = Some (ErrBotError b)) ->
  (forall j, ctxDone payload j = false) ->
  i + Z.of_nat remaining = NumTries opts ->
  tryLoop remaining i botName opts payload = Some run ->
  run_tries run = triesFrom payload i remaining.
Proof.
  induction remaining as [|remaining IH]; intros i botName opts payload run Hf Hc Hn.
  - now intros [= <-].
  - cbn [tryLoop]. destruct (Hf i) as (o & b & Hq & Hres); [lia |].
    rewrite Hq, Hres. cbn [IsBotErrorNoRetry]. rewrite triesFrom_S.
    destruct (i =? NumTries opts - 1) eqn:Hlast.
    + intros [= <-]. assert (remaining = 0%nat) as -> by lia. reflexivity.
    + rewrite Hc.
      destruct (tryLoop remaining (i + 1) botName opts payload) as [run'|] eqn:E;
        [| discriminate].
      intros [= <-]. cbn [andThen run_tries app]. f_equal.
      apply (IH (i + 1) botName opts payload run'); [| exact Hc | lia | exact E].
      intros; apply Hf; lia.
Qed.

(** X16: when every try fails in a way that allows a retry and the
    context is never cancelled, exactly [NumTries] tries are made. *)
Theorem all_tries_are_used_when_all_fail
    (botName : string) (opts : StreamRequestOptions) (payload : Payload) (run : Run) :
  0 <= NumTries opts ->
  (forall j, 0 <= j < NumTries opts ->
     exists o b, performQueryRequest payload j = Some o
                 /\ result o = Some (ErrBotError b)) ->
  (forall j, ctxDone payload j = false) ->
  streamRequestBaseWithPayload botName opts payload = Some run ->
  run_tries run = triesFrom payload 0 (Z.to_nat (NumTries opts)).
Proof.
  intros Hn Hf Hc. unfold streamRequestBaseWithPayload.
  apply tryLoop_all_fail; [intros; apply Hf; lia | exact Hc | lia].
Qed.

End OrchestratorMore.

(** ** More about the final response *)

Section FinalResponseMore.
Context `{W : World}.

Lemma collect_filter msgs : forall chunks,
  fold_left collect (filter (λ m, counted m = true) msgs) chunks
  = fold_left collect msgs chunks.
Proof.
  induction msgs as [|m msgs IH]; intros chunks; [reflexivity |].
  destruct (counted m) eqn:Hc.
  - rewrite filter_cons_True by exact Hc. cbn [fold_left]. apply IH.
  - rewrite filter_cons_False by (rewrite Hc; discriminate).
    cbn [fold_left]. rewrite (collect_skipped _ _ Hc). apply IH.
Qed.

(** X17: meta responses and suggested replies never reach the final
    response: [GetFinalResponse] gives the same text, or the same error,
    with or without them among the messages delivered. *)
Theorem uncounted_messages_do_not_matter (botName : string)
    (msgs : list PartialResponse) :
  finalResponse botName (filter (λ m, counted m = true) msgs)
  = finalResponse botName msgs.
Proof. unfold finalResponse. now rewrite collect_filter. Qed.

Lemma collect_no_replace msgs : forall chunks,
  Forall (λ m, pr_IsReplaceResponse m = false) msgs ->
  fold_left collect msgs chunks
  = chunks ++ (pr_Text <$> filter (λ m, counted m = true) msgs).
Proof.
  induction msgs as [|m msgs IH]; intros chunks H.
  - cbn. now rewrite app_nil_r.
  - inversion H as [|? ? Hm Hrest]; subst. cbn [fold_left].
    rewrite (IH _ Hrest). destruct (counted m) eqn:Hc.
    + rewrite filter_cons_True by exact Hc.
      rewrite (collect_counted _ _ Hc), Hm. cbn [fmap list_fmap].
      now rewrite <- app_assoc.
    + rewrite filter_cons_False by (rewrite Hc; discriminate).
      now rewrite (collect_skipped _ _ Hc).
Qed.

(** X18: without a replace message the final response is the texts of
    the counted messages, in the order of delivery, one after the
    other. *)
Theorem final_text_is_the_texts_in_order (botName : string)
    (msgs : list PartialResponse) :
  Forall (λ m, pr_IsReplaceResponse m = false) msgs ->
  filter (λ m, counted m = true) msgs <> [] ->
  finalResponse botName msgs
  = inl (String.concat "" (pr_Text <$> filter (λ m, counted m = true) msgs)).
Proof.
  intros H Hne. unfold finalResponse. rewrite (collect_no_replace _ _ H).
  cbn [app]. destruct (filter _ msgs); [contradiction | reflexivity].
Qed.

(** X19: [defaults] leaves options that need no default as they are and
    is idempotent; after it the number of tries and the sleep time are
    positive and the base URL is not empty. *)
Theorem defaults_fill_what_is_missing (o : StreamRequestOptions) :
  defaults (defaults o) = defaults o
  /\ 0 < NumTries (defaults o)
  /\ 0 < RetrySleepTime (defaults o)
  /\ BaseURL (defaults o) <> ""
  /\ Tools (defaults o) = Tools o
  /\ ToolExecutables (defaults o) = ToolExecutables o
  /\ (0 < NumTries o -> NumTries (defaults o) = NumTries o)
  /\ (NumTries o <= 0 -> NumTries (defaults o) = 2).
Proof.
  unfold defaults, defaultNumTries, defaultRetrySleep, defaultBaseURL.
  cbn [NumTries RetrySleepTime BaseURL Tools ToolExecutables APIKey].
  destruct (NumTries o <=? 0) eqn:N, (RetrySleepTime o <=? 0) eqn:R,
           (BaseURL o =? "")%string eqn:B;
    cbn; rewrite ?N, ?R, ?B; cbn;
    repeat split; try lia; try discriminate;
    try (apply String.eqb_neq; exact B).
Qed.

End FinalResponseMore.

(** ** More about requests with tools *)

Section ToolsMore.
Context `{W : World}.

(** *** The map of aggregated calls *)

Lemma aggregateAll_same_index deltas : forall agg1 agg2 i,
  Forall (λ d, tcd_Index d = i) deltas ->
  agg1 !! i = agg2 !! i ->
  aggregateAll agg1 deltas !! i = aggregateAll agg2 deltas !! i.
Proof.
  induction deltas as [|d ds IH]; intros agg1 agg2 i H E; [exact E |].
  inversion H as [|? ? Hd Hds]; subst. cbn [aggregateAll fold_left].
  apply (IH _ _ _ Hds). unfold aggregate. rewrite E.
  destruct (agg2 !! tcd_Index d) as [tc|] eqn:E2; [now rewrite !lookup_insert_eq |].
  destruct (tcd_ID d), (tcd_Type d), (fcd_Name (tcd_Function d));
    rewrite ?lookup_insert_eq; congruence.
Qed.

(** X20: the calls are aggregated index by index: the entry at an index
    after any deltas is the entry after the deltas of that index alone;
    deltas at other indexes have no part in it. *)
Theorem aggregation_is_per_index (agg : gmap Z ToolCallDefinition)
    (deltas : list ToolCallDefinitionDelta) (i : Z) :
  aggregateAll agg deltas !! i
  = aggregateAll agg (filter (λ d, tcd_Index d = i) deltas) !! i.
Proof.
  revert agg. induction deltas as [|d ds IH]; intros agg; [reflexivity |].
  cbn [aggregateAll fold_left].
  change (fold_left aggregate ds (aggregate agg d))
    with (aggregateAll (aggregate agg d) ds).
  destruct (decide (tcd_Index d = i)) as [Hi|Hi].
  - rewrite filter_cons_True by exact Hi. cbn [aggregateAll fold_left]. apply IH.
  - rewrite filter_cons_False by exact Hi. rewrite IH.
    apply aggregateAll_same_index.
    + apply Forall_forall. intros x Hx. now apply list_elem_of_filter in Hx as [Hx _].
    + now apply aggregate_other.
Qed.

(** X21: an entry only comes from a delta that can make one: every index
    with an entry after the deltas had one before or is the index of a
    delta that carries id, type and function name. *)
Theorem entries_come_from_complete_deltas (agg : gmap Z ToolCallDefinition)
    (deltas : list ToolCallDefinitionDelta) (i : Z) :
  is_Some (aggregateAll agg deltas !! i) ->
  is_Some (agg !! i)
  \/ exists d, d ∈ deltas /\ tcd_Index d = i /\ complete d = true.
Proof.
  intros H. destruct (agg !! i) as [tc|] eqn:E; [left; by eexists | right].
  destruct (decide (Exists (λ d, tcd_Index d = i /\ complete d = true) deltas))
    as [Hex|Hno].
  - apply Exists_exists in Hex as (d & Hin & Hi & Hc). now exists d.
  - exfalso. rewrite aggregateAll_absent in H; [now destruct H | exact E |].
    intros d Hin Hi. destruct (complete d) eqn:Hc; [| reflexivity].
    exfalso. apply Hno, Exists_exists. now exists d.
Qed.

(** *** Running the tools *)

Lemma execMapOf_snoc executables exec :
  execMapOf (executables ++ [exec]) = <[te_Name exec := exec]> (execMapOf executables).
Proof. unfold execMapOf. now rewrite fold_left_app. Qed.

Lemma execMapOf_lookup executables name :
  execMapOf executables !! name = lookupExecutable executables name.
Proof.
  induction executables as [|exec executables IH] using rev_ind; [reflexivity |].
  rewrite execMapOf_snoc. unfold lookupExecutable in *. rewrite filter_app.
  destruct (decide (te_Name exec = name)) as [<-|Hne].
  - rewrite lookup_insert_eq, filter_cons_True by reflexivity.
    rewrite filter_nil. now rewrite last_snoc.
  - rewrite lookup_insert_ne by exact Hne.
    rewrite filter_cons_False by exact Hne. rewrite filter_nil.
    now rewrite app_nil_r.
Qed.

(** X22: [executeTools] gives one result for each call whose function
    name has an executable, in the order of the calls, and none for the
    others: the result carries the role [tool], the name and id of the
    call, and as content what the callback returns or, when it fails,
    the text of its error; of two executables with one name the later
    runs. *)
Theorem tool_results_follow_the_calls (executables : list ToolExecutable)
    (toolCalls : list ToolCallDefinition) :
  (executeTools executables toolCalls).1 = omap (toolResult executables) toolCalls.
Proof.
  unfold executeTools.
  induction toolCalls as [|tc tcs IH]; [reflexivity |].
  cbn [executeToolsLoop omap list_omap].
  destruct (executeToolsLoop (execMapOf executables) tcs) as [results ls].
  cbn [fst] in IH. unfold toolResult at 1. rewrite <- execMapOf_lookup.
  destruct (execMapOf executables !! fc_Name (tc_Function tc)) as [exec|];
    [| exact IH].
  destruct (te_Execute exec (fc_Arguments (tc_Function tc))); cbn [fst];
    now rewrite IH.
Qed.

(** *** The two passes *)

Lemma firstPass_plain noExecutables msgs : forall agg,
  Forall (λ m, plain m = true) msgs ->
  firstPass noExecutables agg msgs = (msgs, agg).
Proof.
  induction msgs as [|m msgs IH]; intros agg H; [reflexivity |].
  inversion H as [|? ? Hm Hrest]; subst. cbn [firstPass].
  unfold firstPassStep. unfold plain in Hm. rewrite Hm, orb_true_r.
  now rewrite (IH _ Hrest).
Qed.

(** X23: a request with tools hands on what is no tool call.  When no
    message of the first pass has [choices] in its data, the request
    delivers exactly these messages and makes no second pass, with or
    without executables. *)
Theorem plain_messages_pass_through
    (req : Object) (botName : string) (opts : StreamRequestOptions) (first : Run) :
  Tools opts <> [] ->
  streamRequestBaseWithPayload botName (defaults opts)
    (buildPayload req (Tools opts) [] []) = Some first ->
  Forall (λ m, plain m = true) (run_sent first) ->
  StreamRequest req botName opts = Some first.
Proof.
  intros Ht Hf Hp. unfold StreamRequest.
  change (Tools (defaults opts)) with (Tools opts).
  destruct (Tools opts) as [|t ts] eqn:E; [contradiction |].
  cbn [List.length Nat.ltb Nat.leb]. unfold streamRequestWithTools.
  change (Tools (defaults opts)) with (Tools opts). rewrite E, Hf.
  rewrite (firstPass_plain _ _ _ Hp). destruct first as [ms ls ts'].
  cbn [run_sent run_logs run_tries].
  destruct (Nat.eqb _ 0); [reflexivity |].
  unfold toolCallsOf. rewrite map_to_list_empty.
  pose proof (rangeOrder_perm []) as P. apply Permutation_nil_r in P.
  rewrite P. reflexivity.
Qed.

(** X24: every request of a stream request carries the first payload
    (the query and the tools) or, in a second pass, that payload with a
    list of tool calls that is not empty and the results [executeTools]
    gives for these calls; without executables there is no second
    pass. *)
Theorem payloads_of_the_two_passes
    (req : Object) (botName : string) (opts : StreamRequestOptions) (run : Run)
    (try : Payload * Z) :
  StreamRequest req botName opts = Some run ->
  try ∈ run_tries run ->
  try.1 = buildPayload req (Tools opts) [] []
  \/ (ToolExecutables opts <> []
      /\ pl_request try.1 = req
      /\ pl_tools try.1 = Tools opts
      /\ pl_tool_calls try.1 <> []
      /\ pl_tool_results try.1
         = (executeTools (ToolExecutables opts) (pl_tool_calls try.1)).1).
Proof.
  assert (same : forall remaining i opts' payload run' t,
    tryLoop remaining i botName opts' payload = Some run' ->
    t ∈ run_tries run' -> t.1 = payload).
  { intros remaining i opts' payload run' t H Hin.
    apply tryLoop_tries in H as (k & _ & Ht & _). rewrite Ht in Hin.
    unfold triesFrom in Hin. apply list_elem_of_fmap in Hin as (j & -> & _).
    reflexivity. }
  unfold StreamRequest. change (Tools (defaults opts)) with (Tools opts).
  change (ToolExecutables (defaults opts)) with (ToolExecutables opts).
  destruct (Nat.ltb 0 (List.length (Tools opts))) eqn:Et.
  - unfold streamRequestWithTools.
    change (Tools (defaults opts)) with (Tools opts).
    change (ToolExecutables (defaults opts)) with (ToolExecutables opts).
    unfold streamRequestBaseWithPayload.
    destruct (tryLoop _ 0 botName (defaults opts)
                (buildPayload req (Tools opts) [] [])) as [first|] eqn:F;
      [| discriminate].
    destruct (firstPass _ ∅ (run_sent first)) as [out agg].
    destruct (Nat.eqb (List.length (ToolExecutables opts)) 0) eqn:Ee.
    { intros [= <-] Hin. left. now apply (same _ _ _ _ _ _ F). }
    destruct (Nat.eqb (List.length (toolCallsOf agg)) 0) eqn:Ec.
    { intros [= <-] Hin. left. now apply (same _ _ _ _ _ _ F). }
    destruct (executeTools (ToolExecutables opts) (toolCallsOf agg))
      as [toolResults ls] eqn:X.
    destruct (tryLoop _ 0 botName (defaults opts)
                (buildPayload req (Tools opts) (toolCallsOf agg) toolResults))
      as [second|] eqn:S; [| discriminate].
    intros [= <-] Hin. cbn [andThen run_tries] in Hin.
    apply elem_of_app in Hin as [Hin|Hin].
    + left. now apply (same _ _ _ _ _ _ F).
    + right. rewrite (same _ _ _ _ _ _ S Hin). cbn [buildPayload pl_request
        pl_tools pl_tool_calls pl_tool_results]. rewrite X.
      repeat split.
      * intros E0. now rewrite E0 in Ee.
      * intros E0. now rewrite E0 in Ec.
  - unfold streamRequestBase. intros H Hin. left.
    rewrite (same _ _ _ _ _ _ H Hin).
    destruct (Tools opts); [reflexivity | discriminate].
Qed.

End ToolsMore.

(** ** Properties of the server side *)

Section CostRequests.
Context `{W : World}.

Lemma costLoop_readAll fuel : forall r fuel' es end_,
  (List.length (tokens r) < fuel)%nat ->
  readAll fuel' r = Some (es, end_) ->
  server.costLoop fuel r
  = Some (if existsb server.successResult es then None
          else Some server.ErrInsufficientFund).
Proof.
  induction fuel as [|fuel IH]; intros r fuel' es end_ Hlen; [lia |].
  destruct fuel' as [|fuel']; [discriminate |].
  cbn [readAll server.costLoop].
  destruct (ReadEvent r) as [[e| |err] r'] eqn:E.
  - destruct (readAll fuel' r') as [[es' end']|] eqn:F; [| discriminate].
    intros [= <- <-]. cbn [existsb].
    destruct (server.successResult e); [reflexivity |]. cbn [orb].
    apply ReadEvent_shrinks in E. eapply IH; [lia | exact F].
  - now intros [= <- <-].
  - now intros [= <- <-].
Qed.

(** X25: a cost request succeeds exactly when the response has status
    200 and its stream holds a [result] record whose JSON data has the
    status [success].  With any other status code the stream is not
    looked at and the error is a [CostRequestError].  With status 200
    the error is [InsufficientFundError] whenever no such record comes,
    also when the stream breaks with a read error. *)
Theorem cost_request_needs_a_success_record (StatusCode : Z) (Status : string)
    (body : Source) (es : list Event) (end_ : option ScanError) :
  ReadAll (NewReader body) = Some (es, end_) ->
  exists res,
    server.costRequestInner (server.CostResponded StatusCode Status body)
    = Some res
    /\ (res = None <->
        StatusCode = 200 /\ Exists (λ e, server.successResult e = true) es)
    /\ (StatusCode <> 200 -> exists msg, res = Some (server.ErrCostRequest msg))
    /\ (StatusCode = 200 -> res <> None -> res = Some server.ErrInsufficientFund).
Proof.
  intros H. unfold server.costRequestInner.
  destruct (StatusCode =? 200) eqn:Hc; cbn [negb].
  - apply Z.eqb_eq in Hc. subst StatusCode.
    rewrite (costLoop_readAll _ _ _ es end_ (Nat.lt_succ_diag_r _) H).
    eexists. split; [reflexivity |].
    destruct (existsb server.successResult es) eqn:X.
    + apply existsb_exists in X as (e & Hin & He).
      split; [| split; [intros Hne; now contradiction Hne
                       | intros _ Hne; now contradiction Hne]].
      split; [intros _ | intros _; reflexivity].
      split; [reflexivity |]. apply Exists_exists. exists e.
      split; [apply list_elem_of_In, Hin | exact He].
    + split; [| split; [intros Hne; now contradiction Hne | intros; reflexivity]].
      split; [discriminate |].
      intros [_ Hex]. apply Exists_exists in Hex as (e & Hin & He).
      apply list_elem_of_In in Hin.
      assert (existsb server.successResult es = true) by (apply existsb_exists; eauto).
      congruence.
  - apply Z.eqb_neq in Hc. eexists. split; [reflexivity |].
    split; [split; [discriminate | intros [? _]; contradiction] |].
    split; [intros _; eauto | intros ?; contradiction].
Qed.

End CostRequests.

Section QueryHandler.
Context `{W : World} `{E : server.Encoder}.

Lemma concat_wireText_cons (e : Event) (es : list Event) :
  String.concat "" (wireText <$> e :: es)
  = wireText e +:+ String.concat "" (wireText <$> es).
Proof.
  cbn [fmap list_fmap]. destruct (wireText <$> es) eqn:X;
    [cbn; now rewrite string_app_nil_r | reflexivity].
Qed.

Lemma concat_wireText_app (es1 es2 : list Event) :
  String.concat "" (wireText <$> es1 ++ es2)
  = String.concat "" (wireText <$> es1) +:+ String.concat "" (wireText <$> es2).
Proof.
  induction es1 as [|e es1 IH]; [now rewrite string_app_nil_l |].
  change ((e :: es1) ++ es2) with (e :: (es1 ++ es2)).
  now rewrite !concat_wireText_cons, IH, string_app_assoc.
Qed.

Lemma WriteEvent_sink (sw : Writer) (e : Event) :
  rw_writes_left (w_w sw) = None ->
  rw_writes_left (w_w (WriteEvent sw e).1) = None
  /\ rw_body (w_w (WriteEvent sw e).1) = rw_body (w_w sw) +:+ wireText e.
Proof. intros Hn. rewrite WriteEvent_appends by exact Hn. now cbn. Qed.

Lemma writeBotEvent_sink (sw : Writer) (event : server.BotEvent) :
  rw_writes_left (w_w sw) = None ->
  rw_writes_left (w_w (server.writeBotEvent sw event)) = None
  /\ rw_body (w_w (server.writeBotEvent sw event))
     = rw_body (w_w sw) +:+ String.concat "" (wireText <$> written event).
Proof.
  intros Hn.
  assert (one : forall sw e, rw_writes_left (w_w sw) = None ->
            rw_writes_left (w_w (WriteEvent sw e).1) = None
            /\ rw_body (w_w (WriteEvent sw e).1)
               = rw_body (w_w sw) +:+ String.concat "" (wireText <$> [e])).
  { intros sw0 e H0. apply (WriteEvent_sink sw0 e) in H0 as [A B].
    split; [exact A |]. rewrite B. reflexivity. }
  destruct event as [m|e|e|metadata]; cbn [server.writeBotEvent written];
    try (apply one; exact Hn).
  unfold server.writeFileEvent, server.writeSuggestedReplyEvent,
    server.writeReplaceResponseEvent, server.writeTextEvent, messageRecord,
    fileRecord.
  destruct (pr_Attachment m) as [att|].
  - destruct (one sw (mkEvent "file" (server.Marshal (server.fileMap att)) "") Hn)
      as [A B].
    set (sw1 := (WriteEvent sw _).1) in *.
    rewrite concat_wireText_app, <- string_app_assoc, <- B.
    destruct (pr_IsSuggestedReply m); [apply one; exact A |].
    destruct (pr_IsReplaceResponse m); apply one; exact A.
  - cbn [app].
    destruct (pr_IsSuggestedReply m); [apply one; exact Hn |].
    destruct (pr_IsReplaceResponse m); apply one; exact Hn.
Qed.

Lemma fold_writeBotEvent_sink (events : list server.BotEvent) : forall sw,
  rw_writes_left (w_w sw) = None ->
  rw_writes_left (w_w (fold_left server.writeBotEvent events sw)) = None
  /\ rw_body (w_w (fold_left server.writeBotEvent events sw))
     = rw_body (w_w sw)
       +:+ String.concat "" (wireText <$> (events ≫= written)).
Proof.
  induction events as [|event events IH]; intros sw Hn.
  - cbn. now rewrite string_app_nil_r.
  - cbn [fold_left]. destruct (writeBotEvent_sink sw event Hn) as [A B].
    destruct (IH _ A) as [A' B']. split; [exact A' |].
    rewrite B', B. change ((event :: events) ≫= written)
      with (written event ++ (events ≫= written)).
    now rewrite concat_wireText_app, string_app_assoc.
Qed.

Lemma handleQuery_body (events : list server.BotEvent) (flusher : bool) :
  rw_body (w_w (server.handleQuery (newWriter flusher) events))
  = String.concat ""
      (wireText <$> ((events ≫= written) ++ [mkEvent "done" "{}" ""])).
Proof.
  unfold server.handleQuery, server.writeDoneEvent.
  destruct (fold_writeBotEvent_sink events (newWriter flusher) eq_refl) as [A B].
  destruct (WriteEvent_sink _ (mkEvent "done" "{}" "") A) as [_ C].
  rewrite C, B. cbn [newWriter w_w rw_body].
  now rewrite string_app_nil_l, concat_wireText_app.
Qed.

Lemma scanLines_wire_prefix (es : list Event) (rest : string) :
  Forall (λ e, encodable e = true) es ->
  scanLines (String.concat "" (wireText <$> es) +:+ rest) ""
  = let '(toks, err) := scanLines rest "" in
    (concat (wireLines <$> es) ++ toks, err).
Proof.
  induction 1 as [|e es He _ IH].
  - cbn. rewrite string_app_nil_l. now destruct (scanLines rest "").
  - rewrite concat_wireText_cons, string_app_assoc.
    rewrite scanLines_wire_more by exact He. rewrite IH.
    destruct (scanLines rest "") as [toks err].
    cbn [fmap list_fmap concat]. now rewrite <- app_assoc.
Qed.

Lemma ReadEvent_wire (e : Event) (more : list string) (err : option ScanError) :
  ReadEvent (mkScanner (wireLines e ++ more) err) = (ReadOk e, mkScanner more err).
Proof.
  unfold ReadEvent. cbn [tokens scan_err].
  now rewrite (readLoop_app _ _ _ _ e [] more (readLoop_wireLines e)).
Qed.

Lemma requestLoop_wire hasTools fuel (e : Event) more err st :
  requestLoop (S fuel) hasTools (mkScanner (wireLines e ++ more) err) st
  = match handleEvent hasTools st e with
    | Return res ls => Some (mkOutcome [] ls res)
    | Continue st' ms ls =>
        prepend ms ls <$> requestLoop fuel hasTools (mkScanner more err) st'
    end.
Proof. cbn [requestLoop]. now rewrite ReadEvent_wire. Qed.

Lemma prepend_prepend (a b : list PartialResponse) (o : option Outcome) :
  prepend a [] <$> (prepend b [] <$> o) = prepend (a ++ b) [] <$> o.
Proof.
  destruct o as [o|]; [| reflexivity]. cbn. unfold prepend. cbn.
  now rewrite app_assoc.
Qed.

Lemma prepend_nothing (o : option Outcome) : prepend [] [] <$> o = o.
Proof. destruct o as [[s l r]|]; reflexivity. Qed.

(** The client on the records of one message. *)
Lemma requestLoop_message hasTools (m : PartialResponse) (st : LoopState) :
  readsBack m ->
  exists st',
    forall fuel more err,
      requestLoop (List.length (written (server.EvPartialResponse m)) + fuel)
        hasTools
        (mkScanner (concat (wireLines <$> written (server.EvPartialResponse m))
                    ++ more) err) st
      = prepend (asReceived m) [] <$> requestLoop fuel hasTools (mkScanner more err) st'.
Proof.
  intros (Henc & Htext & Hidx & Hatt).
  assert (text : forall st1, exists st',
            forall fuel more err,
              requestLoop (S fuel) hasTools
                (mkScanner (wireLines (messageRecord m) ++ more) err) st1
              = prepend [mkPartialResponse (pr_Text m) None None None None
                           (pr_IsSuggestedReply m)
                           (negb (pr_IsSuggestedReply m) && pr_IsReplaceResponse m)
                           None [] (writtenIndex m)] []
                  <$> requestLoop fuel hasTools (mkScanner more err) st').
  { intros st1. unfold messageRecord, writtenIndex in *.
    destruct (pr_IsSuggestedReply m); [| destruct (pr_IsReplaceResponse m)];
      cbn [orb negb andb] in *; eexists; intros fuel more err;
      rewrite requestLoop_wire;
      unfold handleEvent; cbn [ev_Event ev_Data String.eqb Ascii.eqb Bool.eqb] in *;
      cbv beta iota zeta; rewrite Htext, Hidx; reflexivity. }
  unfold asReceived. cbn [written]. destruct (pr_Attachment m) as [att|].
  - destruct Hatt as (Fenc & Fidx & dataMap & Hu & Hurl & Hct & Hname & Href).
    destruct (text (mkLoopState (chunks st) (eventCount st + 1) (errorReported st)))
      as [st' Hst'].
    exists st'. intros fuel more err.
    cbn [app List.length fmap list_fmap concat Nat.add]. rewrite <- app_assoc.
    rewrite requestLoop_wire.
    unfold handleEvent at 1. unfold fileRecord in *.
    cbn [ev_Event ev_Data String.eqb Ascii.eqb Bool.eqb] in *.
    cbv beta iota zeta. rewrite Hu, Fidx, Hurl, Hct, Hname, Href.
    cbn [default]. rewrite app_nil_r.
    rewrite Hst', prepend_prepend. destruct att. reflexivity.
  - destruct (text st) as [st' Hst']. exists st'. intros fuel more err.
    cbn [app List.length fmap list_fmap concat Nat.add]. rewrite app_nil_r.
    apply Hst'.
Qed.

Lemma requestLoop_messages hasTools (ms : list PartialResponse) :
  Forall readsBack ms ->
  forall st, exists st',
    forall fuel more err,
      requestLoop
        (List.length ((server.EvPartialResponse <$> ms) ≫= written) + fuel)
        hasTools
        (mkScanner
           (concat (wireLines <$> ((server.EvPartialResponse <$> ms) ≫= written))
            ++ more) err) st
      = prepend (ms ≫= asReceived) []
          <$> requestLoop fuel hasTools (mkScanner more err) st'.
Proof.
  induction 1 as [|m ms Hm _ IH]; intros st.
  - exists st. intros fuel more err. cbn. now rewrite prepend_nothing.
  - destruct (requestLoop_message hasTools m st Hm) as [st1 H1].
    destruct (IH st1) as [st' H2]. exists st'. intros fuel more err.
    change ((server.EvPartialResponse <$> m :: ms) ≫= written)
      with (written (server.EvPartialResponse m)
            ++ ((server.EvPartialResponse <$> ms) ≫= written)).
    change ((m :: ms) ≫= asReceived) with (asReceived m ++ (ms ≫= asReceived)).
    rewrite fmap_app, concat_app, <- app_assoc, length_app, <- Nat.add_assoc.
    now rewrite H1, H2, prepend_prepend.
Qed.

Lemma readsBack_encodable (ms : list PartialResponse) :
  Forall readsBack ms ->
  Forall (λ e, encodable e = true) ((server.EvPartialResponse <$> ms) ≫= written).
Proof.
  induction 1 as [|m ms (Henc & _ & _ & Hatt) _ IH]; [constructor |].
  change ((server.EvPartialResponse <$> m :: ms) ≫= written)
    with (written (server.EvPartialResponse m)
          ++ ((server.EvPartialResponse <$> ms) ≫= written)).
  apply Forall_app. split; [| exact IH]. cbn [written].
  destruct (pr_Attachment m) as [att|]; [destruct Hatt as [Fenc _] |];
    repeat constructor; assumption.
Qed.




End QueryHandler.

(** ** Examples for the further properties *)

Section ExamplesMore.

Ltac reads_back :=
  split; [vm_compute; reflexivity |];
  split; [vm_compute; reflexivity |];
  split; [vm_compute; reflexivity |].

Lemma stream_end_witness :
  exists es end_,
    ReadAll (NewReader scenario.broken) = Some (es, end_)
    /\ (forall msg, Some "connection reset" = Some msg ->
          end_ = Some ErrTooLong \/ end_ = Some (ErrRead msg))
    /\ (Some "connection reset" = None -> end_ = None \/ end_ = Some ErrTooLong).
Proof. exact (stream_end_is_reported _ (Some "connection reset")). Defined.

Lemma undecodable_record_witness :
  let w := sample.world (sample.respond scenario.garbled) in
  let payload := buildPayload ∅ [] [] [] in
  exists ms ls err,
    @performQueryRequest w payload 0 = Some (mkOutcome ms ls (Some err))
    /\ IsBotErrorNoRetry err = true
    /\ @streamRequestBaseWithPayload w "bot" (sample.options 3) payload
       = Some (mkRun ms (ls ++ [LogFailedNoRetry "bot" err]) [(payload, 0)]).
Proof.
  intros w payload.
  set (body := mkSource scenario.garbled None).
  set (r0 := NewReader body).
  apply (@undecodable_record_is_not_retried w payload "bot" (sample.options 3)
           body 1 (ReadEvent r0).2 (ReadEvent (ReadEvent r0).2).2
           (mkLoopState ["Hello"] 1 false) (mkEvent "text" "not json" "")).
  - reflexivity.
  - apply (@Reached_step w false r0 0 r0 initialState
             (mkEvent "text" (sample.object1 "text" "Hello") "")
             (ReadEvent r0).2 (mkLoopState ["Hello"] 1 false)
             [textResponse "Hello" None] []).
    + apply Reached_start.
    + vm_compute. reflexivity.
    + vm_compute. reflexivity.
  - vm_compute. reflexivity.
  - left. split; [constructor |].
    exists (ErrBotErrorNoRetry (mkBotError "Invalid JSON in event: not json" None)).
    vm_compute. reflexivity.
  - reflexivity.
Defined.

Lemma broken_stream_witness :
  let w := sample.world scenario.flaky in
  let payload := buildPayload ∅ [] [] [] in
  let err := ErrBotError (mkBotError "SSE read error: connection reset"
                                     (Some "connection reset")) in
  exists ms ls more later,
    @performQueryRequest w payload 0 = Some (mkOutcome ms ls (Some err))
    /\ @streamRequestBaseWithPayload w "bot" (sample.options 2) payload
       = Some (andThen (mkRun ms (ls ++ [LogFailedTry "bot" 0 err]) [(payload, 0)])
                       more)
    /\ run_tries more = (payload, 1) :: later.
Proof.
  intros w payload err.
  set (r0 := NewReader scenario.broken).
  apply (@broken_stream_is_tried_again w payload "bot" (sample.options 2)
           scenario.broken 1 (ReadEvent r0).2 (ReadEvent (ReadEvent r0).2).2
           (mkLoopState ["Hello"] 1 false) (ErrRead "connection reset")).
  - reflexivity.
  - apply (@Reached_step w false r0 0 r0 initialState
             (mkEvent "text" (sample.object1 "text" "Hello") "")
             (ReadEvent r0).2 (mkLoopState ["Hello"] 1 false)
             [textResponse "Hello" None] []).
    + apply Reached_start.
    + vm_compute. reflexivity.
    + vm_compute. reflexivity.
  - vm_compute. reflexivity.
  - reflexivity.
  - reflexivity.
Defined.

Lemma unhandled_record_witness :
  let w := sample.world (sample.respond "") in
  let r0 := NewReader (mkSource scenario.pinged None) in
  let r1 := (ReadEvent r0).2 in
  let r2 := (ReadEvent r1).2 in
  let st := mkLoopState ["a"] 1 false in
  let event := mkEvent "ping" "{}" "" in
  (exists st', @handleEvent w false st event = Continue st' [] [])
  /\ answer <$> @requestLoop w 2 false r1 st
     = answer <$> @requestLoop w 1 false r2 st.
Proof.
  intros w r0 r1 r2 st event.
  apply (@unhandled_record_is_passed_over w false r0 r1 r2 st 1 1 event).
  - apply (@Reached_step w false r0 0 r0 initialState
             (mkEvent "text" (sample.object1 "text" "a") "") r1 st
             [textResponse "a" None] []).
    + apply Reached_start.
    + vm_compute. reflexivity.
    + vm_compute. reflexivity.
  - lia.
  - vm_compute. reflexivity.
  - apply (bool_decide_unpack _). vm_compute. exact I.
Defined.

Lemma at_most_one_message_witness :
  let w := sample.world (sample.respond scenario.pinged) in
  let payload := buildPayload ∅ [] [] [] in
  (List.length [textResponse "a" None]
   <= List.length [mkEvent "text" (sample.object1 "text" "a") "";
                   mkEvent "ping" "{}" ""; mkEvent "done" "{}" ""])%nat.
Proof.
  intros w payload.
  apply (@at_most_one_message_per_record w payload 0
           (mkSource scenario.pinged None)
           (mkOutcome [textResponse "a" None] [] None) _ None).
  - reflexivity.
  - vm_compute. reflexivity.
  - vm_compute. reflexivity.
Defined.

Lemma tries_are_numbered_witness :
  let w := sample.world scenario.flaky in
  let payload := buildPayload ∅ [] [] [] in
  let run := default emptyRun
               (@streamRequestBaseWithPayload w "bot" (sample.options 3) payload) in
  exists k,
    run_tries run = triesFrom payload 0 k
    /\ Z.of_nat k <= Z.max 0 3
    /\ (0 < 3 -> (1 <= k)%nat).
Proof.
  intros w payload run.
  apply (@tries_are_numbered_and_bounded w "bot" (sample.options 3) payload run).
  vm_compute. reflexivity.
Defined.

Lemma retry_only_after_witness :
  let w := sample.world scenario.flaky in
  let payload := buildPayload ∅ [] [] [] in
  exists o b,
    @performQueryRequest w payload 0 = Some o
    /\ result o = Some (ErrBotError b)
    /\ @ctxDone w payload 0 = false
    /\ 0 <> 3 - 1.
Proof.
  intros w payload.
  apply (@retry_only_after_retryable_failure w "bot" (sample.options 3) payload
           (default emptyRun
              (@streamRequestBaseWithPayload w "bot" (sample.options 3) payload)) 0).
  - vm_compute. reflexivity.
  - lia.
  - vm_compute. constructor. constructor.
Defined.

Lemma messages_of_every_try_witness :
  let w := sample.world scenario.flaky in
  let payload := buildPayload ∅ [] [] [] in
  let run := default emptyRun
               (@streamRequestBaseWithPayload w "bot" (sample.options 3) payload) in
  run_sent run = concat (@sentOf w <$> run_tries run).
Proof.
  intros w payload run.
  apply (@messages_of_every_try_are_delivered w "bot" (sample.options 3) payload run).
  vm_compute. reflexivity.
Defined.

Lemma all_tries_are_used_witness :
  let w := sample.world scenario.unreachable in
  let payload := buildPayload ∅ [] [] [] in
  let run := default emptyRun
               (@streamRequestBaseWithPayload w "bot" (sample.options 3) payload) in
  run_tries run = triesFrom payload 0 3.
Proof.
  intros w payload run.
  apply (@all_tries_are_used_when_all_fail w "bot" (sample.options 3) payload run).
  - discriminate.
  - intros j _. eexists _, _. split; reflexivity.
  - reflexivity.
  - vm_compute. reflexivity.
Defined.

Lemma final_text_witness :
  finalResponse "bot" (take 3 scenario.messages)
  = inl (String.concat ""
           (pr_Text <$> filter (λ m, counted m = true) (take 3 scenario.messages))).
Proof.
  apply final_text_is_the_texts_in_order.
  - repeat constructor.
  - vm_compute. discriminate.
Defined.

Lemma defaults_witness :
  let o := sample.options 0 in
  defaults (defaults o) = defaults o
  /\ 0 < NumTries (defaults o)
  /\ 0 < RetrySleepTime (defaults o)
  /\ BaseURL (defaults o) <> ""
  /\ Tools (defaults o) = Tools o
  /\ ToolExecutables (defaults o) = ToolExecutables o
  /\ (0 < NumTries o -> NumTries (defaults o) = NumTries o)
  /\ (NumTries o <= 0 -> NumTries (defaults o) = 2).
Proof. exact (defaults_fill_what_is_missing (sample.options 0)). Defined.

Lemma entries_come_from_witness :
  let first := mkToolCallDefinitionDelta 3 (Some "call_1") (Some "function")
                 (mkFunctionCallDefinitionDelta (Some "get_x") "") in
  let second := mkToolCallDefinitionDelta 3 None None
                  (mkFunctionCallDefinitionDelta None "{}") in
  is_Some ((∅ : gmap Z ToolCallDefinition) !! 3)
  \/ exists d, d ∈ [first; second] /\ tcd_Index d = 3 /\ complete d = true.
Proof.
  intros first second.
  apply (entries_come_from_complete_deltas ∅ [first; second] 3).
  exists (mkToolCallDefinition "call_1" "function"
            (mkFunctionCallDefinition "get_x" "{}")).
  vm_compute. reflexivity.
Defined.

Lemma plain_messages_witness :
  let w := sample.world (sample.respond sample.answerStream) in
  let opts := scenario.toolOptions [] in
  let first := default emptyRun
                 (@streamRequestBaseWithPayload w "bot" (defaults opts)
                    (buildPayload ∅ (Tools opts) [] [])) in
  @StreamRequest w ∅ "bot" opts = Some first.
Proof.
  intros w opts first.
  apply (@plain_messages_pass_through w ∅ "bot" opts first).
  - discriminate.
  - vm_compute. reflexivity.
  - vm_compute. repeat constructor.
Defined.

Lemma payloads_witness :
  let w := sample.toolWorld in
  let opts := scenario.toolOptions [sample.getXExecutable] in
  let run := default emptyRun (@StreamRequest w ∅ "bot" opts) in
  let try := default (buildPayload ∅ [] [] [], 0) (last (run_tries run)) in
  try.1 = buildPayload ∅ (Tools opts) [] []
  \/ (ToolExecutables opts <> []
      /\ pl_request try.1 = ∅
      /\ pl_tools try.1 = Tools opts
      /\ pl_tool_calls try.1 <> []
      /\ pl_tool_results try.1
         = (executeTools (ToolExecutables opts) (pl_tool_calls try.1)).1).
Proof.
  intros w opts run try.
  apply (@payloads_of_the_two_passes w ∅ "bot" opts run try).
  - vm_compute. reflexivity.
  - vm_compute. constructor. constructor.
Defined.

Lemma cost_request_witness :
  let w := scenario.world (sample.respond "") in
  let es := [mkEvent "result" (sample.object1 "status" "success") ""] in
  exists res,
    @server.costRequestInner w
      (server.CostResponded 200 "200 OK" (mkSource scenario.granted None))
    = Some res
    /\ (res = None <->
        200 = 200 /\ Exists (λ e, @server.successResult w e = true) es)
    /\ (200 <> 200 -> exists msg, res = Some (server.ErrCostRequest msg))
    /\ (200 = 200 -> res <> None -> res = Some server.ErrInsufficientFund).
Proof.
  intros w es.
  apply (@cost_request_needs_a_success_record w 200 "200 OK"
           (mkSource scenario.granted None) es None).
  vm_compute. reflexivity.
Defined.




End ExamplesMore.
